(** * TabAlign: column alignment for a text buffer

    A shallow embedding of [TabAlign.py] (a Sublime Text plugin) and the
    properties of its alignment core: the per-line position tracker
    [LineObj], its search [find_next] and splice [insert], the multi-pass
    delimiter alignment of [align_by_selected_str] and the precondition
    check of [align_by_cursors].

    Python integers are [Z]; Python strings are lists of characters;
    objects mutated in place are passed and returned explicitly. *)

From Stdlib Require Import ZArith List Bool Ascii String Lia.
From Stdlib Require Import Permutation Sorted.
Import ListNotations.
Local Open Scope Z_scope.

(** ** Python strings *)

Definition str := list ascii.

(** String literals of the source, as character lists. *)
Definition py (s : string) : str := list_ascii_of_string s.

(** [len(s)] *)
Definition len (s : str) : Z := Z.of_nat (List.length s).

(** [s.startswith(sub)], the test behind every substring search. *)
Fixpoint startswith (sub s : str) : bool :=
  match sub, s with
  | [], _ => true
  | _ :: _, [] => false
  | c :: sub', d :: s' => Ascii.eqb c d && startswith sub' s'
  end.

(** Offset of the first occurrence of [sub] in [s], scanning left to right. *)
Fixpoint scan (sub s : str) {struct s} : option nat :=
  if startswith sub s then Some O
  else match s with
       | [] => None
       | _ :: s' => option_map S (scan sub s')
       end.

(** [s.find(sub, start)]: a negative [start] counts from the end of [s];
    a [start] beyond the end finds nothing, not even the empty string. *)
Definition find (s sub : str) (start : Z) : Z :=
  let st := if start <? 0 then Z.max (start + len s) 0 else start in
  if len s <? st then -1
  else match scan sub (skipn (Z.to_nat st) s) with
       | Some k => st + Z.of_nat k
       | None => -1
       end.

(** [sub in s] *)
Definition contains (s sub : str) : bool := negb (find s sub 0 =? -1).

(** Index normalisation of a slice bound. *)
Definition slice_index (i : Z) (s : str) : nat :=
  Z.to_nat (if i <? 0 then Z.max (i + len s) 0 else Z.min i (len s)).

(** [s[:i]] and [s[i:]] *)
Definition slice_to (s : str) (i : Z) : str := firstn (slice_index i s) s.
Definition slice_from (s : str) (i : Z) : str := skipn (slice_index i s) s.

(** [" " * n]; a count below one gives the empty string. *)
Definition spaces (n : Z) : str := repeat " "%char (Z.to_nat n).

(** [sep.join(parts)] *)
Fixpoint join (sep : str) (parts : list str) : str :=
  match parts with
  | [] => []
  | [p] => p
  | p :: rest => p ++ sep ++ join sep rest
  end.

(** [s.count(c)] for a one-character [c]. *)
Definition count_char (c : ascii) (s : str) : Z :=
  Z.of_nat (List.length (filter (Ascii.eqb c) s)).

(** [max(l)] of a list of integers; Python raises on the empty list. *)
Definition py_max (l : list Z) : option Z :=
  match l with
  | [] => None
  | x :: xs => Some (fold_left Z.max xs x)
  end.

(** ** Results of a call

    A call returns, raises, or never comes back. *)

Inductive exn : Type := NameError | IndexError | ValueError.

Inductive res (A : Type) : Type :=
| Returns (a : A)
| Raises (e : exn)
| Diverges.
Arguments Returns {A} a.
Arguments Raises {A} e.
Arguments Diverges {A}.

Definition bind {A B} (r : res A) (k : A -> res B) : res B :=
  match r with
  | Returns a => k a
  | Raises e => Raises e
  | Diverges => Diverges
  end.

Notation "'let*' x ':=' r 'in' k" := (bind r (fun x => k))
  (at level 10, x pattern, r at level 100, k at level 200).

(** ** LineObj *)

Record LineObj : Type := mkLineObj {
  begin : Z;
  end_ : Z;
  text : str;
  search_start : Z;
  last_find : Z
}.

(** [LineObj.__init__] *)
Definition LineObj_init (b e : Z) (t : str) : LineObj :=
  {| begin := b; end_ := e; text := t; search_start := 0; last_find := 0 |}.

Definition set_search_start (l : LineObj) (v : Z) : LineObj :=
  {| begin := begin l; end_ := end_ l; text := text l;
     search_start := v; last_find := last_find l |}.

Definition set_last_find (l : LineObj) (v : Z) : LineObj :=
  {| begin := begin l; end_ := end_ l; text := text l;
     search_start := search_start l; last_find := v |}.

Definition set_text (l : LineObj) (t : str) : LineObj :=
  {| begin := begin l; end_ := end_ l; text := t;
     search_start := search_start l; last_find := last_find l |}.

(** The [while] of [find_next] that walks to the last delimiter of a row of
    adjacent ones.  It polls no timer; [fuel] bounds the iterations, and
    [None] is a loop that is still running when the fuel is gone. *)
Fixpoint last_in_row (fuel : nat) (t alignstr : str) (pos : Z) : option Z :=
  match fuel with
  | O => None
  | S fuel' =>
      let asl := len alignstr in
      if (pos <? len t) && (find t alignstr (pos + asl) =? pos + asl)
      then last_in_row fuel' t alignstr (pos + asl)
      else Some pos
  end.

(** The last line of [find_next], [ret = pos if not alignfirst else firstpos]:
    [firstpos] is bound nowhere, so evaluating it raises. *)
Definition final_result (alignfirst : bool) (pos : Z) : res Z :=
  if negb alignfirst then Returns pos else Raises NameError.

(** [LineObj.find_next], with the fuel of its inner loop explicit. *)
Definition find_next_fuel (fuel : nat) (l : LineObj) (alignstr : str)
    (alignfirst : bool) : res (LineObj * Z) :=
  let pos := find (text l) alignstr (search_start l) in
  if (pos =? -1) || (len (text l) <=? pos) then
    Returns (set_search_start l (len (text l)), -1)
  else
    let l := set_search_start l (pos + len alignstr) in
    let l := set_last_find l pos in
    if alignfirst then Returns (l, pos)
    else
      match last_in_row fuel (text l) alignstr pos with
      | None => Diverges
      | Some pos =>
          let l := set_search_start l (pos + len alignstr) in
          let l := set_last_find l pos in
          let* ret := final_result alignfirst pos in
          Returns (l, ret)
      end.

(** [LineObj.find_next].  Each turn of the inner loop with a non-empty
    delimiter moves [pos] forward, so more turns than the text has
    characters means the loop never ends (see [find_next_diverges_exact]). *)
Definition find_next (l : LineObj) (alignstr : str) (alignfirst : bool)
    : res (LineObj * Z) :=
  find_next_fuel (S (List.length (text l))) l alignstr alignfirst.

(** [LineObj.insert] *)
Definition insert (l : LineObj) (pos : Z) (val : str) : LineObj :=
  let pos := Z.min (Z.max pos 0) (len (text l)) in
  let l := if pos <=? search_start l
           then set_search_start l (search_start l + len val) else l in
  let l := if pos <=? last_find l
           then set_last_find l (last_find l + len val) else l in
  if pos =? 0 then set_text l (val ++ text l)
  else if pos =? len (text l) then set_text l (text l ++ val)
  else set_text l (slice_to (text l) pos ++ val ++ slice_from (text l) pos).

(** ** The alignment passes of [align_by_selected_str] *)

(** A [Timer] is polled by [has_ticked] at fixed places of every loop and
    answers from the wall clock.  The clock only moves forward, so the
    answers of one command are some number of "not yet" followed by "ticked"
    for ever: a timer is the number of polls it still answers "not yet".
    [match timer with O => ticked | S timer' => not yet] is [has_ticked]. *)
Definition Timer := nat.

(** [[line.find_next(alignstr, alignfirst) for line in lines]]: the lines are
    searched, and moved on, from first to last. *)
Fixpoint find_next_all (lines : list LineObj) (alignstr : str)
    (alignfirst : bool) : res (list LineObj * list Z) :=
  match lines with
  | [] => Returns ([], [])
  | l :: rest =>
      let* (l', p) := find_next l alignstr alignfirst in
      let* (rest', ps) := find_next_all rest alignstr alignfirst in
      Returns (l' :: rest', p :: ps)
  end.

(** The body of [for line in lines] that pads one line up to [maxpos]. *)
Definition align_line (maxpos : Z) (line : LineObj) : LineObj :=
  let linepos := last_find line in
  if linepos <? 0 then line
  else if linepos <? maxpos then insert line linepos (spaces (maxpos - linepos))
  else line.

(** How the [while True] loop of the passes ends. *)
Inductive passes : Type :=
| Aligned (lines : list LineObj)   (* [break]: no line found a delimiter *)
| TimedOut.                        (* the timer ticked: message and [return] *)

(** One turn of the [while True] loop below its timer poll: search every
    line, then pad every line.  The flag is [false] at the [break]. *)
Definition align_pass (lines : list LineObj) (alignstr : str)
    (alignfirst : bool) : res (list LineObj * bool) :=
  let* (lines, align_positions) := find_next_all lines alignstr alignfirst in
  match py_max align_positions with
  | None => Raises ValueError
  | Some maxpos =>
      if maxpos <? 0 then Returns (lines, false)
      else Returns (map (align_line maxpos) lines, true)
  end.

(** The [while True] loop, one column a turn. *)
Fixpoint align_columns (timer : Timer) (lines : list LineObj) (alignstr : str)
    (alignfirst : bool) : res passes :=
  match timer with
  | O => Returns TimedOut
  | S timer' =>
      let* (lines, again) := align_pass lines alignstr alignfirst in
      if again then align_columns timer' lines alignstr alignfirst
      else Returns (Aligned lines)
  end.

(** ** The host editor

    The plugin reads and edits the buffer through Sublime Text's [View].
    [Region] is the editor's pair of offsets. *)

Module sublime.

Record Region : Type := mkRegion { a : Z; b : Z }.

Definition begin (r : Region) : Z := Z.min (a r) (b r).
Definition end_ (r : Region) : Z := Z.max (a r) (b r).
Definition size (r : Region) : Z := Z.abs (b r - a r).

(** The calls the plugin makes on [self.view]; the calls that change the
    editor return the changed editor. *)
Class View (V : Type) : Type := {
  view_sel : V -> list Region;
  view_size : V -> Z;
  view_line : V -> Z -> Region;
  view_substr : V -> Region -> str;
  view_rowcol : V -> Z -> Z * Z;
  view_tab_size : V -> Z;
  view_insert : V -> Z -> str -> V;
  view_replace : V -> Region -> str -> V;
  status_message : V -> str -> V
}.

End sublime.
Import sublime(Region, mkRegion, View, view_sel, view_size, view_line,
  view_substr, view_rowcol, view_tab_size, view_insert, view_replace,
  status_message).

(** What a command hands back: [return], or [return None, None]. *)
Inductive retval : Type := RNone | RNonePair.

(** The cursor dictionaries built by [get_active_cursors]. *)
Record RichCursor : Type := mkRichCursor {
  rc_reg : Region;
  rc_loc : Z;
  rc_line : Region;
  rc_row : Z;
  rc_col : Z;
  rc_pos : Z
}.

(** [sorted(l, key=...)] is stable, also with [reverse=True]: [before x y]
    says that [x] may stand before [y]. *)
Fixpoint sorted_insert {A} (before : A -> A -> bool) (x : A) (l : list A)
    : list A :=
  match l with
  | [] => [x]
  | y :: l' => if before x y then x :: l else y :: sorted_insert before x l'
  end.

Definition sorted {A} (before : A -> A -> bool) (l : list A) : list A :=
  fold_right (sorted_insert before) [] l.

Definition newline : str := py (String "010"%char EmptyString).
Definition tab : ascii := "009"%char.

(** ** The command class [TabAlign] *)

Section TabAlign.

Context {V : Type} `{View V}.

(** [TabAlign.get_line] *)
Definition get_line (view : V) (loc : Z) : option LineObj :=
  if view_size view <=? loc then None
  else
    let line := view_line view loc in
    let text := view_substr view line in
    Some (LineObj_init (sublime.begin line) (sublime.end_ line) text).

(** The loop of [align_by_selected_str] that gathers the lines holding the
    delimiter; the timer is polled at the end of every turn.  [None] is the
    [return] after the timeout message. *)
Fixpoint gather_lines (timer : Timer) (view : V) (alignstr : str)
    (line : option LineObj) (lines : list LineObj)
    : option (Timer * list LineObj) :=
  match line with
  | None => Some (timer, lines)
  | Some l =>
      if contains (text l) alignstr then
        let lines := lines ++ [l] in
        let line_start := end_ l + 1 in
        let line := get_line view line_start in
        match timer with
        | O => None
        | S timer' => gather_lines timer' view alignstr line lines
        end
      else Some (timer, lines)
  end.

(** [TabAlign.align_by_selected_str]: the editor after the call, and how the
    call ended. *)
Definition align_by_selected_str (view : V) (cursor : Region) (timer : Timer)
    (alignfirst : bool) : V * res retval :=
  let cursorline := view_line view (sublime.begin cursor) in
  if negb (sublime.begin (view_line view (sublime.end_ cursor))
           =? sublime.begin cursorline) then
    (status_message view
       (py "Error: selection can't span more than one line"), Returns RNone)
  else
    let alignstr :=
      if 0 <? sublime.size cursor then view_substr view cursor
      else view_substr view
             (mkRegion (sublime.begin cursor) (sublime.begin cursor + 1)) in
    let view :=
      match alignstr with
      | [] => status_message view (py "Programmer error: empty align string")
      | _ :: _ => view
      end in
    let line_start := sublime.begin cursorline in
    match gather_lines timer view alignstr (get_line view line_start) [] with
    | None =>
        (status_message view (py "Programmer error: timeout on line 197"),
         Returns RNone)
    | Some (timer, lines) =>
        match lines with
        | [] => (view, Raises IndexError)
        | first :: _ =>
            let origreg := mkRegion (begin first) (end_ (last lines first)) in
            match align_columns timer lines alignstr alignfirst with
            | Diverges => (view, Diverges)
            | Raises e => (view, Raises e)
            | Returns TimedOut =>
                (status_message view
                   (py "Programmer error: timeout on line 204"),
                 Returns RNone)
            | Returns (Aligned lines) =>
                let newstrval := join newline (map text lines) in
                (view_replace view origreg newstrval, Returns RNone)
            end
        end
    end.

(** The first loop of [get_active_cursors]: the properties of each cursor.
    [None] is the timeout, after its message. *)
Fixpoint rich_cursors_of (timer : Timer) (view : V) (tabsize : Z)
    (search_cursors : list Region) (rich_cursors : list RichCursor)
    {struct search_cursors} : option (Timer * list RichCursor) :=
  match search_cursors with
  | [] => Some (timer, rich_cursors)
  | reg :: rest =>
      let loc := sublime.begin reg in
      let '(row, col) := view_rowcol view loc in
      let line := view_line view loc in
      let linestr := slice_to (view_substr view line) col in
      let pos := col + count_char tab linestr * (tabsize - 1) in
      let rich_cursors :=
        rich_cursors ++ [mkRichCursor reg loc line row col pos] in
      match timer with
      | O => None
      | S timer' => rich_cursors_of timer' view tabsize rest rich_cursors
      end
  end.

(** The loop that keeps the first cursor of every line and sets the others
    aside. *)
Fixpoint first_per_line (prevline : Z) (rich_cursors : list RichCursor)
    : list RichCursor * list Region :=
  match rich_cursors with
  | [] => ([], [])
  | rich_cursor :: rest =>
      let line := sublime.begin (rc_line rich_cursor) in
      let '(firsts, others) := first_per_line line rest in
      if negb (line =? prevline) then (rich_cursor :: firsts, others)
      else (firsts, rc_reg rich_cursor :: others)
  end.

(** [TabAlign.get_active_cursors].  The inner [None] is the two-element
    [return None, None] of the timeout. *)
Definition get_active_cursors (view : V) (search_cursors : list Region)
    (timer : Timer)
    : V * Timer * res (option (list RichCursor * list Region * Z)) :=
  let tabsize := view_tab_size view in
  match rich_cursors_of timer view tabsize search_cursors [] with
  | None =>
      (status_message view (py "Programmer error: timeout on line 141"),
       O, Returns None)
  | Some (timer, rich_cursors) =>
      let rich_cursors :=
        sorted (fun x y => rc_loc x <=? rc_loc y) rich_cursors in
      let '(first_richcursors, other_cursors) :=
        first_per_line (-1) rich_cursors in
      let first_richcursors :=
        sorted (fun x y => rc_loc y <=? rc_loc x) first_richcursors in
      let positions := map rc_pos first_richcursors in
      match py_max positions with
      | None => (view, timer, Raises ValueError)
      | Some maxpos =>
          (view, timer,
           Returns (Some (first_richcursors, other_cursors, maxpos)))
      end
  end.

(** The [for selreg in active_cursors] loop: pad at each cursor and move
    the waiting cursors that lie behind it. *)
Fixpoint tab_align (view : V) (maxpos : Z) (active_cursors : list RichCursor)
    (waiting_cursors : list Region) : V * list Region :=
  match active_cursors with
  | [] => (view, waiting_cursors)
  | selreg :: rest =>
      let loc := rc_loc selreg in
      let pos := rc_pos selreg in
      let insertion_len := maxpos - pos in
      let view :=
        if 0 <? insertion_len
        then view_insert view loc (spaces insertion_len) else view in
      let waiting_cursors :=
        map (fun reg =>
               if loc <=? sublime.begin reg
               then mkRegion (sublime.begin reg + insertion_len)
                             (sublime.begin reg + insertion_len)
               else reg) waiting_cursors in
      tab_align view maxpos rest waiting_cursors
  end.

(** The [while len(waiting_cursors) > 0] loop.  Every turn polls the timer
    at its head, so a loop started with more [turns] than the timer has
    polls left never runs out of turns (see [cursor_passes_turns]). *)
Fixpoint cursor_passes (turns : nat) (timer : Timer) (view : V)
    (waiting_cursors : list Region) : V * res retval :=
  match waiting_cursors with
  | [] => (view, Returns RNone)
  | _ :: _ =>
      match turns, timer with
      | O, _ | _, O =>
          (status_message view (py "Programmer error: timeout on line 105"),
           Returns RNone)
      | S turns', S timer' =>
          match get_active_cursors view waiting_cursors timer' with
          | (view, _, Raises e) => (view, Raises e)
          | (view, _, Diverges) => (view, Diverges)
          | (view, _, Returns None) => (view, Raises ValueError)
          | (view, timer, Returns (Some (active, waiting, maxpos))) =>
              let '(view, waiting) := tab_align view maxpos active waiting in
              cursor_passes turns' timer view waiting
          end
      end
  end.

(** [TabAlign.align_by_cursors] *)
Definition align_by_cursors (view : V) (timer : Timer) : V * res retval :=
  let cursors := view_sel view in
  let waiting_cursors :=
    map (fun c => mkRegion (sublime.begin c) (sublime.end_ c)) cursors in
  if existsb (fun cursor => 0 <? sublime.size cursor) cursors then
    (status_message view
       (py "Error: you must have either a selection, a single cursor, or multiple cursors"),
     Returns RNonePair)
  else cursor_passes (S timer) timer view waiting_cursors.

(** [TabAlign.my_run] *)
Definition my_run (view : V) (timer : Timer) (alignfirst : bool)
    : V * res retval :=
  let '(view, r) :=
    match view_sel view with
    | [cursor] => align_by_selected_str view cursor timer alignfirst
    | _ => align_by_cursors view timer
    end in
  (view, let* _ := r in Returns RNone).

End TabAlign.

(** ** An editor in memory

    A buffer of characters with the lines, rows and columns the editor
    derives from it, that records the messages shown and the edits made. *)

Module Editor.

Inductive edit : Type :=
| Inserted (loc : Z) (s : str)
| Replaced (reg : Region) (s : str).

Record t : Type := mk {
  chars : str;
  selection : list Region;
  tab_size : Z;
  messages : list str;
  edits : list edit
}.

Definition is_newline (c : ascii) : bool := Ascii.eqb c "010"%char.

(** Offset of the first character of the line that holds offset [pt];
    [i] is the offset of the head of [s] and [start] the line it is on. *)
Fixpoint line_begin (s : str) (pt : nat) (i start : nat) : nat :=
  match pt, s with
  | S pt', c :: s' =>
      line_begin s' pt' (S i) (if is_newline c then S i else start)
  | _, _ => start
  end.

(** Offset of the end of the line that holds offset [pt]. *)
Definition line_end (s : str) (pt : nat) : nat :=
  match scan newline (skipn pt s) with
  | Some k => pt + k
  | None => List.length s
  end.

Definition clamp (e : t) (pt : Z) : nat :=
  Z.to_nat (Z.min (Z.max pt 0) (len (chars e))).

Definition line (e : t) (pt : Z) : Region :=
  let p := clamp e pt in
  mkRegion (Z.of_nat (line_begin (chars e) p 0 0))
           (Z.of_nat (line_end (chars e) p)).

Definition substr (e : t) (r : Region) : str :=
  let lo := clamp e (sublime.begin r) in
  let hi := clamp e (sublime.end_ r) in
  firstn (hi - lo) (skipn lo (chars e)).

Definition rowcol (e : t) (pt : Z) : Z * Z :=
  let p := clamp e pt in
  (Z.of_nat (List.length (filter is_newline (firstn p (chars e)))),
   Z.of_nat (p - line_begin (chars e) p 0 0)).

Definition insert (e : t) (loc : Z) (s : str) : t :=
  let p := clamp e loc in
  {| chars := firstn p (chars e) ++ s ++ skipn p (chars e);
     selection := selection e; tab_size := tab_size e;
     messages := messages e;
     edits := edits e ++ [Inserted loc s] |}.

Definition replace (e : t) (r : Region) (s : str) : t :=
  let lo := clamp e (sublime.begin r) in
  let hi := clamp e (sublime.end_ r) in
  {| chars := firstn lo (chars e) ++ s ++ skipn hi (chars e);
     selection := selection e; tab_size := tab_size e;
     messages := messages e;
     edits := edits e ++ [Replaced r s] |}.

Definition say (e : t) (msg : str) : t :=
  {| chars := chars e; selection := selection e; tab_size := tab_size e;
     messages := messages e ++ [msg]; edits := edits e |}.

(** A buffer just opened: nothing said, nothing edited. *)
Definition open (s : string) (sel : list Region) (tabsize : Z) : t :=
  {| chars := py s; selection := sel; tab_size := tabsize;
     messages := []; edits := [] |}.

#[global] Instance view : View t := {
  view_sel := selection;
  view_size := fun e => len (chars e);
  view_line := line;
  view_substr := substr;
  view_rowcol := rowcol;
  view_tab_size := tab_size;
  view_insert := insert;
  view_replace := replace;
  status_message := say
}.

End Editor.

(** ** Notions used by the statements *)

(** The delimiter [sub] stands in [s] at offset [p]. *)
Definition occurs_at (s sub : str) (p : Z) : bool :=
  (0 <=? p) && (p <=? len s) && startswith sub (skipn (Z.to_nat p) s).

(** The two ways [find_next] leaves a line behind: nothing found, or the
    cursors moved to the delimiter at [p]. *)
Definition exhausted (l : LineObj) : LineObj :=
  set_search_start l (len (text l)).

Definition moved_to (l : LineObj) (alignstr : str) (p : Z) : LineObj :=
  mkLineObj (begin l) (end_ l) (text l) (p + len alignstr) p.

(** The cursor bounds of a line tracker. *)
Definition cursors_ok (l : LineObj) : Prop :=
  0 <= search_start l <= len (text l) /\ -1 <= last_find l < len (text l).

(** The bounds that hold of every tracker, whatever its text. *)
Definition cursors_within (l : LineObj) : Prop :=
  0 <= search_start l <= len (text l) /\ 0 <= last_find l <= len (text l).

(** A fresh tracker over the text a line has now: what the next command
    builds when it reads the line back from the buffer. *)
Definition reread (l : LineObj) : LineObj :=
  LineObj_init (begin l) (end_ l) (text l).

(** The texts of the lines an alignment ended with. *)
Definition texts_of (r : res passes) : option (list string) :=
  match r with
  | Returns (Aligned lines) =>
      Some (map (fun l => string_of_list_ascii (text l)) lines)
  | _ => None
  end.

(** The delimiter offsets that successive searches meet in [t] from offset
    [from] on, each search starting behind the delimiter found before. *)
Fixpoint occurrences_from (fuel : nat) (t sub : str) (from : Z) : list Z :=
  match fuel with
  | O => []
  | S fuel' =>
      let p := find t sub from in
      if (p =? -1) || (len t <=? p) then []
      else p :: occurrences_from fuel' t sub (p + len sub)
  end.

Definition occurrences (t sub : str) : list Z :=
  occurrences_from (S (List.length t)) t sub 0.

(** The number of columns a line offers. *)
Definition columns (t sub : str) : nat := List.length (occurrences t sub).

(** [val] put into [t] in front of offset [p]. *)
Definition splice (t : str) (p : Z) (val : str) : str :=
  firstn (Z.to_nat p) t ++ val ++ skipn (Z.to_nat p) t.

(** Successive searches in [t] that start at [from] meet the delimiter at the
    offsets [ps], one search behind the other, and arrive at [to]. *)
Inductive meets (t sub : str) : Z -> list Z -> Z -> Prop :=
| meets_nil (from : Z) : meets t sub from [] from
| meets_cons (from p : Z) (ps : list Z) (to : Z) :
    find t sub from = p -> p <> -1 ->
    meets t sub (p + len sub) ps to ->
    meets t sub from (p :: ps) to.

(** Successive searches in [t] that start at [from] meet the delimiter at the
    offsets [ps] and then find no more. *)
Inductive scans (t sub : str) : Z -> list Z -> Prop :=
| scans_nil (from : Z) : find t sub from = -1 -> scans t sub from []
| scans_cons (from p : Z) (ps : list Z) :
    find t sub from = p -> p <> -1 ->
    scans t sub (p + len sub) ps ->
    scans t sub from (p :: ps).

(** [find_next] with [alignfirst] set: the line it leaves and the offset it
    returns. *)
Definition first_step (alignstr : str) (l : LineObj) : LineObj * Z :=
  let pos := find (text l) alignstr (search_start l) in
  if (pos =? -1) || (len (text l) <=? pos) then (exhausted l, -1)
  else (moved_to l alignstr pos, pos).

(** A line in the middle of a run: the searches so far met the delimiter at
    [done] and stand at [s], and [k] delimiters are still to come. *)
Definition underway (sub : str) (done : list Z) (s : Z) (k : nat)
    (l : LineObj) : Prop :=
  search_start l = s /\ meets (text l) sub 0 done s /\
  exists rest, scans (text l) sub s rest /\ List.length rest = k.

(** [find_next] on a line it returns from: the line it leaves and the offset
    it returns. *)
Definition next_step (alignstr : str) (alignfirst : bool) (l : LineObj)
    : LineObj * Z :=
  match find_next l alignstr alignfirst with
  | Returns x => x
  | _ => (exhausted l, -1)
  end.

(** The characters of a text that are not blanks. *)
Definition unpadded (t : str) : str :=
  filter (fun c => negb (Ascii.eqb c " "%char)) t.

(** [l'] is the row [l] with, at most, blanks put in. *)
Definition same_row (l l' : LineObj) : Prop :=
  begin l' = begin l /\ end_ l' = end_ l /\
  unpadded (text l') = unpadded (text l) /\ len (text l) <= len (text l').

(** The order the cursors of a tracker stand in. *)
Definition cursors_ordered (l : LineObj) : Prop :=
  0 <= last_find l <= search_start l /\ search_start l <= len (text l).

(** The characters the searches of a batch have still to go over. *)
Definition remaining (lines : list LineObj) : Z :=
  fold_right Z.add 0 (map (fun l => len (text l) - search_start l) lines).

(** The editors the editor [view] can become by showing messages and by
    inserting blanks, and by nothing else. *)
Inductive pads {V : Type} `{View V} (view : V) : V -> Prop :=
| pads_here : pads view view
| pads_say (v : V) (msg : str) :
    pads view v -> pads view (status_message v msg)
| pads_blank (v : V) (loc n : Z) :
    pads view v -> pads view (view_insert v loc (spaces n)).

(** The editors the editor [view] can become by inserting blanks alone. *)
Inductive padded {V : Type} `{View V} (view : V) : V -> Prop :=
| padded_here : padded view view
| padded_blank (v : V) (loc n : Z) :
    padded view v -> padded view (view_insert v loc (spaces n)).

(** The offset of the line a cursor dictionary is on. *)
Definition rc_line_begin (c : RichCursor) : Z := sublime.begin (rc_line c).

(** ** Columns under either policy *)

(** The offset [find_next] returns on a line with the text [t] whose search
    stands at [s]: the column the next pass lines up, or -1. *)
Definition column_at (alignfirst : bool) (t sub : str) (s : Z) : Z :=
  snd (next_step sub alignfirst (mkLineObj 0 0 t s 0)).

(** The columns that successive [find_next] meet in [t] from offset [from]
    on, each search starting behind the delimiter returned before. *)
Fixpoint columns_from (fuel : nat) (alignfirst : bool) (t sub : str)
    (from : Z) : list Z :=
  match fuel with
  | O => []
  | S fuel' =>
      let p := column_at alignfirst t sub from in
      if p =? -1 then []
      else p :: columns_from fuel' alignfirst t sub (p + len sub)
  end.

Definition columns_by (alignfirst : bool) (t sub : str) : list Z :=
  columns_from (S (List.length t)) alignfirst t sub 0.

(** The number of columns a line offers under a policy. *)
Definition column_count (alignfirst : bool) (t sub : str) : nat :=
  List.length (columns_by alignfirst t sub).

(** No delimiter of [t] has another one standing right behind it. *)
Definition adjacent_free (t sub : str) : bool :=
  forallb (fun p => negb (occurs_at t sub (Z.of_nat p)
                          && occurs_at t sub (Z.of_nat p + len sub)))
          (seq 0 (S (List.length t))).

(** Successive [find_next] in [t] that start at [from] return the offsets
    [ps], one search behind the other, and arrive at [to]. *)
Inductive meets_by (alignfirst : bool) (t sub : str)
    : Z -> list Z -> Z -> Prop :=
| meets_by_nil (from : Z) : meets_by alignfirst t sub from [] from
| meets_by_cons (from p : Z) (ps : list Z) (to : Z) :
    column_at alignfirst t sub from = p -> p <> -1 ->
    meets_by alignfirst t sub (p + len sub) ps to ->
    meets_by alignfirst t sub from (p :: ps) to.

(** Successive [find_next] in [t] that start at [from] return the offsets
    [ps] and then -1. *)
Inductive scans_by (alignfirst : bool) (t sub : str) : Z -> list Z -> Prop :=
| scans_by_nil (from : Z) :
    column_at alignfirst t sub from = -1 -> scans_by alignfirst t sub from []
| scans_by_cons (from p : Z) (ps : list Z) :
    column_at alignfirst t sub from = p -> p <> -1 ->
    scans_by alignfirst t sub (p + len sub) ps ->
    scans_by alignfirst t sub from (p :: ps).

(** A line in the middle of a run under a policy: [find_next] returned
    [done] so far, the search stands at [s], and [k] columns are to come. *)
Definition underway_by (alignfirst : bool) (sub : str) (done : list Z) (s : Z)
    (k : nat) (l : LineObj) : Prop :=
  search_start l = s /\ meets_by alignfirst (text l) sub 0 done s /\
  exists rest, scans_by alignfirst (text l) sub s rest /\ List.length rest = k.

(** ** Sample buffers *)

(** The table of the comments of [TabAlignLastCommand] and of [find_next]. *)
Definition table_rows : list string :=
  ["this|is||a|table"; "it||has|some|values"]%string.

Definition table : string :=
  ("this|is||a|table" ++ String "010"%char "it||has|some|values")%string.

(** Trackers over the rows of a buffer that holds just [rows], as [get_line]
    makes them: each row begins one character behind the end of the row
    before it. *)
Fixpoint lines_at (start : Z) (rows : list string) : list LineObj :=
  match rows with
  | [] => []
  | r :: rest =>
      let stop := start + len (py r) in
      LineObj_init start stop (py r) :: lines_at (stop + 1) rest
  end.

Definition lines_of (rows : list string) : list LineObj := lines_at 0 rows.

(** ** Substring search *)

Lemma len_nonneg (s : str) : 0 <= len s.
Proof. unfold len. lia. Qed.

Lemma len_app (s u : str) : len (s ++ u) = len s + len u.
Proof. unfold len. rewrite length_app. lia. Qed.

Lemma len_nil_iff (s : str) : len s = 0 <-> s = [].
Proof.
  unfold len. destruct s; simpl length; split; intros E;
    solve [reflexivity | discriminate | lia].
Qed.

Lemma len_pos (s : str) : s <> [] -> 0 < len s.
Proof.
  intros N. pose proof (len_nonneg s). pose proof (len_nil_iff s).
  destruct (Z.eq_dec (len s) 0); [tauto | lia].
Qed.

Lemma startswith_iff (sub s : str) :
  startswith sub s = true <->
  firstn (List.length sub) s = sub /\
  (List.length sub <= List.length s)%nat.
Proof.
  revert s. induction sub as [|c sub IH]; intros s; simpl.
  - split; [intros _; split; [reflexivity | lia] | reflexivity].
  - destruct s as [|d s]; simpl.
    + split; [discriminate | intros [E _]; discriminate].
    + rewrite andb_true_iff, Ascii.eqb_eq, IH. split.
      * intros [-> [E L]]. rewrite E. split; [reflexivity | lia].
      * intros [E L]. injection E as -> E. repeat split; try assumption. lia.
Qed.

Lemma startswith_length (sub s : str) :
  startswith sub s = true -> (List.length sub <= List.length s)%nat.
Proof. intros E. apply startswith_iff in E. tauto. Qed.

Lemma startswith_app (sub s u : str) :
  (List.length sub <= List.length s)%nat ->
  startswith sub (s ++ u) = startswith sub s.
Proof.
  revert s. induction sub as [|c sub IH]; intros s L; simpl; [reflexivity|].
  destruct s as [|d s]; simpl in *; [lia|].
  rewrite IH by lia. reflexivity.
Qed.

Lemma scan_Some (sub s : str) (k : nat) :
  scan sub s = Some k ->
  startswith sub (skipn k s) = true /\ (k <= List.length s)%nat /\
  forall j, (j < k)%nat -> startswith sub (skipn j s) = false.
Proof.
  revert k. induction s as [|d s IH]; intros k.
  - simpl. destruct (startswith sub []) eqn:E; [|discriminate].
    intros [= <-]. simpl. repeat split; [assumption | lia | intros j Hj; lia].
  - cbn [scan]. destruct (startswith sub (d :: s)) eqn:E.
    + intros [= <-]. simpl. repeat split; [assumption | lia | intros j Hj; lia].
    + destruct (scan sub s) as [k'|] eqn:Es; [|discriminate].
      simpl. intros [= <-]. destruct (IH k' eq_refl) as (A & B & C).
      repeat split; [assumption | simpl; lia |].
      intros [|j] Hj; simpl; [assumption | apply C; lia].
Qed.

Lemma scan_None (sub s : str) :
  scan sub s = None -> forall j, startswith sub (skipn j s) = false.
Proof.
  induction s as [|d s IH].
  - simpl. destruct (startswith sub []) eqn:E; [discriminate|].
    intros _ j. rewrite skipn_nil. assumption.
  - cbn [scan]. destruct (startswith sub (d :: s)) eqn:E; [discriminate|].
    destruct (scan sub s) eqn:Es; [discriminate|]. intros _ [|j]; simpl; auto.
Qed.

Lemma scan_first (sub s : str) (k : nat) :
  startswith sub (skipn k s) = true ->
  (forall j, (j < k)%nat -> startswith sub (skipn j s) = false) ->
  (k <= List.length s)%nat ->
  scan sub s = Some k.
Proof.
  intros A C L. destruct (scan sub s) as [k'|] eqn:E.
  - destruct (scan_Some _ _ _ E) as (A' & _ & C').
    destruct (Nat.lt_trichotomy k k') as [Hlt | [-> | Hgt]]; [|reflexivity|].
    + rewrite (C' _ Hlt) in A. discriminate.
    + rewrite (C _ Hgt) in A'. discriminate.
  - rewrite (scan_None _ _ E k) in A. discriminate.
Qed.

(** [find] from a start inside the text. *)
Lemma find_unfold (t sub : str) (st : Z) :
  0 <= st <= len t ->
  find t sub st =
  match scan sub (skipn (Z.to_nat st) t) with
  | Some k => st + Z.of_nat k
  | None => -1
  end.
Proof.
  intros [L U]. unfold find.
  destruct (st <? 0) eqn:E; [apply Z.ltb_lt in E; lia|].
  destruct (len t <? st) eqn:E'; [apply Z.ltb_lt in E'; lia|]. reflexivity.
Qed.

Lemma find_beyond (t sub : str) (st : Z) : len t < st -> find t sub st = -1.
Proof.
  intros L. unfold find. pose proof (len_nonneg t).
  destruct (st <? 0) eqn:E; [apply Z.ltb_lt in E; lia|].
  destruct (len t <? st) eqn:E'; [reflexivity | apply Z.ltb_ge in E'; lia].
Qed.

Lemma occurs_at_iff (t sub : str) (p : Z) :
  occurs_at t sub p = true <->
  0 <= p <= len t /\ startswith sub (skipn (Z.to_nat p) t) = true.
Proof.
  unfold occurs_at. rewrite !andb_true_iff, !Z.leb_le. tauto.
Qed.

Lemma occurs_at_bound (t sub : str) (p : Z) :
  occurs_at t sub p = true -> 0 <= p /\ p + len sub <= len t.
Proof.
  rewrite occurs_at_iff. intros [[L U] E]. apply startswith_length in E.
  rewrite length_skipn in E. unfold len in *. lia.
Qed.

(** What [find] returns is the first occurrence at or behind the start. *)
Lemma find_found (t sub : str) (st p : Z) :
  0 <= st -> find t sub st = p -> p <> -1 ->
  st <= p /\ occurs_at t sub p = true /\
  forall q, st <= q < p -> occurs_at t sub q = false.
Proof.
  intros L E N. destruct (Z_lt_dec (len t) st) as [B|B].
  { rewrite find_beyond in E by assumption. lia. }
  rewrite find_unfold in E by lia.
  destruct (scan sub (skipn (Z.to_nat st) t)) as [k|] eqn:Es; [|lia].
  destruct (scan_Some _ _ _ Es) as (A & Lk & C). rewrite length_skipn in Lk.
  subst p. split; [lia|]. split.
  - apply occurs_at_iff. unfold len in *. split; [lia|].
    rewrite skipn_skipn in A.
    replace (Z.to_nat (st + Z.of_nat k)) with (k + Z.to_nat st)%nat by lia.
    assumption.
  - intros q Hq. destruct (occurs_at t sub q) eqn:O; [|reflexivity].
    apply occurs_at_iff in O. destruct O as [_ O].
    specialize (C (Z.to_nat (q - st)) ltac:(lia)). rewrite skipn_skipn in C.
    replace (Z.to_nat (q - st) + Z.to_nat st)%nat with (Z.to_nat q) in C by lia.
    congruence.
Qed.

Lemma find_none (t sub : str) (st : Z) :
  0 <= st -> find t sub st = -1 ->
  forall q, st <= q -> occurs_at t sub q = false.
Proof.
  intros L E q Hq. destruct (occurs_at t sub q) eqn:O; [|reflexivity].
  apply occurs_at_iff in O. destruct O as [[Lq Uq] O].
  rewrite find_unfold in E by lia.
  destruct (scan sub (skipn (Z.to_nat st) t)) as [k|] eqn:Es; [lia|].
  pose proof (scan_None _ _ Es (Z.to_nat (q - st))) as C.
  rewrite skipn_skipn in C.
  replace (Z.to_nat (q - st) + Z.to_nat st)%nat with (Z.to_nat q) in C by lia.
  congruence.
Qed.

Lemma find_first (t sub : str) (st p : Z) :
  0 <= st <= p -> occurs_at t sub p = true ->
  (forall q, st <= q < p -> occurs_at t sub q = false) ->
  find t sub st = p.
Proof.
  intros [L U] O C. pose proof O as O'. apply occurs_at_iff in O'.
  destruct O' as [[Lp Up] A].
  rewrite find_unfold by lia.
  rewrite (scan_first sub (skipn (Z.to_nat st) t) (Z.to_nat (p - st))).
  - lia.
  - rewrite skipn_skipn.
    replace (Z.to_nat (p - st) + Z.to_nat st)%nat with (Z.to_nat p) by lia.
    assumption.
  - intros j Hj. specialize (C (st + Z.of_nat j) ltac:(lia)).
    rewrite skipn_skipn.
    destruct (startswith sub (skipn (j + Z.to_nat st) t)) eqn:Ej;
      [|reflexivity].
    assert (occurs_at t sub (st + Z.of_nat j) = true); [|congruence].
    apply occurs_at_iff. split; [lia|].
    replace (Z.to_nat (st + Z.of_nat j)) with (j + Z.to_nat st)%nat by lia.
    assumption.
  - rewrite length_skipn. unfold len in *. lia.
Qed.

Lemma find_here_iff (t sub : str) (p : Z) :
  0 <= p -> (find t sub p = p <-> occurs_at t sub p = true).
Proof.
  intros L. split.
  - intros E. destruct (find_found t sub p p L E ltac:(lia)) as (_ & O & _).
    assumption.
  - intros O. apply find_first; [lia | assumption | intros q Hq; lia].
Qed.

Lemma find_range (t sub : str) (st : Z) :
  0 <= st ->
  find t sub st = -1 \/
  (st <= find t sub st /\ find t sub st + len sub <= len t).
Proof.
  intros L. destruct (Z.eq_dec (find t sub st) (-1)) as [E|N];
    [left; assumption|right].
  destruct (find_found t sub st _ L eq_refl N) as (A & O & _).
  apply occurs_at_bound in O. lia.
Qed.

Lemma find_negative_start (t sub : str) (st : Z) :
  st < 0 -> find t sub st = find t sub (Z.max (st + len t) 0).
Proof.
  intros L. unfold find at 1 2. pose proof (len_nonneg t).
  destruct (st <? 0) eqn:E; [|apply Z.ltb_ge in E; lia].
  destruct (Z.max (st + len t) 0 <? 0) eqn:E'; [apply Z.ltb_lt in E'; lia|].
  reflexivity.
Qed.

Lemma find_occurs (t sub : str) (st p : Z) :
  find t sub st = p -> p <> -1 -> occurs_at t sub p = true.
Proof.
  intros E N. destruct (Z_lt_dec st 0) as [L|L].
  - rewrite find_negative_start in E by assumption.
    destruct (find_found t sub _ p (Z.le_max_r _ _) E N) as (_ & O & _).
    assumption.
  - apply Z.nlt_ge in L.
    destruct (find_found t sub _ p L E N) as (_ & O & _). assumption.
Qed.

(** ** The inner loop of [find_next] *)

Lemma last_in_row_spec (fuel : nat) (t a : str) (pos : Z) :
  a <> [] -> occurs_at t a pos = true -> len t - pos < Z.of_nat fuel ->
  exists k : nat,
    last_in_row fuel t a pos = Some (pos + Z.of_nat k * len a) /\
    (forall j : nat, (j <= k)%nat ->
       occurs_at t a (pos + Z.of_nat j * len a) = true) /\
    occurs_at t a (pos + Z.of_nat (S k) * len a) = false.
Proof.
  intros Na. pose proof (len_pos a Na) as La. revert pos.
  induction fuel as [|fuel IH]; intros pos O F.
  - apply occurs_at_bound in O. lia.
  - pose proof (occurs_at_bound _ _ _ O) as [P0 P1]. cbn [last_in_row].
    destruct (occurs_at t a (pos + len a)) eqn:O'.
    + assert (C : (pos <? len t) && (find t a (pos + len a) =? pos + len a) = true).
      { apply andb_true_iff. split; [apply Z.ltb_lt; lia|].
        apply Z.eqb_eq. apply find_here_iff; [lia | assumption]. }
      rewrite C. destruct (IH (pos + len a) O' ltac:(lia)) as (k & E & A & B).
      exists (S k). split; [rewrite E; f_equal; lia|]. split.
      * intros [|j] Hj.
        -- replace (pos + Z.of_nat 0 * len a) with pos by lia. assumption.
        -- replace (pos + Z.of_nat (S j) * len a)
             with (pos + len a + Z.of_nat j * len a) by lia.
           apply A. lia.
      * replace (pos + Z.of_nat (S (S k)) * len a)
          with (pos + len a + Z.of_nat (S k) * len a) by lia.
        assumption.
    + assert (C : (pos <? len t) && (find t a (pos + len a) =? pos + len a) = false).
      { apply andb_false_iff. right. apply Z.eqb_neq. intros E.
        apply find_here_iff in E; [congruence | lia]. }
      rewrite C. exists 0%nat. split; [f_equal; lia|]. split.
      * intros j Hj. replace j with 0%nat by lia.
        replace (pos + Z.of_nat 0 * len a) with pos by lia. assumption.
      * replace (pos + Z.of_nat 1 * len a) with (pos + len a) by lia. assumption.
Qed.

(** Fuel left over changes nothing. *)
Lemma last_in_row_more (fuel fuel' : nat) (t a : str) (pos p : Z) :
  last_in_row fuel t a pos = Some p -> (fuel <= fuel')%nat ->
  last_in_row fuel' t a pos = Some p.
Proof.
  revert fuel' pos. induction fuel as [|fuel IH]; intros fuel' pos E L;
    [discriminate|].
  destruct fuel' as [|fuel']; [lia|]. cbn [last_in_row] in *.
  destruct ((pos <? len t) && (find t a (pos + len a) =? pos + len a));
    [apply IH; [assumption | lia] | assumption].
Qed.

(** With the empty delimiter the loop stands still. *)
Lemma last_in_row_empty (fuel : nat) (t : str) (pos : Z) :
  0 <= pos < len t -> last_in_row fuel t [] pos = None.
Proof.
  intros B. induction fuel as [|fuel IH]; [reflexivity|]. cbn [last_in_row].
  change (len []) with 0. rewrite Z.add_0_r.
  assert (E : find t [] pos = pos).
  { apply find_here_iff; [lia|]. apply occurs_at_iff. split; [lia | reflexivity]. }
  rewrite E, Z.eqb_refl. destruct (pos <? len t) eqn:L; [assumption|].
  apply Z.ltb_ge in L. lia.
Qed.

Lemma find_next_fuel_first (fuel : nat) (l : LineObj) (a : str) :
  find_next_fuel fuel l a true =
  let pos := find (text l) a (search_start l) in
  if (pos =? -1) || (len (text l) <=? pos) then Returns (exhausted l, -1)
  else Returns (moved_to l a pos, pos).
Proof. reflexivity. Qed.

Lemma find_next_fuel_last (fuel : nat) (l : LineObj) (a : str) :
  find_next_fuel fuel l a false =
  let pos := find (text l) a (search_start l) in
  if (pos =? -1) || (len (text l) <=? pos) then Returns (exhausted l, -1)
  else match last_in_row fuel (text l) a pos with
       | None => Diverges
       | Some p => Returns (moved_to l a p, p)
       end.
Proof.
  unfold find_next_fuel. cbv zeta.
  destruct ((find (text l) a (search_start l) =? -1)
            || (len (text l) <=? find (text l) a (search_start l))); [reflexivity|].
  cbn [set_last_find set_search_start text].
  destruct (last_in_row fuel (text l) a (find (text l) a (search_start l)));
    reflexivity.
Qed.

(** A search that found something found it inside the text. *)
Lemma found_in_text (t a : str) (st : Z) :
  a <> [] -> find t a st <> -1 ->
  (find t a st =? -1) || (len t <=? find t a st) = false.
Proof.
  intros Na N. pose proof (len_pos a Na).
  pose proof (occurs_at_bound _ _ _ (find_occurs t a st _ eq_refl N)).
  apply orb_false_iff. split; [apply Z.eqb_neq; assumption | apply Z.leb_gt; lia].
Qed.

(** With a non-empty delimiter [find_next] returns, whatever the fuel above
    the length of the text. *)
Lemma find_next_fuel_enough (fuel : nat) (l : LineObj) (a : str) (af : bool) :
  a <> [] -> (List.length (text l) < fuel)%nat ->
  find_next_fuel fuel l a af = find_next l a af /\
  exists l' r, find_next l a af = Returns (l', r).
Proof.
  intros Na F. unfold find_next. destruct af.
  - rewrite !find_next_fuel_first. cbv zeta. split; [reflexivity|].
    destruct ((find (text l) a (search_start l) =? -1)
            || (len (text l) <=? find (text l) a (search_start l))); eauto.
  - rewrite !find_next_fuel_last. cbv zeta.
    destruct ((find (text l) a (search_start l) =? -1)
            || (len (text l) <=? find (text l) a (search_start l))) eqn:C;
      [split; eauto|].
    apply orb_false_iff in C. destruct C as [C _]. apply Z.eqb_neq in C.
    pose proof (find_occurs _ _ _ _ eq_refl C) as O.
    pose proof (occurs_at_bound _ _ _ O) as [P0 _].
    destruct (last_in_row_spec (S (List.length (text l))) (text l) a _ Na O)
      as (k & E & _); [unfold len; lia|].
    rewrite (last_in_row_more _ fuel _ _ _ _ E) by lia.
    rewrite E. split; eauto.
Qed.

(** ** [LineObj.insert] *)

Lemma slice_index_inside (t : str) (p : Z) :
  0 <= p <= len t -> slice_index p t = Z.to_nat p.
Proof.
  intros [L U]. unfold slice_index.
  destruct (p <? 0) eqn:E; [apply Z.ltb_lt in E; lia|].
  f_equal. lia.
Qed.

(** The three branches of [insert] build the same text. *)
Lemma insert_text (l : LineObj) (pos : Z) (val : str) :
  let p := Z.min (Z.max pos 0) (len (text l)) in
  text (insert l pos val) =
  firstn (Z.to_nat p) (text l) ++ val ++ skipn (Z.to_nat p) (text l).
Proof.
  intros p. pose proof (len_nonneg (text l)) as Hl.
  assert (B : 0 <= p <= len (text l)) by (unfold p; lia).
  unfold insert. fold p.
  set (l1 := if p <=? search_start l then _ else l).
  set (l2 := if p <=? last_find l1 then _ else l1).
  assert (T : text l2 = text l).
  { unfold l2, l1. destruct (p <=? search_start l);
      destruct (p <=? last_find _); reflexivity. }
  rewrite T. destruct (p =? 0) eqn:E0.
  - apply Z.eqb_eq in E0. rewrite E0. reflexivity.
  - destruct (p =? len (text l)) eqn:E1.
    + apply Z.eqb_eq in E1. cbn [set_text text]. rewrite E1. unfold len.
      rewrite Nat2Z.id, firstn_all, skipn_all, app_nil_r. reflexivity.
    + cbn [set_text text]. unfold slice_to, slice_from.
      rewrite ?T, slice_index_inside by assumption. reflexivity.
Qed.

Lemma insert_cursors (l : LineObj) (pos : Z) (val : str) :
  let p := Z.min (Z.max pos 0) (len (text l)) in
  search_start (insert l pos val) =
    (if p <=? search_start l then search_start l + len val
     else search_start l) /\
  last_find (insert l pos val) =
    (if p <=? last_find l then last_find l + len val else last_find l) /\
  begin (insert l pos val) = begin l /\ end_ (insert l pos val) = end_ l.
Proof.
  intros p. unfold insert. fold p.
  destruct (p <=? search_start l);
    cbn [set_search_start last_find]; destruct (p <=? last_find l);
    cbn [set_search_start set_last_find text];
    destruct (p =? 0); try destruct (p =? len (text l)); repeat split.
Qed.

(** C4.  [insert] clamps the position into [0, len(text)], splices the value
    into the text at the clamped position, moves [search_start] right by
    [len(value)] exactly when the clamped position is at or before it, moves
    [last_find] right by [len(value)] exactly when the clamped position is at
    or before it, and leaves the cursors (and the line's offsets) alone
    otherwise. *)
Theorem insert_spec (l : LineObj) (pos : Z) (val : str) :
  let p := Z.min (Z.max pos 0) (len (text l)) in
  0 <= p <= len (text l) /\
  text (insert l pos val) =
    firstn (Z.to_nat p) (text l) ++ val ++ skipn (Z.to_nat p) (text l) /\
  search_start (insert l pos val) =
    (if p <=? search_start l then search_start l + len val
     else search_start l) /\
  last_find (insert l pos val) =
    (if p <=? last_find l then last_find l + len val else last_find l) /\
  begin (insert l pos val) = begin l /\ end_ (insert l pos val) = end_ l.
Proof.
  intros p. pose proof (len_nonneg (text l)).
  split; [unfold p; lia|].
  split; [apply insert_text | apply insert_cursors].
Qed.

(** The statement at work: two spaces put into ["a|b"] in front of the bar,
    with both cursors behind the splice. *)
Lemma insert_spec_witness :
  let l := mkLineObj 0 3 (py "a|b") 2 1 in
  text (insert l 1 (py "  ")) = py "a  |b" /\
  search_start (insert l 1 (py "  ")) = 4 /\
  last_find (insert l 1 (py "  ")) = 3.
Proof.
  intros l. destruct (insert_spec l 1 (py "  ")) as (_ & T & S & F & _).
  rewrite T, S, F. repeat split.
Defined.

(** ** [LineObj.find_next] *)




(** C3, as the code has it.  With [alignfirst] unset and a non-empty
    delimiter, a [find_next] whose search finds the delimiter (first at [p0])
    returns the position [p] of the last delimiter of the row of adjacent
    delimiters that starts at [p0]: every step of the row from [p0] to [p]
    holds the delimiter and the step behind [p] does not; [last_find] becomes
    [p], [search_start] becomes [p + len(delimiter)], the text is left alone. *)
Theorem find_next_last_of_row (l : LineObj) (a : str) :
  let p0 := find (text l) a (search_start l) in
  a <> [] -> p0 <> -1 ->
  exists k : nat,
    let p := p0 + Z.of_nat k * len a in
    find_next l a false = Returns (moved_to l a p, p) /\
    (forall j : nat, (j <= k)%nat ->
       occurs_at (text l) a (p0 + Z.of_nat j * len a) = true) /\
    occurs_at (text l) a (p + len a) = false /\
    last_find (moved_to l a p) = p /\
    search_start (moved_to l a p) = p + len a /\
    text (moved_to l a p) = text l.
Proof.
  intros p0 Na N. pose proof (find_occurs _ _ _ _ eq_refl N) as O. fold p0 in O.
  pose proof (occurs_at_bound _ _ _ O) as [P0 _].
  destruct (last_in_row_spec (S (List.length (text l))) (text l) a p0 Na O)
    as (k & E & A & B); [unfold len; lia|].
  exists k. cbv zeta. split.
  - unfold find_next. rewrite find_next_fuel_last. cbv zeta. fold p0.
    unfold p0 at 1 2. rewrite (found_in_text _ _ _ Na N). fold p0.
    rewrite E. reflexivity.
  - split; [exact A|]. split; [|repeat split].
    replace (p0 + Z.of_nat k * len a + len a)
      with (p0 + Z.of_nat (S k) * len a) by lia.
    exact B.
Qed.

Lemma find_next_last_of_row_witness :
  find_next (LineObj_init 0 7 (py "it||has")) (py "|") false
  = Returns (mkLineObj 0 7 (py "it||has") 4 3, 3).
Proof.
  destruct (find_next_last_of_row (LineObj_init 0 7 (py "it||has")) (py "|"))
    as (k & E & A & B & _); [discriminate | vm_compute; lia |].
  destruct k as [|[|k]].
  - vm_compute in B. discriminate B.
  - rewrite E. reflexivity.
  - specialize (A 2%nat ltac:(lia)). vm_compute in A. discriminate A.
Defined.

(** With the empty delimiter and [alignfirst] unset, a search that finds
    something never comes back: the loop has no fuel it would end on. *)
Lemma find_next_empty_diverges (fuel : nat) (l : LineObj) :
  0 <= search_start l < len (text l) ->
  find_next_fuel fuel l [] false = Diverges.
Proof.
  intros B. rewrite find_next_fuel_last. cbv zeta.
  assert (E : find (text l) [] (search_start l) = search_start l).
  { apply find_here_iff; [lia|]. apply occurs_at_iff. split; [lia | reflexivity]. }
  rewrite E.
  replace ((search_start l =? -1) || (len (text l) <=? search_start l))
    with false.
  - rewrite last_in_row_empty by assumption. reflexivity.
  - symmetry. apply orb_false_iff. split; [apply Z.eqb_neq | apply Z.leb_gt]; lia.
Qed.

(** [Diverges] is exact: the model's [find_next] diverges just when no amount
    of fuel lets the loop end. *)
Lemma find_next_diverges_exact (l : LineObj) (a : str) (af : bool) :
  find_next l a af = Diverges <->
  forall fuel, find_next_fuel fuel l a af = Diverges.
Proof.
  split; [|intros A; apply A]. intros D fuel.
  destruct a as [|c a].
  - destruct af.
    + unfold find_next in D. rewrite find_next_fuel_first in *. exact D.
    + unfold find_next in D. rewrite find_next_fuel_last in *. cbv zeta in *.
      destruct (_ || _) eqn:C; [discriminate|].
      apply orb_false_iff in C. destruct C as [C1 C2].
      apply Z.eqb_neq in C1. apply Z.leb_gt in C2.
      pose proof (occurs_at_bound _ _ _ (find_occurs _ _ _ _ eq_refl C1))
        as [P _].
      rewrite last_in_row_empty by lia. reflexivity.
  - destruct (find_next_fuel_enough (S (List.length (text l))) l (c :: a) af)
      as (_ & l' & r & E); [discriminate | lia |].
    rewrite E in D. discriminate.
Qed.

(** C3, as the spec has it, fails at the empty delimiter: the search finds
    it at the cursor, and [find_next] then never returns. *)
Lemma find_next_empty_delimiter_counterexample :
  let l := LineObj_init 0 1 (py "a") in
  find (text l) [] (search_start l) = 0 /\
  (forall fuel, find_next_fuel fuel l [] false = Diverges) /\
  ~ (exists l' p, find_next l [] false = Returns (l', p)).
Proof.
  intros l. split; [reflexivity|]. split.
  - intros fuel. apply find_next_empty_diverges. vm_compute.
    split; [discriminate | reflexivity].
  - intros (l' & p & E). vm_compute in E. discriminate E.
Qed.


(** ** The cursor bounds *)

(** Where the inner loop ends, the delimiter stands, inside the text. *)
Lemma last_in_row_inside (fuel : nat) (t a : str) (pos p : Z) :
  last_in_row fuel t a pos = Some p ->
  occurs_at t a pos = true -> pos < len t ->
  occurs_at t a p = true /\ p < len t.
Proof.
  revert pos. induction fuel as [|fuel IH]; intros pos E O L; [discriminate|].
  cbn [last_in_row] in E.
  destruct ((pos <? len t) && (find t a (pos + len a) =? pos + len a)) eqn:C.
  - apply andb_true_iff in C. destruct C as [_ C]. apply Z.eqb_eq in C.
    pose proof (occurs_at_bound _ _ _ O) as [P0 _]. pose proof (len_nonneg a).
    apply find_here_iff in C; [|lia].
    pose proof (occurs_at_bound _ _ _ C) as [_ P1].
    apply (IH _ E C). lia.
  - injection E as <-. split; assumption.
Qed.

Lemma find_next_cursors_ok (l : LineObj) (a : str) (af : bool) (l' : LineObj)
    (r : Z) :
  cursors_ok l -> find_next l a af = Returns (l', r) -> cursors_ok l'.
Proof.
  intros [[S0 S1] [F0 F1]] E. unfold find_next in E.
  pose proof (len_nonneg (text l)) as Hl. pose proof (len_nonneg a) as Ha.
  assert (X : cursors_ok (exhausted l)).
  { unfold cursors_ok, exhausted.
    cbn [set_search_start search_start text last_find]. lia. }
  assert (Y : forall p, occurs_at (text l) a p = true -> p < len (text l) ->
                        cursors_ok (moved_to l a p)).
  { intros p O L. pose proof (occurs_at_bound _ _ _ O).
    unfold cursors_ok, moved_to. cbn [search_start text last_find]. lia. }
  destruct af.
  - rewrite find_next_fuel_first in E. cbv zeta in E.
    destruct (_ || _) eqn:C; injection E as <- <-; [exact X|].
    apply orb_false_iff in C. destruct C as [C1 C2].
    apply Z.eqb_neq in C1. apply Z.leb_gt in C2.
    apply Y; [apply (find_occurs _ _ _ _ eq_refl C1) | assumption].
  - rewrite find_next_fuel_last in E. cbv zeta in E.
    destruct (_ || _) eqn:C; [injection E as <- <-; exact X|].
    apply orb_false_iff in C. destruct C as [C1 C2].
    apply Z.eqb_neq in C1. apply Z.leb_gt in C2.
    destruct (last_in_row _ _ _ _) as [p|] eqn:R; [|discriminate].
    injection E as <- <-.
    destruct (last_in_row_inside _ _ _ _ _ R
                (find_occurs _ _ _ _ eq_refl C1) C2) as [O L].
    apply Y; assumption.
Qed.

Lemma insert_cursors_ok (l : LineObj) (pos : Z) (val : str) :
  cursors_ok l -> cursors_ok (insert l pos val).
Proof.
  intros [[S0 S1] [F0 F1]].
  pose proof (insert_text l pos val) as T.
  destruct (insert_cursors l pos val) as (S & F & _). cbv zeta in T, S, F.
  pose proof (len_nonneg (text l)) as Hl.
  unfold cursors_ok. rewrite T, S, F, !len_app.
  pose proof (len_nonneg val).
  assert (len (firstn (Z.to_nat (Z.min (Z.max pos 0) (len (text l)))) (text l))
          + len (skipn (Z.to_nat (Z.min (Z.max pos 0) (len (text l)))) (text l))
          = len (text l)).
  { rewrite <- len_app, firstn_skipn. reflexivity. }
  destruct (_ <=? search_start l); destruct (_ <=? last_find l); lia.
Qed.

(** The bounds that hold of every tracker, also over an empty text: they
    hold at creation and are kept by [find_next] and by [insert]. *)
Lemma cursors_within_kept :
  (forall b e t, cursors_within (LineObj_init b e t)) /\
  (forall l a af l' r,
     cursors_within l -> find_next l a af = Returns (l', r) ->
     cursors_within l') /\
  (forall l pos val, cursors_within l -> cursors_within (insert l pos val)).
Proof.
  split; [|split].
  - intros b e t. pose proof (len_nonneg t). unfold cursors_within, LineObj_init.
    cbn [search_start last_find text]. lia.
  - intros l a af l' r [[S0 S1] [F0 F1]] E. unfold find_next in E.
    pose proof (len_nonneg (text l)) as Hl. pose proof (len_nonneg a) as Ha.
    assert (X : cursors_within (exhausted l)).
    { unfold cursors_within, exhausted.
      cbn [set_search_start search_start text last_find]. lia. }
    assert (Y : forall p, occurs_at (text l) a p = true ->
                          cursors_within (moved_to l a p)).
    { intros p O. pose proof (occurs_at_bound _ _ _ O).
      unfold cursors_within, moved_to. cbn [search_start text last_find]. lia. }
    destruct af.
    + rewrite find_next_fuel_first in E. cbv zeta in E.
      destruct (_ || _) eqn:C; injection E as <- <-; [exact X|].
      apply orb_false_iff in C. destruct C as [C1 _]. apply Z.eqb_neq in C1.
      apply Y. apply (find_occurs _ _ _ _ eq_refl C1).
    + rewrite find_next_fuel_last in E. cbv zeta in E.
      destruct (_ || _) eqn:C; [injection E as <- <-; exact X|].
      apply orb_false_iff in C. destruct C as [C1 C2].
      apply Z.eqb_neq in C1. apply Z.leb_gt in C2.
      destruct (last_in_row _ _ _ _) as [p|] eqn:R; [|discriminate].
      injection E as <- <-.
      destruct (last_in_row_inside _ _ _ _ _ R
                  (find_occurs _ _ _ _ eq_refl C1) C2) as [O _].
      apply Y. assumption.
  - intros l pos val [[S0 S1] [F0 F1]].
    pose proof (insert_text l pos val) as T.
    destruct (insert_cursors l pos val) as (S & F & _). cbv zeta in T, S, F.
    unfold cursors_within. rewrite T, S, F, !len_app.
    pose proof (len_nonneg val).
    assert (len (firstn (Z.to_nat (Z.min (Z.max pos 0) (len (text l)))) (text l))
            + len (skipn (Z.to_nat (Z.min (Z.max pos 0) (len (text l)))) (text l))
            = len (text l)).
    { rewrite <- len_app, firstn_skipn. reflexivity. }
    destruct (_ <=? search_start l); destruct (_ <=? last_find l); lia.
Qed.

(** C9, as the code has it.  [0 <= search_start <= len(text)] and
    [-1 <= last_find < len(text)] hold of a new tracker whose text is not
    empty, and are kept by every [find_next] that returns (each one with a
    non-empty delimiter does) and by every [insert], also on an empty text. *)
Theorem cursors_ok_kept :
  (forall b e t, t <> [] -> cursors_ok (LineObj_init b e t)) /\
  (forall l a af l' r,
     cursors_ok l -> find_next l a af = Returns (l', r) -> cursors_ok l') /\
  (forall l a af, a <> [] -> exists l' r, find_next l a af = Returns (l', r)) /\
  (forall l pos val, cursors_ok l -> cursors_ok (insert l pos val)).
Proof.
  split; [|split; [|split]].
  - intros b e t N. pose proof (len_pos t N). unfold cursors_ok, LineObj_init.
    cbn [search_start last_find text]. lia.
  - exact find_next_cursors_ok.
  - intros l a af N.
    apply (find_next_fuel_enough (S (List.length (text l))) l a af N). lia.
  - exact insert_cursors_ok.
Qed.

Lemma cursors_ok_kept_witness :
  cursors_ok (LineObj_init 0 3 (py "a|b")) /\
  cursors_ok (insert (LineObj_init 0 3 (py "a|b")) 1 (py " ")) /\
  cursors_ok (mkLineObj 0 3 (py "a|b") 2 1).
Proof.
  destruct cursors_ok_kept as (A & B & _ & D).
  assert (X : cursors_ok (LineObj_init 0 3 (py "a|b")))
    by (apply A; discriminate).
  split; [exact X|]. split; [apply D; exact X|].
  apply (B (LineObj_init 0 3 (py "a|b")) (py "|") true _ 1 X). reflexivity.
Defined.

(** C9, as the spec has it, fails at creation: a new tracker over the empty
    text has [last_find = 0 = len(text)]. *)
Lemma cursors_ok_empty_line_counterexample :
  ~ cursors_ok (LineObj_init 0 0 []).
Proof. unfold cursors_ok, len. simpl. lia. Qed.

(** ** The error paths of the commands *)

Section Errors.

Context {V : Type} `{View V}.

(** C6.  When the selection that starts the command ends on another line
    than it begins on, [align_by_selected_str] shows the error message and
    returns: the editor after the call is the editor before it with that one
    message shown, and no insert or replace was asked of it. *)
Theorem selection_over_lines_only_reports (view : V) (cursor : Region)
    (timer : Timer) (alignfirst : bool) :
  sublime.begin (view_line view (sublime.end_ cursor))
    <> sublime.begin (view_line view (sublime.begin cursor)) ->
  align_by_selected_str view cursor timer alignfirst =
  (status_message view (py "Error: selection can't span more than one line"),
   Returns RNone).
Proof.
  intros N. unfold align_by_selected_str.
  apply Z.eqb_neq in N. rewrite N. reflexivity.
Qed.

(** C7.  When one of the cursors is a range, [align_by_cursors] shows the
    error message and returns before its alignment loop: the editor after
    the call is the editor before it with that one message shown, and no
    insert was asked of it. *)
Theorem range_cursor_only_reports (view : V) (timer : Timer) :
  (exists cursor, In cursor (view_sel view) /\ 0 < sublime.size cursor) ->
  align_by_cursors view timer =
  (status_message view
     (py "Error: you must have either a selection, a single cursor, or multiple cursors"),
   Returns RNonePair).
Proof.
  intros (c & I & S). unfold align_by_cursors.
  assert (E : existsb (fun cursor => 0 <? sublime.size cursor) (view_sel view)
              = true).
  { apply existsb_exists. exists c.
    split; [assumption | apply Z.ltb_lt; assumption]. }
  rewrite E. reflexivity.
Qed.

End Errors.

(** ** Searching a text that had blanks put in *)

Lemma startswith_nth (sub s : str) (j : nat) :
  startswith sub s = true -> (j < List.length sub)%nat ->
  nth_error s j = nth_error sub j.
Proof.
  revert s j. induction sub as [|c sub IH]; intros s j E L; simpl in L; [lia|].
  destruct s as [|d s]; [discriminate|]. simpl in E.
  apply andb_true_iff in E. destruct E as [E1 E2]. apply Ascii.eqb_eq in E1.
  subst d. destruct j as [|j]; [reflexivity|]. simpl.
  apply IH; [assumption | lia].
Qed.

Lemma occurs_at_nth (t sub : str) (q : Z) (j : nat) :
  occurs_at t sub q = true -> (j < List.length sub)%nat ->
  nth_error t (Z.to_nat q + j) = nth_error sub j.
Proof.
  intros O L. apply occurs_at_iff in O. destruct O as [_ O].
  rewrite <- (startswith_nth _ _ _ O L), nth_error_skipn. reflexivity.
Qed.

Section Splice.

Variables (t a sp : str) (p : Z).
Hypothesis p_inside : 0 <= p <= len t.


Lemma len_splice : len (splice t p sp) = len t + len sp.
Proof.
  unfold splice. rewrite !len_app.
  pose proof (firstn_skipn (Z.to_nat p) t) as E.
  apply (f_equal len) in E. rewrite len_app in E. lia.
Qed.

Lemma skipn_splice_before (q : nat) :
  (q <= Z.to_nat p)%nat ->
  skipn q (splice t p sp)
  = skipn q (firstn (Z.to_nat p) t) ++ sp ++ skipn (Z.to_nat p) t.
Proof.
  intros L. unfold splice. rewrite skipn_app.
  replace (q - List.length (firstn (Z.to_nat p) t))%nat with 0%nat; [reflexivity|].
  rewrite length_firstn. unfold len in p_inside. lia.
Qed.

Lemma skipn_splice_behind (q : nat) :
  (Z.to_nat p <= q)%nat ->
  skipn (q + List.length sp) (splice t p sp) = skipn q t.
Proof.
  intros L. unfold splice.
  assert (F : List.length (firstn (Z.to_nat p) t) = Z.to_nat p).
  { rewrite length_firstn. unfold len in p_inside. lia. }
  rewrite skipn_app, F.
  rewrite (skipn_all2 (firstn (Z.to_nat p) t)) by lia. cbn [app].
  rewrite skipn_app.
  rewrite (skipn_all2 sp) by lia. cbn [app].
  rewrite skipn_skipn. f_equal. lia.
Qed.

(** In front of the blanks nothing changed. *)
Lemma occurs_at_splice_before (q : Z) :
  0 <= q -> q + len a <= p ->
  occurs_at (splice t p sp) a q = occurs_at t a q.
Proof.
  intros Q0 Q1. pose proof (len_nonneg a) as Ha. pose proof (len_nonneg sp).
  unfold occurs_at. rewrite len_splice.
  replace (q <=? len t + len sp) with true by (symmetry; apply Z.leb_le; lia).
  replace (q <=? len t) with true by (symmetry; apply Z.leb_le; lia).
  f_equal.
  assert (F : List.length (firstn (Z.to_nat p) t) = Z.to_nat p).
  { rewrite length_firstn. unfold len in p_inside. lia. }
  assert (G : forall u,
             startswith a (skipn (Z.to_nat q) (firstn (Z.to_nat p) t ++ u))
             = startswith a (skipn (Z.to_nat q) (firstn (Z.to_nat p) t))).
  { intros u. rewrite skipn_app.
    replace (Z.to_nat q - List.length (firstn (Z.to_nat p) t))%nat
      with 0%nat by lia.
    cbn [skipn]. apply startswith_app.
    rewrite length_skipn, F. unfold len in *. lia. }
  unfold splice. rewrite G.
  rewrite <- (G (skipn (Z.to_nat p) t)), firstn_skipn. reflexivity.
Qed.

(** Behind the blanks everything moved by their number. *)
Lemma occurs_at_splice_behind (q : Z) :
  p <= q ->
  occurs_at (splice t p sp) a (q + len sp) = occurs_at t a q.
Proof.
  intros Q. pose proof (len_nonneg sp).
  unfold occurs_at. rewrite len_splice.
  replace (0 <=? q + len sp) with true by (symmetry; apply Z.leb_le; lia).
  replace (0 <=? q) with true by (symmetry; apply Z.leb_le; lia).
  replace (q + len sp <=? len t + len sp) with (q <=? len t)
    by (destruct (q <=? len t) eqn:E; symmetry;
        [apply Z.leb_le; apply Z.leb_le in E
        |apply Z.leb_gt; apply Z.leb_gt in E];
        lia).
  f_equal.
  replace (Z.to_nat (q + len sp)) with (Z.to_nat q + List.length sp)%nat
    by (unfold len; lia).
  rewrite skipn_splice_behind by lia. reflexivity.
Qed.

Hypothesis a_no_blank : ~ In " "%char a.
Hypothesis sp_blank : forall c, In c sp -> c = " "%char.

(** No delimiter lies across a blank. *)
Lemma occurs_at_splice_across (q : Z) :
  a <> [] -> 0 < len sp -> q < p + len sp -> p < q + len a ->
  occurs_at (splice t p sp) a q = false.
Proof.
  intros Na D Q0 Q1. pose proof (len_pos a Na) as La.
  destruct (occurs_at (splice t p sp) a q) eqn:O; [|reflexivity].
  exfalso. pose proof (occurs_at_bound _ _ _ O) as [B0 B1].
  set (i := Z.max q p).
  assert (I : p <= i < p + len sp /\ q <= i < q + len a) by (unfold i; lia).
  pose proof (occurs_at_nth _ _ q (Z.to_nat (i - q)) O
                ltac:(unfold len in *; lia)) as N.
  replace (Z.to_nat q + Z.to_nat (i - q))%nat with (Z.to_nat i) in N by lia.
  assert (F : List.length (firstn (Z.to_nat p) t) = Z.to_nat p).
  { rewrite length_firstn. unfold len in p_inside. lia. }
  unfold splice in N.
  rewrite nth_error_app2 in N by lia. rewrite F in N.
  rewrite nth_error_app1 in N by (unfold len in *; lia).
  destruct (nth_error sp (Z.to_nat i - Z.to_nat p)) as [c|] eqn:C.
  - pose proof (sp_blank c (nth_error_In _ _ C)). subst c.
    symmetry in N. apply nth_error_In in N. contradiction.
  - apply nth_error_None in C. unfold len in *. lia.
Qed.

(** The search that found the delimiter at [p] finds it behind the blanks. *)
Lemma find_splice_here (s : Z) :
  a <> [] -> 0 <= s -> find t a s = p ->
  find (splice t p sp) a s = p + len sp.
Proof.
  intros Na S0 E. pose proof (len_pos a Na) as La. pose proof (len_nonneg sp).
  destruct (find_found t a s p S0 E ltac:(lia)) as (Sp & O & C).
  apply find_first.
  - lia.
  - rewrite occurs_at_splice_behind by lia. assumption.
  - intros q Hq. destruct (Z_le_dec (q + len a) p) as [B|B].
    + rewrite occurs_at_splice_before by lia. apply C. lia.
    + destruct (Z.eq_dec (len sp) 0) as [D|D].
      * assert (Hq' : s <= q < p) by lia.
        apply len_nil_iff in D. rewrite D. unfold splice. cbn [app].
        rewrite firstn_skipn. apply C. assumption.
      * apply occurs_at_splice_across; [assumption | lia ..].
Qed.

(** A search that found the delimiter in front of [p] finds it again. *)
Lemma find_splice_before (s q : Z) :
  0 <= s -> find t a s = q -> q <> -1 -> q + len a <= p ->
  find (splice t p sp) a s = q.
Proof.
  intros S0 E N B. pose proof (len_nonneg a).
  destruct (find_found t a s q S0 E N) as (Sq & O & C).
  apply find_first.
  - lia.
  - rewrite occurs_at_splice_before by lia. assumption.
  - intros r Hr. rewrite occurs_at_splice_before by lia. apply C. assumption.
Qed.

(** A search behind [p] finds what it found, moved by the blanks. *)
Lemma find_splice_behind (s : Z) :
  p <= s ->
  find (splice t p sp) a (s + len sp)
  = (if find t a s =? -1 then -1 else find t a s + len sp).
Proof.
  intros S0. pose proof (len_nonneg sp).
  destruct (find t a s =? -1) eqn:E.
  - apply Z.eqb_eq in E.
    destruct (Z.eq_dec (find (splice t p sp) a (s + len sp)) (-1)) as [E'|N];
      [assumption|].
    destruct (find_found _ a (s + len sp) _ ltac:(lia) eq_refl N) as (B & O & _).
    replace (find (splice t p sp) a (s + len sp))
      with (find (splice t p sp) a (s + len sp) - len sp + len sp) in O by lia.
    rewrite occurs_at_splice_behind in O by lia.
    rewrite (find_none t a s ltac:(lia) E) in O by lia. discriminate.
  - apply Z.eqb_neq in E.
    destruct (find_found t a s _ ltac:(lia) eq_refl E) as (B & O & C).
    apply find_first.
    + lia.
    + rewrite occurs_at_splice_behind by lia. assumption.
    + intros q Hq. replace q with (q - len sp + len sp) by lia.
      rewrite occurs_at_splice_behind by lia. apply C. lia.
Qed.

End Splice.

(** ** Passes with [alignfirst] set *)

Lemma find_next_first (l : LineObj) (a : str) :
  find_next l a true = Returns (first_step a l).
Proof.
  unfold find_next, first_step. rewrite find_next_fuel_first. cbv zeta.
  destruct (_ || _); reflexivity.
Qed.

Lemma find_next_all_first (lines : list LineObj) (a : str) :
  find_next_all lines a true
  = Returns (map (fun l => fst (first_step a l)) lines,
             map (fun l => snd (first_step a l)) lines).
Proof.
  induction lines as [|l lines IH]; [reflexivity|].
  cbn [find_next_all map]. rewrite find_next_first, IH.
  cbn [bind]. destruct (first_step a l). reflexivity.
Qed.

Lemma fold_max_spec (xs : list Z) (x : Z) :
  x <= fold_left Z.max xs x /\
  (forall y, In y xs -> y <= fold_left Z.max xs x) /\
  (fold_left Z.max xs x = x \/ In (fold_left Z.max xs x) xs).
Proof.
  revert x. induction xs as [|y xs IH]; intros x; cbn [fold_left].
  - split; [lia|]. split; [intros y []|]. left. reflexivity.
  - destruct (IH (Z.max x y)) as (A & B & C). split; [lia|]. split.
    + intros z [<- | I]; [lia | apply B; assumption].
    + destruct C as [C | C]; [|right; right; assumption].
      rewrite C. destruct (Z.max_spec x y) as [[_ ->] | [_ ->]];
        [right; left; reflexivity | left; reflexivity].
Qed.

Lemma py_max_spec (l : list Z) :
  l <> [] ->
  exists m, py_max l = Some m /\ In m l /\ forall y, In y l -> y <= m.
Proof.
  destruct l as [|x xs]; [congruence|]. intros _.
  destruct (fold_max_spec xs x) as (A & B & C).
  exists (fold_left Z.max xs x). split; [reflexivity|]. split.
  - destruct C as [-> | C]; [left; reflexivity | right; assumption].
  - intros y [<- | I]; [assumption | apply B; assumption].
Qed.

Lemma py_max_all (l : list Z) (c : Z) :
  l <> [] -> (forall y, In y l -> y = c) -> py_max l = Some c.
Proof.
  intros N A. destruct (py_max_spec l N) as (m & E & I & _).
  rewrite E. f_equal. apply A. assumption.
Qed.

(** One pass over lines whose searches are known. *)
Lemma align_pass_first (lines : list LineObj) (a : str) (m : Z) :
  py_max (map (fun l => snd (first_step a l)) lines) = Some m ->
  align_pass lines a true =
  Returns (if m <? 0 then (map (fun l => fst (first_step a l)) lines, false)
           else (map (fun l => align_line m (fst (first_step a l))) lines,
                 true)).
Proof.
  intros E. unfold align_pass. rewrite find_next_all_first. cbn [bind].
  rewrite E. destruct (m <? 0); [reflexivity|]. rewrite map_map. reflexivity.
Qed.

(** ** What the searches meet *)

Section Scanning.

Variables (a : str).
Hypothesis a_not_empty : a <> [].

Lemma meets_bounds (t : str) (from : Z) (ps : list Z) (to : Z) :
  meets t a from ps to -> 0 <= from -> from <= to.
Proof.
  pose proof (len_nonneg a) as Ha.
  induction 1 as [from | from p ps to E N M IH]; intros F; [lia|].
  destruct (find_found t a from p F E N) as (B & _).
  specialize (IH ltac:(lia)). lia.
Qed.

Lemma meets_snoc (t : str) (from : Z) (ps : list Z) (mid p : Z) :
  meets t a from ps mid -> find t a mid = p -> p <> -1 ->
  meets t a from (ps ++ [p]) (p + len a).
Proof.
  induction 1 as [from | from q ps to E N M IH]; intros E' N'; cbn [app].
  - apply (meets_cons t a from p [] _ E' N'). constructor.
  - apply (meets_cons t a from q _ _ E N). apply IH; assumption.
Qed.

Lemma meets_scans (t : str) (from : Z) (ps : list Z) (to : Z) (qs : list Z) :
  meets t a from ps to -> scans t a to qs -> scans t a from (ps ++ qs).
Proof.
  induction 1 as [from | from q ps to E N M IH]; intros S; cbn [app];
    [assumption|].
  apply (scans_cons t a from q _ E N). apply IH. assumption.
Qed.

(** [occurrences] lists what the searches meet. *)
Lemma occurrences_from_scans (fuel : nat) (t : str) (from : Z) :
  0 <= from -> len t - from < Z.of_nat fuel ->
  scans t a from (occurrences_from fuel t a from).
Proof.
  pose proof (len_pos a a_not_empty) as La.
  revert from. induction fuel as [|fuel IH]; intros from F L.
  - cbn [occurrences_from]. constructor. apply find_beyond. lia.
  - cbn [occurrences_from].
    destruct (Z.eq_dec (find t a from) (-1)) as [E|N].
    + rewrite E. cbn [Z.eqb orb]. constructor. assumption.
    + rewrite (found_in_text t a from a_not_empty N).
      destruct (find_found t a from _ F eq_refl N) as (B & _).
      apply (scans_cons t a from _ _ eq_refl N). apply IH; lia.
Qed.

Lemma occurrences_scans (t : str) : scans t a 0 (occurrences t a).
Proof.
  apply occurrences_from_scans; [lia|]. unfold len. lia.
Qed.

Section Blanks.

Variables (t sp : str) (p : Z).
Hypothesis p_inside : 0 <= p <= len t.

Lemma meets_splice (from : Z) (ps : list Z) (to : Z) :
  meets t a from ps to -> 0 <= from -> to <= p ->
  meets (splice t p sp) a from ps to.
Proof.
  pose proof (len_nonneg a) as Ha.
  induction 1 as [from | from q ps to E N M IH]; intros F T; [constructor|].
  destruct (find_found t a from q F E N) as (B & _).
  pose proof (meets_bounds _ _ _ _ M ltac:(lia)) as B'.
  apply (meets_cons _ a from q).
  - apply (find_splice_before t a sp p p_inside from q F E N). lia.
  - assumption.
  - apply IH; lia.
Qed.

Lemma scans_splice (from : Z) (ps : list Z) :
  scans t a from ps -> p <= from ->
  scans (splice t p sp) a (from + len sp) (map (fun q => q + len sp) ps).
Proof.
  pose proof (len_nonneg a) as Ha.
  induction 1 as [from E | from q ps E N S IH]; intros F; cbn [map].
  - constructor. rewrite (find_splice_behind t a sp p p_inside from F), E.
    reflexivity.
  - destruct (find_found t a from q ltac:(lia) E N) as (B & _).
    apply Z.eqb_neq in N.
    apply (scans_cons _ a (from + len sp) (q + len sp)).
    + rewrite (find_splice_behind t a sp p p_inside from F), E, N. reflexivity.
    + apply Z.eqb_neq in N. pose proof (len_nonneg sp). lia.
    + replace (q + len sp + len a) with (q + len a + len sp) by lia.
      apply IH. lia.
Qed.

End Blanks.

End Scanning.

(** ** Padding a line whose search found the delimiter *)

Lemma len_spaces (n : Z) : 0 <= n -> len (spaces n) = n.
Proof. intros N. unfold len, spaces. rewrite repeat_length. lia. Qed.

Lemma spaces_blank (n : Z) (c : ascii) : In c (spaces n) -> c = " "%char.
Proof. unfold spaces. intros I. apply repeat_spec in I. assumption. Qed.

Lemma align_line_moved (l : LineObj) (a : str) (p m : Z) :
  0 <= p <= m -> p <= len (text l) ->
  text (align_line m (moved_to l a p)) = splice (text l) p (spaces (m - p)) /\
  search_start (align_line m (moved_to l a p)) = m + len a /\
  last_find (align_line m (moved_to l a p)) = m.
Proof.
  intros [P0 P1] P2. pose proof (len_nonneg a) as Ha.
  unfold align_line. cbn [moved_to last_find].
  destruct (p <? 0) eqn:E0; [apply Z.ltb_lt in E0; lia|].
  destruct (p <? m) eqn:E1.
  - apply Z.ltb_lt in E1.
    pose proof (insert_text (moved_to l a p) p (spaces (m - p))) as T.
    destruct (insert_cursors (moved_to l a p) p (spaces (m - p)))
      as (S & F & _).
    cbv zeta in T, S, F.
    cbn [moved_to text search_start last_find] in T, S, F.
    replace (Z.min (Z.max p 0) (len (text l))) with p in T, S, F by lia.
    rewrite T, S, F, len_spaces by lia.
    replace (p <=? p + len a) with true by (symmetry; apply Z.leb_le; lia).
    rewrite Z.leb_refl. repeat split; lia.
  - apply Z.ltb_ge in E1. assert (m = p) by lia. subst m.
    cbn [moved_to text search_start last_find]. rewrite Z.sub_diag.
    unfold splice, spaces. cbn [Z.to_nat repeat app].
    rewrite firstn_skipn. repeat split.
Qed.

(** ** Two runs with [alignfirst] set *)

Section Realign.

Variable a : str.
Hypothesis a_not_empty : a <> [].
Hypothesis a_no_blank : ~ In " "%char a.

(** A line with delimiters to come: its search finds one, and padding it to
    [m] leaves a line whose next delimiter has been met at [m]. *)
Lemma underway_step (done : list Z) (s : Z) (k : nat) (l : LineObj) (m : Z) :
  0 <= s -> underway a done s (S k) l ->
  exists p,
    first_step a l = (moved_to l a p, p) /\ s <= p /\
    (p <= m ->
     underway a (done ++ [m]) (m + len a) k (align_line m (moved_to l a p))).
Proof.
  intros S0 (Es & M & rest & Sc & L). pose proof (len_pos a a_not_empty) as La.
  inversion Sc as [from E | from p ps E N Sc' Ef]; subst; [discriminate|].
  injection L as L.
  destruct (find_found (text l) a _ _ S0 eq_refl N) as (B & O & _).
  pose proof (occurs_at_bound _ _ _ O) as [P0 P1].
  exists (find (text l) a (search_start l)). split; [|split; [assumption|]].
  - unfold first_step. rewrite (found_in_text _ _ _ a_not_empty N). reflexivity.
  - intros Pm. set (p := find (text l) a (search_start l)) in *.
    destruct (align_line_moved l a p m ltac:(lia) ltac:(lia)) as (T & S & _).
    assert (I : 0 <= p <= len (text l)) by lia.
    unfold underway. rewrite T, S. split; [reflexivity|]. split.
    + replace m with (p + len (spaces (m - p))) at 2 3
        by (rewrite len_spaces; lia).
      apply (meets_snoc a _ _ _ (search_start l)).
      * apply meets_splice; [exact I | exact M | lia | lia].
      * apply find_splice_here;
          [exact I | assumption | apply spaces_blank | assumption | lia
          | reflexivity].
      * pose proof (len_nonneg (spaces (m - p))). lia.
    + exists (map (fun q => q + len (spaces (m - p))) ps). split.
      * replace (m + len a) with (p + len a + len (spaces (m - p)))
          by (rewrite len_spaces; lia).
        apply scans_splice; [exact I | exact Sc' | lia].
      * rewrite length_map. assumption.
Qed.

(** A run over lines that all have [k] delimiters to come ends, within [k+1]
    polls of the timer, with lines whose searches all meet the same offsets. *)
Lemma first_run (k : nat) :
  forall (timer : Timer) (lines : list LineObj) (done : list Z) (s : Z),
    lines <> [] -> 0 <= s ->
    (forall l, In l lines -> underway a done s k l) ->
    (k < timer)%nat ->
    exists out ms,
      align_columns timer lines a true = Returns (Aligned out) /\
      out <> [] /\ List.length ms = (List.length done + k)%nat /\
      forall l, In l out -> scans (text l) a 0 ms.
Proof.
  induction k as [|k IH]; intros timer lines done s N S0 U T;
    (destruct timer as [|timer]; [lia|]); cbn [align_columns].
  - assert (F : forall l, In l lines -> first_step a l = (exhausted l, -1)).
    { intros l I. destruct (U l I) as (Es & _ & rest & Sc & L).
      destruct rest; [|discriminate]. inversion Sc as [from E |]; subst.
      unfold first_step. rewrite E. reflexivity. }
    rewrite (align_pass_first lines a (-1)).
    + cbn [Z.ltb Z.compare bind].
      exists (map (fun l => fst (first_step a l)) lines), done.
      split; [reflexivity|]. split.
      * destruct lines; [congruence | discriminate].
      * split; [lia|]. intros l' I. apply in_map_iff in I.
        destruct I as (l & <- & I). rewrite (F l I). cbn [fst exhausted].
        destruct (U l I) as (Es & M & rest & Sc & L).
        destruct rest; [|discriminate].
        rewrite <- (app_nil_r done). cbn [set_search_start text].
        apply (meets_scans a _ _ _ _ _ M Sc).
    + apply py_max_all.
      * destruct lines; [congruence | discriminate].
      * intros y I. apply in_map_iff in I. destruct I as (l & <- & I).
        rewrite (F l I). reflexivity.
  - destruct (py_max_spec (map (fun l => snd (first_step a l)) lines))
      as (m & E & Im & Le).
    { destruct lines; [congruence | discriminate]. }
    assert (M0 : 0 <= m).
    { apply in_map_iff in Im. destruct Im as (l & <- & I).
      destruct (underway_step done s k l 0 S0 (U l I)) as (p & F & B & _).
      rewrite F. cbn [snd]. lia. }
    rewrite (align_pass_first lines a m E).
    replace (m <? 0) with false by (symmetry; apply Z.ltb_ge; assumption).
    cbn [bind].
    destruct (IH timer (map (fun l => align_line m (fst (first_step a l))) lines)
                (done ++ [m]) (m + len a)) as (out & ms & R & No & Lm & Sc).
    + destruct lines; [congruence | discriminate].
    + pose proof (len_nonneg a). lia.
    + intros l' I. apply in_map_iff in I. destruct I as (l & <- & I).
      destruct (underway_step done s k l m S0 (U l I)) as (p & F & B & W).
      rewrite F. cbn [fst]. apply W.
      apply Le. apply in_map_iff. exists l. rewrite F.
      split; [reflexivity | assumption].
    + lia.
    + exists out, ms. split; [assumption|]. split; [assumption|].
      split; [|assumption]. rewrite Lm, length_app. cbn [List.length]. lia.
Qed.

(** A run over lines whose searches all meet the same offsets pads nothing. *)
Lemma aligned_run (ms : list Z) :
  forall (timer : Timer) (lines : list LineObj),
    lines <> [] ->
    (forall l, In l lines -> scans (text l) a (search_start l) ms) ->
    (List.length ms < timer)%nat ->
    exists out,
      align_columns timer lines a true = Returns (Aligned out) /\
      map text out = map text lines.
Proof.
  induction ms as [|p ms IH]; intros timer lines N Sc T;
    (destruct timer as [|timer]; [cbn [List.length] in T; lia|]);
    cbn [align_columns].
  - assert (F : forall l, In l lines -> first_step a l = (exhausted l, -1)).
    { intros l I. specialize (Sc l I). inversion Sc as [from E |]; subst.
      unfold first_step. rewrite E. reflexivity. }
    rewrite (align_pass_first lines a (-1)).
    + cbn [Z.ltb Z.compare bind]. eexists. split; [reflexivity|].
      rewrite map_map. apply map_ext_in. intros l I. rewrite (F l I).
      reflexivity.
    + apply py_max_all.
      * destruct lines; [congruence | discriminate].
      * intros y I. apply in_map_iff in I. destruct I as (l & <- & I).
        rewrite (F l I). reflexivity.
  - assert (F : forall l, In l lines ->
                  first_step a l = (moved_to l a p, p) /\ 0 <= p /\
                  scans (text l) a (p + len a) ms).
    { intros l I. specialize (Sc l I).
      inversion Sc as [| from q qs E Nq Sc']; subst.
      pose proof (occurs_at_bound _ _ _ (find_occurs _ _ _ _ eq_refl Nq))
        as [P0 _].
      unfold first_step. rewrite (found_in_text _ _ _ a_not_empty Nq).
      repeat split; assumption. }
    assert (P0 : 0 <= p).
    { destruct lines as [|l lines]; [congruence|].
      destruct (F l (or_introl eq_refl)) as (_ & P0 & _). assumption. }
    rewrite (align_pass_first lines a p).
    + replace (p <? 0) with false by (symmetry; apply Z.ltb_ge; assumption).
      cbn [bind].
      destruct (IH timer (map (fun l => align_line p (fst (first_step a l))) lines))
        as (out & R & Tx).
      * destruct lines; [congruence | discriminate].
      * intros l' I. apply in_map_iff in I. destruct I as (l & <- & I).
        destruct (F l I) as (Fl & _ & Sl). rewrite Fl. cbn [fst].
        unfold align_line. cbn [moved_to last_find].
        replace (p <? 0) with false by (symmetry; apply Z.ltb_ge; assumption).
        rewrite Z.ltb_irrefl. cbn [text search_start]. assumption.
      * cbn [List.length] in T. lia.
      * exists out. split; [assumption|]. rewrite Tx, map_map.
        apply map_ext_in. intros l I. destruct (F l I) as (Fl & _).
        rewrite Fl. cbn [fst]. unfold align_line. cbn [moved_to last_find].
        replace (p <? 0) with false by (symmetry; apply Z.ltb_ge; assumption).
        rewrite Z.ltb_irrefl. reflexivity.
    + apply py_max_all.
      * destruct lines; [congruence | discriminate].
      * intros y I. apply in_map_iff in I. destruct I as (l & <- & I).
        destruct (F l I) as (Fl & _). rewrite Fl. reflexivity.
Qed.

End Realign.

(** ** The turns of the cursor loop *)

Section Turns.

Context {V : Type} `{View V}.

Lemma rich_cursors_of_timer (search_cursors : list Region) :
  forall (timer : Timer) (view : V) (tabsize : Z) (acc : list RichCursor)
         (timer' : Timer) (rich_cursors : list RichCursor),
    rich_cursors_of timer view tabsize search_cursors acc
      = Some (timer', rich_cursors) ->
    (timer' <= timer)%nat.
Proof.
  induction search_cursors as [|reg rest IH];
    intros timer view tabsize acc timer' rich_cursors E;
    cbn [rich_cursors_of] in E.
  - injection E as <- _. lia.
  - destruct (view_rowcol view (sublime.begin reg)) as [row col].
    destruct timer as [|timer]; [discriminate|].
    apply IH in E. lia.
Qed.

Lemma get_active_cursors_timer (view : V) (search_cursors : list Region)
    (timer : Timer) :
  (snd (fst (get_active_cursors view search_cursors timer)) <= timer)%nat.
Proof.
  unfold get_active_cursors.
  destruct (rich_cursors_of timer view (view_tab_size view) search_cursors [])
    as [[timer' rich_cursors]|] eqn:E; [|cbn [fst snd]; lia].
  apply rich_cursors_of_timer in E.
  destruct (first_per_line (-1) _) as [firsts others].
  destruct (py_max _); cbn [fst snd]; assumption.
Qed.

(** The loop of [align_by_cursors] never runs out of turns: any two numbers
    of turns above the polls the timer has left give the same run. *)
Lemma cursor_passes_turns (turns : nat) :
  forall (turns' : nat) (timer : Timer) (view : V)
         (waiting_cursors : list Region),
    (timer < turns)%nat -> (timer < turns')%nat ->
    cursor_passes turns timer view waiting_cursors
    = cursor_passes turns' timer view waiting_cursors.
Proof.
  induction turns as [|turns IH]; intros turns' timer view waiting L L'; [lia|].
  destruct turns' as [|turns']; [lia|].
  destruct waiting as [|reg waiting]; [reflexivity|].
  destruct timer as [|timer]; [reflexivity|].
  cbn [cursor_passes].
  pose proof (get_active_cursors_timer view (reg :: waiting) timer) as T.
  destruct (get_active_cursors view (reg :: waiting) timer) as [[view' timer'] r].
  cbn [fst snd] in T.
  destruct r as [[[[active others] maxpos]|] | e |]; try reflexivity.
  destruct (tab_align view' maxpos active others) as [view'' waiting'].
  apply IH; lia.
Qed.

End Turns.

(** ** The commands on sample buffers *)

Lemma selection_over_lines_witness :
  let view := Editor.open table [] 4 in
  let r := align_by_selected_str view (mkRegion 4 20) 5%nat false in
  Editor.messages (fst r)
    = [py "Error: selection can't span more than one line"] /\
  Editor.edits (fst r) = [] /\ Editor.chars (fst r) = Editor.chars view /\
  snd r = Returns RNone.
Proof.
  cbv zeta.
  rewrite (selection_over_lines_only_reports (Editor.open table [] 4)
             (mkRegion 4 20) 5%nat false);
    [repeat split | vm_compute; discriminate].
Defined.

Lemma range_cursor_witness :
  let view := Editor.open table [mkRegion 2 2; mkRegion 20 22] 4 in
  let r := align_by_cursors view 5%nat in
  Editor.messages (fst r)
    = [py "Error: you must have either a selection, a single cursor, or multiple cursors"] /\
  Editor.edits (fst r) = [] /\ Editor.chars (fst r) = Editor.chars view /\
  snd r = Returns RNonePair.
Proof.
  cbv zeta.
  rewrite (range_cursor_only_reports
             (Editor.open table [mkRegion 2 2; mkRegion 20 22] 4) 5%nat);
    [repeat split |].
  exists (mkRegion 20 22). split; [simpl; auto | reflexivity].
Defined.

(** C1, on the code.  Rows ["a|b|c"] and ["x|y"], delimiter ["|"]: the first
    pass finds both bars at offset 1 and pads nothing; in the second pass
    [find_next] reports -1 for the second row, which is exhausted, and the
    pass still puts two spaces into it, at the [last_find] the row kept from
    the first pass; the command ends with ["x  |y"]. *)
Theorem exhausted_line_is_padded :
  let bar := py "|" in
  let row1 := mkLineObj 0 5 (py "a|b|c") 2 1 in
  let row2 := mkLineObj 6 9 (py "x|y") 2 1 in
  align_pass (lines_of ["a|b|c"; "x|y"]%string) bar false
    = Returns ([row1; row2], true) /\
  find_next row2 bar false = Returns (mkLineObj 6 9 (py "x|y") 3 1, -1) /\
  align_pass [row1; row2] bar false
    = Returns ([mkLineObj 0 5 (py "a|b|c") 4 3;
                mkLineObj 6 9 (py "x  |y") 5 3], true) /\
  (forall af n,
     texts_of (align_columns (3 + n)%nat (lines_of ["a|b|c"; "x|y"]%string) bar af)
     = Some ["a|b|c"; "x  |y"]%string).
Proof.
  cbv zeta. repeat split. intros [|] n; reflexivity.
Qed.

(** C2, on the code.  On the rows of the table with delimiter ["|"], the
    passes with [alignfirst] unset end with ["this|is||a   |table"] and
    ["it| |has|some|values"], in the alignment loop and in the command on a
    buffer; the rows the comment of [TabAlignLastCommand] promises come out
    with [alignfirst] set. *)
Theorem table_rows_aligned :
  (forall n,
     texts_of (align_columns (4 + n)%nat (lines_of table_rows) (py "|") false)
     = Some ["this|is||a   |table"; "it| |has|some|values"]%string) /\
  (forall n,
     Editor.chars
       (fst (align_by_selected_str (Editor.open table [] 4) (mkRegion 4 4)
               (6 + n)%nat false))
     = py ("this|is||a   |table" ++ String "010"%char "it| |has|some|values")) /\
  (forall n,
     texts_of (align_columns (5 + n)%nat (lines_of table_rows) (py "|") true)
     = Some ["this|is|   |a   |table"; "it  |  |has|some|values"]%string).
Proof.
  repeat split; intros n; reflexivity.
Qed.

(** [align_by_selected_str] behind its checks: one delimiter, the lines
    gathered, then the passes and what each of their endings does. *)
Lemma align_by_selected_str_passes {V : Type} `{View V} (view view' : V)
    (cursor : Region) (timer timer' : Timer) (alignfirst : bool)
    (alignstr : str) (first : LineObj) (rest : list LineObj) :
  sublime.begin (view_line view (sublime.end_ cursor))
    = sublime.begin (view_line view (sublime.begin cursor)) ->
  alignstr =
    (if 0 <? sublime.size cursor then view_substr view cursor
     else view_substr view
            (mkRegion (sublime.begin cursor) (sublime.begin cursor + 1))) ->
  view' =
    match alignstr with
    | [] => status_message view (py "Programmer error: empty align string")
    | _ :: _ => view
    end ->
  gather_lines timer view' alignstr
    (get_line view' (sublime.begin (view_line view (sublime.begin cursor)))) []
    = Some (timer', first :: rest) ->
  align_by_selected_str view cursor timer alignfirst =
  match align_columns timer' (first :: rest) alignstr alignfirst with
  | Diverges => (view', Diverges)
  | Raises e => (view', Raises e)
  | Returns TimedOut =>
      (status_message view' (py "Programmer error: timeout on line 204"),
       Returns RNone)
  | Returns (Aligned lines) =>
      (view_replace view'
         (mkRegion (begin first) (end_ (last (first :: rest) first)))
         (join newline (map text lines)), Returns RNone)
  end.
Proof.
  intros L A W G. unfold align_by_selected_str.
  rewrite L, Z.eqb_refl. cbn [negb]. rewrite <- A, <- W, G. reflexivity.
Qed.

Lemma gather_lines_done {V : Type} `{View V} (timer : Timer) (view : V)
    (alignstr : str) (lines : list LineObj) :
  gather_lines timer view alignstr None lines = Some (timer, lines).
Proof. destruct timer; reflexivity. Qed.

Lemma gather_lines_step {V : Type} `{View V} (timer : Timer) (view : V)
    (alignstr : str) (l : LineObj) (lines : list LineObj) :
  contains (text l) alignstr = true ->
  gather_lines (S timer) view alignstr (Some l) lines =
  gather_lines timer view alignstr (get_line view (end_ l + 1)) (lines ++ [l]).
Proof. intros C. cbn [gather_lines]. rewrite C. reflexivity. Qed.

(** One row, empty delimiter, [alignfirst] set: every pass finds the empty
    string at offset 0 and changes nothing, until the timer ticks. *)
Lemma empty_delimiter_first_policy (n : nat) :
  align_columns n [LineObj_init 0 3 (py "a|b")] [] true = Returns TimedOut.
Proof.
  induction n as [|n IH]; [reflexivity|].
  cbn [align_columns]. exact IH.
Qed.

(** C5, on the code.  Buffer ["a|b"], cursor at its end: the delimiter is the
    empty string.  The command shows its message and goes on: with
    [alignfirst] unset the first [find_next] never returns; with it set the
    passes turn until the timer ticks.  Neither edits the buffer. *)
Theorem empty_delimiter_goes_on :
  let view := Editor.open "a|b" [] 4 in
  let said := Editor.say view (py "Programmer error: empty align string") in
  (forall n,
     align_by_selected_str view (mkRegion 3 3) (2 + n)%nat false
     = (said, Diverges)) /\
  (forall fuel,
     find_next_fuel fuel (LineObj_init 0 3 (py "a|b")) [] false = Diverges) /\
  (forall n,
     align_by_selected_str view (mkRegion 3 3) (1 + n)%nat true
     = (Editor.say said (py "Programmer error: timeout on line 204"),
        Returns RNone)).
Proof.
  cbv zeta. split; [|split].
  - intros n. vm_compute. reflexivity.
  - intros fuel. apply find_next_empty_diverges. vm_compute.
    split; [discriminate | reflexivity].
  - intros n.
    rewrite (@align_by_selected_str_passes _ Editor.view
               (Editor.open "a|b" [] 4)
               (Editor.say (Editor.open "a|b" [] 4)
                  (py "Programmer error: empty align string"))
               (mkRegion 3 3) (1 + n)%nat n true []
               (LineObj_init 0 3 (py "a|b")) []).
    + rewrite empty_delimiter_first_policy. reflexivity.
    + vm_compute. reflexivity.
    + vm_compute. reflexivity.
    + vm_compute. reflexivity.
    + replace (get_line _ _) with (Some (LineObj_init 0 3 (py "a|b")))
        by (vm_compute; reflexivity).
      change (1 + n)%nat with (S n).
      rewrite gather_lines_step by (vm_compute; reflexivity).
      replace (get_line _ _) with (@None LineObj) by (vm_compute; reflexivity).
      apply gather_lines_done.
Qed.

(** C8, as the spec has it, fails on the table with [alignfirst] unset: the
    first run parts the two bars of ["it||has"], and the second run, which
    now meets them one at a time, pads the row again. *)
Lemma realign_table_counterexample :
  exists out out',
    align_columns 9%nat (lines_of table_rows) (py "|") false
      = Returns (Aligned out) /\
    align_columns 9%nat (map reread out) (py "|") false
      = Returns (Aligned out') /\
    map text out = [py "this|is||a   |table"; py "it| |has|some|values"] /\
    map text out'
      = [py "this|is||a        |table"; py "it  |   |has |some|values"] /\
    map text out' <> map text out.
Proof.
  eexists. eexists. split; [vm_compute; reflexivity|].
  split; [vm_compute; reflexivity|].
  split; [reflexivity|]. split; [reflexivity|]. discriminate.
Qed.

(** Why the statement of C8 asks for what it asks.  With [alignfirst] set a
    delimiter of one blank is multiplied by the padding, and rows with unlike
    numbers of delimiters have their exhausted rows padded (C1): in both
    cases a second run pads again. *)
Lemma realign_needs_its_hypotheses :
  (forall n,
     texts_of (align_columns (3 + n)%nat (lines_of ["a b"; "aa b"]%string)
                 (py " ") true)
     = Some ["a  b"; "aa b"]%string) /\
  (forall n,
     texts_of (align_columns (4 + n)%nat (lines_of ["a  b"; "aa b"]%string)
                 (py " ") true)
     = Some ["a   b"; "aa  b"]%string) /\
  (forall n,
     texts_of (align_columns (3 + n)%nat (lines_of ["a|b|c"; "x|y"]%string)
                 (py "|") true)
     = Some ["a|b|c"; "x  |y"]%string) /\
  (forall n,
     texts_of (align_columns (3 + n)%nat (lines_of ["a|b|c"; "x  |y"]%string)
                 (py "|") true)
     = Some ["a  |b|c"; "x    |y"]%string).
Proof.
  repeat split; intros n; reflexivity.
Qed.

(** The same of delimiters that hold a blank and more: blanks put in front
    of [", "] make a new [", "] of the comma before it, and blanks put in
    front of the last of a row of two-blank delimiters make a row that ends
    elsewhere.  In both cases the second run pads again. *)
Lemma realign_blank_delimiters :
  (forall n,
     texts_of (align_columns (2 + n)%nat
                 (lines_of ["a,, b"; "aaaa, b"]%string) (py ", ") true)
     = Some ["a,  , b"; "aaaa, b"]%string) /\
  (forall n,
     texts_of (align_columns (3 + n)%nat
                 (lines_of ["a,  , b"; "aaaa, b"]%string) (py ", ") true)
     = Some ["a   ,  , b"; "aaaa   , b"]%string) /\
  (forall n,
     texts_of (align_columns (2 + n)%nat
                 (lines_of ["aa  b"; "aaa  b"]%string) (py "  ") false)
     = Some ["aa   b"; "aaa  b"]%string) /\
  (forall n,
     texts_of (align_columns (2 + n)%nat
                 (lines_of ["aa   b"; "aaa  b"]%string) (py "  ") false)
     = Some ["aa    b"; "aaa  b"]%string).
Proof.
  repeat split; intros n; reflexivity.
Qed.

(** ** More on [find_next] *)

(** A search from the end of the text finds nothing inside it. *)
Lemma find_from_end (t b : str) :
  (find t b (len t) =? -1) || (len t <=? find t b (len t)) = true.
Proof.
  pose proof (len_nonneg t) as Ht.
  destruct (Z.eq_dec (find t b (len t)) (-1)) as [E|N].
  - rewrite E. reflexivity.
  - destruct (find_found t b (len t) _ Ht eq_refl N) as (B & _).
    apply orb_true_iff. right. apply Z.leb_le. assumption.
Qed.

(** What a [find_next] that returns hands back: the exhausted line and -1,
    or the line moved to a delimiter inside the text. *)
Lemma find_next_returns (l : LineObj) (a : str) (af : bool) (l' : LineObj)
    (r : Z) :
  find_next l a af = Returns (l', r) ->
  (l' = exhausted l /\ r = -1) \/
  (l' = moved_to l a r /\ occurs_at (text l) a r = true /\ r < len (text l) /\
   find (text l) a (search_start l) <> -1 /\
   find (text l) a (search_start l) <= r).
Proof.
  intros E. unfold find_next in E. destruct af.
  - rewrite find_next_fuel_first in E. cbv zeta in E.
    destruct (_ || _) eqn:C; injection E as <- <-; [left; split; reflexivity|].
    right. apply orb_false_iff in C. destruct C as [C1 C2].
    apply Z.eqb_neq in C1. apply Z.leb_gt in C2.
    pose proof (find_occurs _ _ _ _ eq_refl C1). repeat split; try assumption.
    lia.
  - rewrite find_next_fuel_last in E. cbv zeta in E.
    destruct (_ || _) eqn:C; [injection E as <- <-; left; split; reflexivity|].
    right. apply orb_false_iff in C. destruct C as [C1 C2].
    apply Z.eqb_neq in C1. apply Z.leb_gt in C2.
    destruct (last_in_row _ _ _ _) as [p|] eqn:R; [|discriminate].
    injection E as <- <-.
    pose proof (find_occurs _ _ _ _ eq_refl C1) as O.
    destruct (last_in_row_inside _ _ _ _ _ R O C2) as [O' L].
    repeat split; try assumption.
    clear - R. revert R. generalize (find (text l) a (search_start l)).
    generalize (S (List.length (text l))). intros fuel.
    induction fuel as [|fuel IH]; intros pos R; [discriminate|].
    cbn [last_in_row] in R. pose proof (len_nonneg a).
    destruct (_ && _); [apply IH in R; lia | injection R as <-; lia].
Qed.

(** X1.  With [alignfirst] set and a non-empty delimiter, a [find_next] whose
    search finds the delimiter returns the first offset at or behind
    [search_start] where the delimiter stands, and moves the cursors there:
    [last_find] to the offset, [search_start] behind the delimiter. *)
Theorem find_next_first_match (l : LineObj) (a : str) :
  let p := find (text l) a (search_start l) in
  a <> [] -> 0 <= search_start l -> p <> -1 ->
  find_next l a true = Returns (moved_to l a p, p) /\
  search_start l <= p /\ occurs_at (text l) a p = true /\
  (forall q, search_start l <= q < p -> occurs_at (text l) a q = false).
Proof.
  intros p Na S0 N. split.
  - rewrite find_next_first. unfold first_step. fold p.
    unfold p at 1 2. rewrite (found_in_text _ _ _ Na N). reflexivity.
  - apply (find_found (text l) a (search_start l) p S0 eq_refl N).
Qed.

Lemma find_next_first_match_witness :
  find_next (mkLineObj 0 7 (py "a|b|c|d") 2 1) (py "|") true
  = Returns (mkLineObj 0 7 (py "a|b|c|d") 4 3, 3).
Proof.
  destruct (find_next_first_match (mkLineObj 0 7 (py "a|b|c|d") 2 1) (py "|"))
    as (E & _); [discriminate | vm_compute; discriminate | vm_compute; lia |].
  exact E.
Defined.

(** X2.  A line on which [find_next] reported -1 is exhausted for good: its
    text and [last_find] are as before, [search_start] is the length of the
    text, and every later [find_next], with any delimiter and either policy,
    reports -1 again and leaves the line as it is. *)
Theorem find_next_exhausted_stays (l : LineObj) (a : str) (af : bool)
    (l' : LineObj) :
  find_next l a af = Returns (l', -1) ->
  l' = exhausted l /\
  forall b af', find_next l' b af' = Returns (l', -1).
Proof.
  intros E. destruct (find_next_returns _ _ _ _ _ E) as [[-> _] | (_ & O & _)].
  - split; [reflexivity|]. intros b af'. unfold find_next.
    destruct af'.
    + rewrite find_next_fuel_first. cbv zeta.
      cbn [exhausted set_search_start text search_start].
      rewrite find_from_end. reflexivity.
    + rewrite find_next_fuel_last. cbv zeta.
      cbn [exhausted set_search_start text search_start].
      rewrite find_from_end. reflexivity.
  - apply occurs_at_bound in O. lia.
Qed.

Lemma find_next_exhausted_stays_witness :
  find_next (mkLineObj 0 3 (py "x|y") 3 1) (py "y") true
  = Returns (mkLineObj 0 3 (py "x|y") 3 1, -1).
Proof.
  destruct (find_next_exhausted_stays (mkLineObj 0 3 (py "x|y") 2 1) (py "|")
              false (mkLineObj 0 3 (py "x|y") 3 1) eq_refl) as (_ & A).
  apply A.
Defined.

(** X3.  With a non-empty delimiter a [find_next] that finds something, with
    either policy, returns an offset at or behind [search_start] where the
    delimiter stands, leaves the text alone, and moves [search_start]
    strictly forward, to just behind that delimiter and not beyond the end of
    the text. *)
Theorem find_next_moves_on (l : LineObj) (a : str) (af : bool) (l' : LineObj)
    (p : Z) :
  a <> [] -> 0 <= search_start l ->
  find_next l a af = Returns (l', p) -> p <> -1 ->
  search_start l <= p /\ occurs_at (text l) a p = true /\
  text l' = text l /\ last_find l' = p /\ search_start l' = p + len a /\
  search_start l < search_start l' <= len (text l).
Proof.
  intros Na S0 E N. pose proof (len_pos a Na) as La.
  destruct (find_next_returns _ _ _ _ _ E) as [[_ ->] | (-> & O & L & F & B)];
    [congruence|].
  destruct (find_found _ _ _ _ S0 eq_refl F) as (B' & _).
  pose proof (occurs_at_bound _ _ _ O) as [_ P1].
  cbn [moved_to text last_find search_start]. repeat split; try assumption; lia.
Qed.

Lemma find_next_moves_on_witness :
  let l := mkLineObj 0 7 (py "it||has") 0 0 in
  let l' := mkLineObj 0 7 (py "it||has") 4 3 in
  search_start l <= 3 /\ occurs_at (text l) (py "|") 3 = true /\
  text l' = text l /\ last_find l' = 3 /\ search_start l' = 3 + len (py "|") /\
  search_start l < search_start l' <= len (text l).
Proof.
  cbv zeta.
  apply (find_next_moves_on (mkLineObj 0 7 (py "it||has") 0 0) (py "|") false
           (mkLineObj 0 7 (py "it||has") 4 3) 3);
    [discriminate | vm_compute; discriminate | reflexivity | discriminate].
Defined.

(** X4.  The two policies agree on whether a delimiter is found, and when one
    is, the last-of-row policy returns the first match or an offset a whole
    number of delimiter lengths behind it. *)
Theorem find_next_policies (l : LineObj) (a : str) :
  a <> [] ->
  exists l1 p1 l2 p2,
    find_next l a true = Returns (l1, p1) /\
    find_next l a false = Returns (l2, p2) /\
    (p1 = -1 <-> p2 = -1) /\
    (p1 <> -1 -> exists k : nat, p2 = p1 + Z.of_nat k * len a).
Proof.
  intros Na. unfold find_next.
  rewrite find_next_fuel_first, find_next_fuel_last. cbv zeta.
  destruct (_ || _) eqn:C.
  - do 4 eexists. split; [reflexivity|]. split; [reflexivity|].
    split; [tauto | congruence].
  - apply orb_false_iff in C. destruct C as [C1 C2]. apply Z.eqb_neq in C1.
    pose proof (find_occurs _ _ _ _ eq_refl C1) as O.
    pose proof (occurs_at_bound _ _ _ O) as [P0 _].
    destruct (last_in_row_spec (S (List.length (text l))) (text l) a _ Na O)
      as (k & E & _); [unfold len; lia|].
    rewrite E. do 4 eexists. split; [reflexivity|]. split; [reflexivity|].
    pose proof (len_nonneg a). split; [split; intros; lia|].
    intros _. exists k. reflexivity.
Qed.

Lemma find_next_policies_witness :
  exists l1 p1 l2 p2,
    find_next (LineObj_init 0 7 (py "it||has")) (py "|") true
      = Returns (l1, p1) /\
    find_next (LineObj_init 0 7 (py "it||has")) (py "|") false
      = Returns (l2, p2) /\
    (p1 = -1 <-> p2 = -1) /\
    (p1 <> -1 -> exists k : nat, p2 = p1 + Z.of_nat k * len (py "|")).
Proof.
  apply (find_next_policies (LineObj_init 0 7 (py "it||has")) (py "|")).
  discriminate.
Defined.

(** ** More on [insert] *)

Lemma LineObj_eq (l l' : LineObj) :
  begin l = begin l' -> end_ l = end_ l' -> text l = text l' ->
  search_start l = search_start l' -> last_find l = last_find l' -> l = l'.
Proof.
  destruct l, l'. cbn. intros -> -> -> -> ->. reflexivity.
Qed.

(** [insert] in terms of [splice], for a position inside the text. *)
Lemma insert_inside (l : LineObj) (pos : Z) (val : str) :
  0 <= pos <= len (text l) ->
  text (insert l pos val) = splice (text l) pos val /\
  search_start (insert l pos val) =
    (if pos <=? search_start l then search_start l + len val
     else search_start l) /\
  last_find (insert l pos val) =
    (if pos <=? last_find l then last_find l + len val else last_find l) /\
  begin (insert l pos val) = begin l /\ end_ (insert l pos val) = end_ l.
Proof.
  intros B. pose proof (insert_text l pos val) as T.
  pose proof (insert_cursors l pos val) as C. cbv zeta in T, C.
  replace (Z.min (Z.max pos 0) (len (text l))) with pos in T, C by lia.
  split; [exact T | exact C].
Qed.

(** X5.  Inserting the empty string changes nothing, wherever it is put. *)
Theorem insert_nothing (l : LineObj) (pos : Z) : insert l pos [] = l.
Proof.
  pose proof (insert_text l pos []) as T.
  destruct (insert_cursors l pos []) as (S & F & B & E). cbv zeta in T, S, F.
  apply LineObj_eq; try assumption.
  - rewrite T. cbn [app]. apply firstn_skipn.
  - rewrite S. change (len []) with 0.
    destruct (Z.min (Z.max pos 0) (len (text l)) <=? search_start l); lia.
  - rewrite F. change (len []) with 0.
    destruct (Z.min (Z.max pos 0) (len (text l)) <=? last_find l); lia.
Qed.

Lemma firstn_app_exact (x s : str) (n : nat) :
  n = List.length x -> firstn n (x ++ s) = x.
Proof.
  intros ->. rewrite firstn_app, firstn_all, Nat.sub_diag. cbn [firstn].
  apply app_nil_r.
Qed.

Lemma skipn_app_exact (x s : str) (n : nat) :
  n = List.length x -> skipn n (x ++ s) = s.
Proof.
  intros ->. rewrite skipn_app, skipn_all, Nat.sub_diag. reflexivity.
Qed.

Lemma splice_splice (t u v : str) (p : Z) :
  0 <= p <= len t ->
  splice (splice t p u) (p + len u) v = splice t p (u ++ v).
Proof.
  intros B. unfold splice.
  assert (F : List.length (firstn (Z.to_nat p) t ++ u)
              = Z.to_nat (p + len u)).
  { rewrite length_app, length_firstn. unfold len in *. lia. }
  rewrite (app_assoc (firstn (Z.to_nat p) t) u).
  rewrite firstn_app_exact, skipn_app_exact by (symmetry; exact F).
  rewrite <- !app_assoc. reflexivity.
Qed.

(** X6.  Two inserts one behind the other are one insert: putting [u] in at
    a position inside the text and then [v] right behind it leaves the line
    that putting [u ++ v] in at that position leaves. *)
Theorem insert_twice (l : LineObj) (pos : Z) (u v : str) :
  0 <= pos <= len (text l) ->
  insert (insert l pos u) (pos + len u) v = insert l pos (u ++ v).
Proof.
  intros B. pose proof (len_nonneg u) as Hu. pose proof (len_nonneg v) as Hv.
  destruct (insert_inside l pos u B) as (T1 & S1 & F1 & B1 & E1).
  destruct (insert_inside l pos (u ++ v) B) as (T3 & S3 & F3 & B3 & E3).
  assert (B2 : 0 <= pos + len u <= len (text (insert l pos u))).
  { rewrite T1, len_splice by assumption. lia. }
  destruct (insert_inside (insert l pos u) (pos + len u) v B2)
    as (T2 & S2 & F2 & B2' & E2).
  apply LineObj_eq.
  - congruence.
  - congruence.
  - rewrite T2, T1, T3. apply splice_splice. assumption.
  - rewrite S2, S1, S3, len_app.
    destruct (pos <=? search_start l) eqn:C.
    + apply Z.leb_le in C.
      replace (pos + len u <=? search_start l + len u) with true
        by (symmetry; apply Z.leb_le; lia).
      lia.
    + apply Z.leb_gt in C.
      replace (pos + len u <=? search_start l) with false
        by (symmetry; apply Z.leb_gt; lia).
      reflexivity.
  - rewrite F2, F1, F3, len_app.
    destruct (pos <=? last_find l) eqn:C.
    + apply Z.leb_le in C.
      replace (pos + len u <=? last_find l + len u) with true
        by (symmetry; apply Z.leb_le; lia).
      lia.
    + apply Z.leb_gt in C.
      replace (pos + len u <=? last_find l) with false
        by (symmetry; apply Z.leb_gt; lia).
      reflexivity.
Qed.

Lemma insert_twice_witness :
  insert (insert (mkLineObj 0 3 (py "a|b") 2 1) 1 (py " "))
    (1 + len (py " ")) (py "  ")
  = mkLineObj 0 3 (py "a   |b") 5 4.
Proof.
  rewrite (insert_twice (mkLineObj 0 3 (py "a|b") 2 1) 1 (py " ") (py "  "));
    [reflexivity | vm_compute; split; discriminate].
Defined.

(** X7.  An insert that does not cut into the delimiter [last_find] points at
    leaves [last_find] pointing at that delimiter: if the delimiter stands at
    [last_find] and the (clamped) position is at or before [last_find], or at
    or behind the end of that delimiter, then the delimiter stands at the new
    [last_find] in the new text. *)
Theorem insert_keeps_last_find (l : LineObj) (a : str) (pos : Z) (val : str) :
  let p := Z.min (Z.max pos 0) (len (text l)) in
  occurs_at (text l) a (last_find l) = true ->
  p <= last_find l \/ last_find l + len a <= p ->
  occurs_at (text (insert l pos val)) a (last_find (insert l pos val)) = true.
Proof.
  intros p O C. pose proof (len_nonneg (text l)) as Hl.
  pose proof (len_nonneg a) as Ha.
  assert (B : 0 <= p <= len (text l)) by (unfold p; lia).
  pose proof (insert_text l pos val) as T.
  destruct (insert_cursors l pos val) as (_ & F & _). cbv zeta in T, F.
  fold p in T, F. rewrite T, F. fold (splice (text l) p val).
  pose proof (occurs_at_bound _ _ _ O) as [P0 P1].
  destruct (p <=? last_find l) eqn:E.
  - apply Z.leb_le in E. rewrite occurs_at_splice_behind; assumption.
  - apply Z.leb_gt in E. rewrite occurs_at_splice_before; [assumption.. | lia].
Qed.

Lemma insert_keeps_last_find_witness :
  let l := mkLineObj 0 3 (py "a|b") 2 1 in
  occurs_at (text (insert l 1 (py "  "))) (py "|")
    (last_find (insert l 1 (py "  "))) = true.
Proof.
  apply (insert_keeps_last_find (mkLineObj 0 3 (py "a|b") 2 1) (py "|") 1
           (py "  ")); [reflexivity | left; vm_compute; discriminate].
Defined.

(** ** More on the passes *)

Lemma next_step_returns (l : LineObj) (a : str) (af : bool) :
  a <> [] -> find_next l a af = Returns (next_step a af l).
Proof.
  intros Na. unfold next_step.
  destruct (find_next_fuel_enough (S (List.length (text l))) l a af Na)
    as (_ & l' & r & E); [lia|].
  rewrite E. reflexivity.
Qed.

Lemma find_next_all_steps (lines : list LineObj) (a : str) (af : bool) :
  a <> [] ->
  find_next_all lines a af
  = Returns (map (fun l => fst (next_step a af l)) lines,
             map (fun l => snd (next_step a af l)) lines).
Proof.
  intros Na. induction lines as [|l lines IH]; [reflexivity|].
  cbn [find_next_all map]. rewrite (next_step_returns l a af Na), IH.
  cbn [bind]. destruct (next_step a af l). reflexivity.
Qed.

Lemma align_pass_steps (lines : list LineObj) (a : str) (af : bool) (m : Z) :
  a <> [] ->
  py_max (map (fun l => snd (next_step a af l)) lines) = Some m ->
  align_pass lines a af =
  Returns (if m <? 0 then (map (fun l => fst (next_step a af l)) lines, false)
           else (map (fun l => align_line m (fst (next_step a af l))) lines,
                 true)).
Proof.
  intros Na E. unfold align_pass. rewrite (find_next_all_steps _ _ _ Na).
  cbn [bind]. rewrite E. destruct (m <? 0); [reflexivity|].
  rewrite map_map. reflexivity.
Qed.

(** What [next_step] gives, case by case. *)
Lemma next_step_cases (l : LineObj) (a : str) (af : bool) :
  a <> [] ->
  next_step a af l = (exhausted l, -1) \/
  exists p, next_step a af l = (moved_to l a p, p) /\
            occurs_at (text l) a p = true /\
            find (text l) a (search_start l) <> -1 /\
            find (text l) a (search_start l) <= p.
Proof.
  intros Na.
  destruct (find_next_returns l a af _ _
              (eq_trans (next_step_returns l a af Na)
                 (f_equal Returns (surjective_pairing _))))
    as [[E1 E2] | (E1 & O & _ & F & B)].
  - left. rewrite (surjective_pairing (next_step a af l)), E1, E2. reflexivity.
  - right. exists (snd (next_step a af l)).
    rewrite (surjective_pairing (next_step a af l)) at 1. rewrite E1.
    repeat split; assumption.
Qed.

(** X8.  One pass lines one column up.  With a non-empty delimiter, after a
    pass that goes on, every line whose [find_next] found a delimiter (at
    [p]) has that delimiter at one and the same offset [maxpos]: its text is
    the old text with [maxpos - p] blanks in front of the delimiter,
    [last_find] is [maxpos] and [search_start] is just behind the delimiter. *)
Theorem align_pass_lines_up (a : str) (lines : list LineObj) (af : bool)
    (lines' : list LineObj) :
  a <> [] -> align_pass lines a af = Returns (lines', true) ->
  exists maxpos,
    0 <= maxpos /\ List.length lines' = List.length lines /\
    forall i l l1 p,
      nth_error lines i = Some l -> find_next l a af = Returns (l1, p) ->
      p <> -1 ->
      exists l',
        nth_error lines' i = Some l' /\ p <= maxpos /\
        text l' = splice (text l) p (spaces (maxpos - p)) /\
        occurs_at (text l') a maxpos = true /\
        last_find l' = maxpos /\ search_start l' = maxpos + len a.
Proof.
  intros Na E.
  destruct (py_max (map (fun l => snd (next_step a af l)) lines)) as [m|] eqn:M.
  - rewrite (align_pass_steps lines a af m Na M) in E.
    destruct (m <? 0) eqn:M0; [discriminate|]. apply Z.ltb_ge in M0.
    injection E as <-. exists m. split; [assumption|].
    split; [apply length_map|].
    intros i l l1 p I F N. rewrite (next_step_returns l a af Na) in F.
    injection F as F. 
    exists (align_line m l1). split.
    + rewrite nth_error_map, I. cbn [option_map]. rewrite F. reflexivity.
    + assert (Pm : p <= m).
      { destruct (py_max_spec (map (fun l => snd (next_step a af l)) lines))
          as (m' & M' & _ & Le).
        { apply nth_error_In in I. destruct lines; [destruct I | discriminate]. }
        rewrite M in M'. injection M' as <-. apply Le.
        apply in_map_iff. exists l. rewrite F. split; [reflexivity|].
        apply (nth_error_In _ _ I). }
      destruct (find_next_returns l a af l1 p
                  (eq_trans (next_step_returns l a af Na) (f_equal Returns F)))
        as [[_ ->] | (-> & O & L & _)]; [congruence|].
      pose proof (occurs_at_bound _ _ _ O) as [P0 P1]. pose proof (len_nonneg a).
      destruct (align_line_moved l a p m ltac:(lia) ltac:(lia)) as (T & S & Lf).
      split; [assumption|]. split; [assumption|]. split; [|split; assumption].
      rewrite T.
      replace m with (p + len (spaces (m - p))) at 2
        by (rewrite len_spaces; lia).
      rewrite occurs_at_splice_behind; [assumption | lia | lia].
  - unfold align_pass in E. rewrite (find_next_all_steps _ _ _ Na) in E.
    cbn [bind] in E. rewrite M in E. discriminate.
Qed.

Lemma align_pass_lines_up_witness :
  exists maxpos,
    0 <= maxpos /\
    List.length [mkLineObj 0 3 (py "a  |b") 4 3; mkLineObj 4 9 (py "ccc|d") 4 3]
    = List.length (lines_of ["a|b"; "ccc|d"]%string) /\
    forall i l l1 p,
      nth_error (lines_of ["a|b"; "ccc|d"]%string) i = Some l ->
      find_next l (py "|") true = Returns (l1, p) -> p <> -1 ->
      exists l',
        nth_error
          [mkLineObj 0 3 (py "a  |b") 4 3; mkLineObj 4 9 (py "ccc|d") 4 3] i
        = Some l' /\ p <= maxpos /\
        text l' = splice (text l) p (spaces (maxpos - p)) /\
        occurs_at (text l') (py "|") maxpos = true /\
        last_find l' = maxpos /\ search_start l' = maxpos + len (py "|").
Proof.
  apply (align_pass_lines_up (py "|") (lines_of ["a|b"; "ccc|d"]%string) true);
    [discriminate | reflexivity].
Defined.

(** ** What a run keeps *)

Lemma same_row_refl (l : LineObj) : same_row l l.
Proof. unfold same_row. repeat split; lia. Qed.

Lemma same_row_trans (l1 l2 l3 : LineObj) :
  same_row l1 l2 -> same_row l2 l3 -> same_row l1 l3.
Proof.
  unfold same_row. intros (B & E & U & L) (B' & E' & U' & L').
  repeat split; try congruence. lia.
Qed.

Lemma Forall2_same_row_trans (xs ys zs : list LineObj) :
  Forall2 same_row xs ys -> Forall2 same_row ys zs -> Forall2 same_row xs zs.
Proof.
  intros A. revert zs. induction A as [|x y xs ys R A IH]; intros zs B.
  - inversion B. constructor.
  - inversion B as [|y' z ys' zs' R' B']; subst. constructor.
    + apply (same_row_trans _ _ _ R R').
    + apply IH. assumption.
Qed.

Lemma find_next_same_row (l : LineObj) (a : str) (af : bool) (l' : LineObj)
    (r : Z) :
  find_next l a af = Returns (l', r) -> same_row l l'.
Proof.
  intros E. destruct (find_next_returns _ _ _ _ _ E) as [[-> _] | (-> & _)];
    unfold same_row; cbn; repeat split; lia.
Qed.

Lemma find_next_all_same_row (lines : list LineObj) (a : str) (af : bool) :
  forall ls ps, find_next_all lines a af = Returns (ls, ps) ->
                Forall2 same_row lines ls.
Proof.
  induction lines as [|l lines IH]; intros ls ps E; cbn [find_next_all] in E.
  - injection E as <- _. constructor.
  - destruct (find_next l a af) as [[l' p] | |] eqn:F; try discriminate.
    cbn [bind] in E.
    destruct (find_next_all lines a af) as [[ls' ps'] | |] eqn:G;
      try discriminate.
    cbn [bind] in E. injection E as <- _. constructor.
    + apply (find_next_same_row _ _ _ _ _ F).
    + apply (IH _ _ eq_refl).
Qed.

Lemma unpadded_app (s u : str) : unpadded (s ++ u) = unpadded s ++ unpadded u.
Proof. apply filter_app. Qed.

Lemma unpadded_spaces (n : Z) : unpadded (spaces n) = [].
Proof.
  unfold spaces. induction (Z.to_nat n) as [|k IH]; [reflexivity|].
  cbn. exact IH.
Qed.

Lemma align_line_same_row (m : Z) (l : LineObj) : same_row l (align_line m l).
Proof.
  unfold align_line. destruct (last_find l <? 0); [apply same_row_refl|].
  destruct (last_find l <? m); [|apply same_row_refl].
  pose proof (insert_text l (last_find l) (spaces (m - last_find l))) as T.
  destruct (insert_cursors l (last_find l) (spaces (m - last_find l)))
    as (_ & _ & B & E).
  cbv zeta in T. unfold same_row. rewrite T, B, E.
  split; [reflexivity|]. split; [reflexivity|]. split.
  - rewrite !unpadded_app, unpadded_spaces. cbn [app].
    rewrite <- unpadded_app, firstn_skipn. reflexivity.
  - rewrite !len_app.
    pose proof (len_nonneg (spaces (m - last_find l))).
    rewrite <- (firstn_skipn
                  (Z.to_nat (Z.min (Z.max (last_find l) 0) (len (text l))))
                  (text l)) at 1.
    rewrite len_app. lia.
Qed.

(** X9.  Alignment only ever puts blanks in.  When the run of passes ends by
    itself, it hands back as many lines as it was given, in the same order,
    with the offsets they had, each text at least as long as before and with
    the same characters other than blanks, in the same order. *)
Theorem align_columns_same_rows (timer : Timer) :
  forall (lines : list LineObj) (a : str) (af : bool) (out : list LineObj),
    align_columns timer lines a af = Returns (Aligned out) ->
    Forall2 same_row lines out.
Proof.
  induction timer as [|timer IH]; intros lines a af out E;
    cbn [align_columns] in E; [discriminate|].
  destruct (align_pass lines a af) as [[ls again] | |] eqn:P; try discriminate.
  cbn [bind] in E. unfold align_pass in P.
  destruct (find_next_all lines a af) as [[ls' ps] | |] eqn:F;
    try discriminate.
  cbn [bind] in P. pose proof (find_next_all_same_row _ _ _ _ _ F) as S.
  destruct (py_max ps) as [m|]; [|discriminate].
  destruct (m <? 0); injection P as <- <-.
  - injection E as <-. assumption.
  - apply (Forall2_same_row_trans _ _ _ S).
    apply (Forall2_same_row_trans _ (map (align_line m) ls')).
    + clear. induction ls' as [|l ls IH]; constructor;
        [apply align_line_same_row | assumption].
    + apply (IH _ _ _ _ E).
Qed.

Lemma align_columns_same_rows_witness :
  Forall2 same_row (lines_of table_rows)
    [mkLineObj 0 16 (py "this|is|   |a   |table") 22 16;
     mkLineObj 17 36 (py "it  |  |has|some|values") 23 16].
Proof.
  apply (align_columns_same_rows 5%nat (lines_of table_rows) (py "|") true).
  vm_compute. reflexivity.
Defined.

(** ** The run ends *)

Lemma remaining_cons (l : LineObj) (lines : list LineObj) :
  remaining (l :: lines) = len (text l) - search_start l + remaining lines.
Proof. reflexivity. Qed.

Lemma align_line_ordered (m : Z) (l : LineObj) :
  cursors_ordered l ->
  cursors_ordered (align_line m l) /\
  len (text (align_line m l)) - search_start (align_line m l)
  = len (text l) - search_start l.
Proof.
  intros [[F0 F1] S1]. unfold align_line.
  destruct (last_find l <? 0); [split; [split; [split|]; assumption | reflexivity]|].
  destruct (last_find l <? m) eqn:C;
    [|split; [split; [split|]; assumption | reflexivity]].
  apply Z.ltb_lt in C.
  destruct (insert_inside l (last_find l) (spaces (m - last_find l))
              ltac:(lia)) as (T & S & F & _).
  rewrite Z.leb_refl in F.
  replace (last_find l <=? search_start l) with true in S
    by (symmetry; apply Z.leb_le; assumption).
  unfold cursors_ordered. rewrite T, S, F, len_splice by lia.
  pose proof (len_nonneg (spaces (m - last_find l))). lia.
Qed.

Lemma next_step_ordered (a : str) (af : bool) (l : LineObj) :
  a <> [] -> cursors_ordered l ->
  cursors_ordered (fst (next_step a af l)) /\
  (snd (next_step a af l) = -1 \/ 0 <= snd (next_step a af l)) /\
  len (text (fst (next_step a af l))) - search_start (fst (next_step a af l))
    <= len (text l) - search_start l /\
  (snd (next_step a af l) <> -1 ->
   len (text (fst (next_step a af l))) - search_start (fst (next_step a af l))
     < len (text l) - search_start l).
Proof.
  intros Na [[F0 F1] S1]. pose proof (len_pos a Na) as La.
  destruct (next_step_cases l a af Na) as [-> | (p & -> & O & F & B)];
    cbn [fst snd].
  - unfold cursors_ordered, exhausted.
    cbn [set_search_start text search_start last_find].
    split; [lia|]. split; [left; reflexivity|]. split; [lia|]. congruence.
  - pose proof (occurs_at_bound _ _ _ O) as [P0 P1].
    destruct (find_found (text l) a (search_start l) _ ltac:(lia) eq_refl F)
      as (B' & _).
    unfold cursors_ordered, moved_to. cbn [text search_start last_find].
    split; [lia|]. split; [right; assumption|]. split; lia.
Qed.

Lemma remaining_nonneg (lines : list LineObj) :
  Forall cursors_ordered lines -> 0 <= remaining lines.
Proof.
  induction 1 as [|l lines [_ S] _ IH]; [cbn; lia|].
  rewrite remaining_cons. lia.
Qed.

(** A pass that goes on leaves less to go over. *)
Lemma align_pass_less (a : str) (af : bool) (m : Z) (lines : list LineObj) :
  a <> [] -> Forall cursors_ordered lines ->
  Forall cursors_ordered
    (map (fun l => align_line m (fst (next_step a af l))) lines) /\
  remaining (map (fun l => align_line m (fst (next_step a af l))) lines)
    <= remaining lines /\
  (0 <= m -> In m (map (fun l => snd (next_step a af l)) lines) ->
   remaining (map (fun l => align_line m (fst (next_step a af l))) lines)
     < remaining lines).
Proof.
  intros Na W. induction W as [|l lines Wl W IH].
  - split; [constructor|]. split; [cbn; lia | intros _ []].
  - destruct IH as (IW & ILe & ILt).
    destruct (next_step_ordered a af l Na Wl) as (W1 & _ & Le & Lt).
    destruct (align_line_ordered m _ W1) as (W2 & Eq).
    cbn [map]. rewrite !remaining_cons. split; [constructor; assumption|].
    split; [lia|]. intros M0 [E | I].
    + specialize (Lt ltac:(lia)). lia.
    + specialize (ILt M0 I). lia.
Qed.

(** X10.  With a non-empty delimiter the passes end by themselves: on lines
    whose cursors stand in order (as on new lines), a run allowed more polls
    of the timer than there are characters behind the search cursors comes
    to its [break], neither timing out nor raising nor hanging. *)
Theorem align_columns_ends (timer : Timer) :
  forall (lines : list LineObj) (a : str) (af : bool),
    a <> [] -> lines <> [] -> Forall cursors_ordered lines ->
    remaining lines < Z.of_nat timer ->
    exists out, align_columns timer lines a af = Returns (Aligned out).
Proof.
  induction timer as [|timer IH]; intros lines a af Na Nl W R.
  - pose proof (remaining_nonneg _ W). lia.
  - cbn [align_columns].
    destruct (py_max_spec (map (fun l => snd (next_step a af l)) lines))
      as (m & M & Im & _).
    { destruct lines; [congruence | discriminate]. }
    rewrite (align_pass_steps lines a af m Na M).
    destruct (m <? 0) eqn:M0; cbn [bind]; [eexists; reflexivity|].
    apply Z.ltb_ge in M0.
    destruct (align_pass_less a af m lines Na W) as (W' & _ & Lt).
    specialize (Lt M0 Im).
    apply IH; try assumption.
    + destruct lines; [congruence | discriminate].
    + lia.
Qed.

Lemma align_columns_ends_witness :
  exists out,
    align_columns 36%nat (lines_of table_rows) (py "|") false
    = Returns (Aligned out).
Proof.
  apply (align_columns_ends 36%nat (lines_of table_rows) (py "|") false).
  - discriminate.
  - discriminate.
  - repeat constructor; vm_compute; discriminate.
  - vm_compute. reflexivity.
Defined.

(** ** Columns after a run *)

Lemma scans_fun (t a : str) (from : Z) (ms ms' : list Z) :
  scans t a from ms -> scans t a from ms' -> ms = ms'.
Proof.
  intros S. revert ms'. induction S as [from E | from p ps E N S IH];
    intros ms' S'; inversion S' as [from' E' | from' p' ps' E' N' S'']; subst.
  - reflexivity.
  - congruence.
  - congruence.
  - f_equal. apply IH. assumption.
Qed.

Lemma scans_occurrences (t a : str) (ms : list Z) :
  a <> [] -> scans t a 0 ms -> occurrences t a = ms.
Proof.
  intros Na S. apply (scans_fun t a 0); [|assumption].
  apply occurrences_scans. assumption.
Qed.

(** X11.  A run lines the columns up.  With [alignfirst] set, a delimiter
    that is not empty and holds no blank, and rows that all hold the same
    number [n] of delimiters, a run that may poll its timer more than [n]
    times ends with rows in which the delimiters stand at the same [n]
    offsets in every row. *)
Theorem run_lines_columns_up (a : str) (rows : list LineObj) (n : nat)
    (timer : Timer) :
  a <> [] -> ~ In " "%char a -> rows <> [] ->
  (forall l, In l rows -> columns (text l) a = n) ->
  (n < timer)%nat ->
  exists out ms,
    align_columns timer (map reread rows) a true = Returns (Aligned out) /\
    List.length ms = n /\
    forall l, In l out -> occurrences (text l) a = ms.
Proof.
  intros Na Nb Nr C T.
  destruct (first_run a Na Nb n timer (map reread rows) [] 0)
    as (out & ms & R & No & Lm & Sc).
  - destruct rows; [congruence | discriminate].
  - lia.
  - intros l' I. apply in_map_iff in I. destruct I as (l & <- & I).
    unfold underway, reread. cbn [LineObj_init search_start text].
    split; [reflexivity|]. split; [constructor|].
    exists (occurrences (text l) a). split.
    + apply occurrences_scans. assumption.
    + apply C. assumption.
  - assumption.
  - exists out, ms. split; [assumption|]. split; [exact Lm|].
    intros l I. apply scans_occurrences; [assumption|]. apply Sc. assumption.
Qed.

Lemma run_lines_columns_up_witness :
  exists out ms,
    align_columns 5%nat (map reread (lines_of table_rows)) (py "|") true
      = Returns (Aligned out) /\
    List.length ms = 4%nat /\
    forall l, In l out -> occurrences (text l) (py "|") = ms.
Proof.
  apply (run_lines_columns_up (py "|") (lines_of table_rows) 4%nat 5%nat).
  - discriminate.
  - vm_compute. intros [E | []]. discriminate E.
  - discriminate.
  - intros l [<- | [<- | []]]; reflexivity.
  - lia.
Defined.

(** X12.  Rows that are lined up stay as they are.  With [alignfirst] set and
    a non-empty delimiter, a run over new trackers of rows in which the
    delimiters stand at the same offsets [ms] in every row, allowed more
    polls than [ms] has offsets, ends and leaves every text unchanged. *)
Theorem aligned_rows_unchanged (a : str) (rows : list LineObj) (ms : list Z)
    (timer : Timer) :
  a <> [] -> rows <> [] ->
  (forall l, In l rows -> occurrences (text l) a = ms) ->
  (List.length ms < timer)%nat ->
  exists out,
    align_columns timer (map reread rows) a true = Returns (Aligned out) /\
    map text out = map text rows.
Proof.
  intros Na Nr O T.
  destruct (aligned_run a Na ms timer (map reread rows)) as (out & R & Tx).
  - destruct rows; [congruence | discriminate].
  - intros l' I. apply in_map_iff in I. destruct I as (l & <- & I).
    unfold reread. cbn [LineObj_init search_start text].
    rewrite <- (O l I). apply occurrences_scans. assumption.
  - assumption.
  - exists out. split; [assumption|]. rewrite Tx, map_map. reflexivity.
Qed.

Lemma aligned_rows_unchanged_witness :
  exists out,
    align_columns 3%nat
      (map reread (lines_of ["ab | c |"; "x  | yy|"]%string)) (py "|") true
      = Returns (Aligned out) /\
    map text out = map text (lines_of ["ab | c |"; "x  | yy|"]%string).
Proof.
  apply (aligned_rows_unchanged (py "|")
           (lines_of ["ab | c |"; "x  | yy|"]%string) [3; 7] 3%nat).
  - discriminate.
  - discriminate.
  - intros l [<- | [<- | []]]; reflexivity.
  - cbn. lia.
Defined.

(** ** The batch and the command around the passes *)

Section Command.

Context {V : Type} `{View V}.

Lemma gather_lines_acc (P : LineObj -> Prop) (view : V) (a : str)
    (timer : Timer) :
  forall (line : option LineObj) (acc : list LineObj) (timer' : Timer)
         (lines : list LineObj),
    (forall loc l, get_line view loc = Some l -> P l) ->
    (forall l, line = Some l -> P l) ->
    Forall (fun l => P l /\ contains (text l) a = true) acc ->
    gather_lines timer view a line acc = Some (timer', lines) ->
    Forall (fun l => P l /\ contains (text l) a = true) lines /\
    (timer' + List.length lines = timer + List.length acc)%nat.
Proof.
  induction timer as [|timer IH]; intros line acc timer' lines G L A E.
  - destruct line as [l|]; cbn [gather_lines] in E.
    + destruct (contains (text l) a); [discriminate|].
      injection E as <- <-. split; [assumption | reflexivity].
    + injection E as <- <-. split; [assumption | reflexivity].
  - destruct line as [l|]; cbn [gather_lines] in E.
    + destruct (contains (text l) a) eqn:C.
      * apply IH in E.
        -- destruct E as (F & N). split; [assumption|].
           rewrite length_app in N. cbn [List.length] in N. lia.
        -- assumption.
        -- intros l' E'. apply (G _ _ E').
        -- apply Forall_app. split; [assumption|].
           constructor; [|constructor]. split; [apply L; reflexivity | assumption].
      * injection E as <- <-. split; [assumption | reflexivity].
    + injection E as <- <-. split; [assumption | reflexivity].
Qed.

Lemma get_line_new (view : V) (loc : Z) (l : LineObj) :
  get_line view loc = Some l -> search_start l = 0 /\ last_find l = 0.
Proof.
  unfold get_line. destruct (view_size view <=? loc); [discriminate|].
  intros [= <-]. split; reflexivity.
Qed.

(** X13.  The batch holds the delimiter in every line.  The lines the
    command gathers, from the cursor's line on, are new trackers (both
    cursors at 0) whose texts all contain the delimiter, and gathering them
    took one poll of the timer for each. *)
Theorem gather_lines_batch (view : V) (a : str) (timer : Timer) (start : Z)
    (timer' : Timer) (lines : list LineObj) :
  gather_lines timer view a (get_line view start) [] = Some (timer', lines) ->
  (forall l, In l lines ->
     contains (text l) a = true /\ search_start l = 0 /\ last_find l = 0) /\
  (timer' + List.length lines = timer)%nat.
Proof.
  intros E.
  destruct (gather_lines_acc
              (fun l => search_start l = 0 /\ last_find l = 0)
              view a timer (get_line view start) [] timer' lines)
    as (F & N).
  - intros loc l G. apply (get_line_new _ _ _ G).
  - intros l G. apply (get_line_new _ _ _ G).
  - constructor.
  - assumption.
  - split; [|cbn [List.length] in N; lia].
    intros l I. rewrite Forall_forall in F. destruct (F l I) as ((S & L) & C).
    repeat split; assumption.
Qed.

(** X14.  A cursor's line without the delimiter makes the command fail.  When
    the selection lies in one line and that line cannot be read or does not
    contain the delimiter (as when an empty selection stands at the end of
    its line, so the delimiter is the line break), no line is gathered and
    the command raises [IndexError] at [lines[0]], having edited nothing. *)
Theorem delimiter_not_on_line (view : V) (cursor : Region) (timer : Timer)
    (alignfirst : bool) :
  let cursorline := view_line view (sublime.begin cursor) in
  let alignstr :=
    if 0 <? sublime.size cursor then view_substr view cursor
    else view_substr view
           (mkRegion (sublime.begin cursor) (sublime.begin cursor + 1)) in
  let view' :=
    match alignstr with
    | [] => status_message view (py "Programmer error: empty align string")
    | _ :: _ => view
    end in
  sublime.begin (view_line view (sublime.end_ cursor))
    = sublime.begin cursorline ->
  (forall l, get_line view' (sublime.begin cursorline) = Some l ->
             contains (text l) alignstr = false) ->
  align_by_selected_str view cursor timer alignfirst
  = (view', Raises IndexError).
Proof.
  intros cursorline alignstr view' L C. unfold align_by_selected_str.
  fold cursorline. rewrite L, Z.eqb_refl. cbn [negb].
  fold alignstr. fold view'.
  destruct (get_line view' (sublime.begin cursorline)) as [l|] eqn:G.
  - specialize (C l eq_refl).
    replace (gather_lines timer view' alignstr (Some l) [])
      with (Some (timer, @nil LineObj)); [reflexivity|].
    destruct timer; cbn [gather_lines]; rewrite C; reflexivity.
  - rewrite gather_lines_done. reflexivity.
Qed.

(** X15.  The command edits at most once, and never inserts.  Whatever the
    selection, the timer and the policy, the editor after
    [align_by_selected_str] is the editor before it with some messages
    shown, or that editor with one replace made on it as the last thing. *)
Theorem align_by_selected_str_edits_once (view : V) (cursor : Region)
    (timer : Timer) (alignfirst : bool) :
  exists msgs,
    let shown := fold_left status_message msgs view in
    fst (align_by_selected_str view cursor timer alignfirst) = shown \/
    exists reg s,
      align_by_selected_str view cursor timer alignfirst
      = (view_replace shown reg s, Returns RNone).
Proof.
  unfold align_by_selected_str.
  destruct (negb _); [eexists [_]; left; reflexivity|].
  set (alignstr := if 0 <? sublime.size cursor then _ else _).
  assert (W : exists msgs,
             match alignstr with
             | [] => status_message view
                       (py "Programmer error: empty align string")
             | _ :: _ => view
             end = fold_left status_message msgs view).
  { destruct alignstr; [eexists [_] | exists []]; reflexivity. }
  destruct W as (msgs & ->).
  destruct (gather_lines _ _ _ _ _) as [[timer' lines]|];
    [|exists (msgs ++ [py "Programmer error: timeout on line 197"]); left;
      cbv zeta; rewrite fold_left_app; reflexivity].
  destruct lines as [|first rest]; [exists msgs; left; reflexivity|].
  destruct (align_columns _ _ _ _) as [[out|] | e |].
  - exists msgs. right. do 2 eexists. reflexivity.
  - exists (msgs ++ [py "Programmer error: timeout on line 204"]). left.
    cbv zeta. rewrite fold_left_app. reflexivity.
  - exists msgs. left. reflexivity.
  - exists msgs. left. reflexivity.
Qed.

End Command.

Lemma delimiter_not_on_line_witness :
  let view :=
    Editor.open ("a|b" ++ String "010"%char "c|d")%string [] 4 in
  align_by_selected_str view (mkRegion 3 3) 5%nat true
  = (view, Raises IndexError).
Proof.
  cbv zeta.
  rewrite (@delimiter_not_on_line _ Editor.view
             (Editor.open ("a|b" ++ String "010"%char "c|d")%string [] 4)
             (mkRegion 3 3) 5%nat true).
  - vm_compute. reflexivity.
  - vm_compute. reflexivity.
  - intros l E. vm_compute in E. injection E as <-. vm_compute. reflexivity.
Defined.

Lemma gather_lines_batch_witness :
  let view := Editor.open table [] 4 in
  (forall l,
     In l (lines_of table_rows) ->
     contains (text l) (py "|") = true /\ search_start l = 0 /\
     last_find l = 0) /\
  (3 + List.length (lines_of table_rows) = 5)%nat.
Proof.
  cbv zeta.
  apply (@gather_lines_batch _ Editor.view (Editor.open table [] 4) (py "|")
           5%nat 0 3%nat (lines_of table_rows)).
  vm_compute. reflexivity.
Defined.

(** ** Sorting *)

Lemma sorted_insert_perm {A} (before : A -> A -> bool) (x : A) (l : list A) :
  Permutation (sorted_insert before x l) (x :: l).
Proof.
  induction l as [|y l IH]; cbn [sorted_insert]; [reflexivity|].
  destruct (before x y); [reflexivity|].
  rewrite IH. apply perm_swap.
Qed.

Lemma sorted_perm {A} (before : A -> A -> bool) (l : list A) :
  Permutation (sorted before l) l.
Proof.
  induction l as [|x l IH]; [reflexivity|].
  unfold sorted in *. cbn [fold_right].
  rewrite sorted_insert_perm. apply perm_skip. assumption.
Qed.

Lemma sorted_insert_sorted {A} (before : A -> A -> bool) (x : A)
    (l : list A) :
  (forall u v, before u v = false -> before v u = true) ->
  Sorted (fun u v => before u v = true) l ->
  Sorted (fun u v => before u v = true) (sorted_insert before x l).
Proof.
  intros Tot S. induction S as [|y l S IH Hd]; cbn [sorted_insert].
  - repeat constructor.
  - destruct (before x y) eqn:B.
    + constructor; [constructor; assumption | constructor; assumption].
    + constructor; [assumption|].
      destruct l as [|z l]; cbn [sorted_insert].
      * constructor. apply Tot. assumption.
      * destruct (before x z); constructor.
        -- apply Tot. assumption.
        -- inversion Hd. assumption.
Qed.

Lemma sorted_sorted {A} (before : A -> A -> bool) (l : list A) :
  (forall u v, before u v = false -> before v u = true) ->
  Sorted (fun u v => before u v = true) (sorted before l).
Proof.
  intros Tot. induction l as [|x l IH]; [constructor|].
  unfold sorted in *. cbn [fold_right].
  apply sorted_insert_sorted; assumption.
Qed.

(** ** [get_active_cursors] *)

Section Cursors.

Context {V : Type} `{View V}.

Lemma rich_cursors_of_spec (view : V) (tabsize : Z)
    (search_cursors : list Region) :
  forall (timer : Timer) (acc : list RichCursor) (timer' : Timer)
         (rich_cursors : list RichCursor),
    rich_cursors_of timer view tabsize search_cursors acc
      = Some (timer', rich_cursors) ->
    Forall (fun c => rc_loc c = sublime.begin (rc_reg c) /\
                     rc_line c = view_line view (rc_loc c)) acc ->
    Forall (fun c => rc_loc c = sublime.begin (rc_reg c) /\
                     rc_line c = view_line view (rc_loc c)) rich_cursors /\
    map rc_reg rich_cursors = map rc_reg acc ++ search_cursors /\
    (timer' + List.length search_cursors = timer)%nat.
Proof.
  induction search_cursors as [|reg rest IH];
    intros timer acc timer' rich E A; cbn [rich_cursors_of] in E.
  - injection E as <- <-. rewrite app_nil_r.
    split; [assumption|]. split; [reflexivity | cbn [List.length]; lia].
  - destruct (view_rowcol view (sublime.begin reg)) as [row col].
    destruct timer as [|timer]; [discriminate|].
    apply IH in E.
    + destruct E as (F & M & T). split; [assumption|]. split.
      * rewrite M, map_app, <- app_assoc. reflexivity.
      * cbn [List.length]. lia.
    + apply Forall_app. split; [assumption|].
      constructor; [|constructor]. split; reflexivity.
Qed.

(** The timer ticks in the loop over the cursors just when it has fewer polls
    left than there are cursors. *)
Lemma rich_cursors_of_timeout (view : V) (tabsize : Z)
    (search_cursors : list Region) :
  forall (timer : Timer) (acc : list RichCursor),
    (timer < List.length search_cursors)%nat ->
    rich_cursors_of timer view tabsize search_cursors acc = None.
Proof.
  induction search_cursors as [|reg rest IH]; intros timer acc L;
    cbn [List.length] in L; [lia|].
  cbn [rich_cursors_of].
  destruct (view_rowcol view (sublime.begin reg)) as [row col].
  destruct timer as [|timer]; [reflexivity|]. apply IH. lia.
Qed.

Lemma first_per_line_perm (l : list RichCursor) :
  forall prev firsts others,
    first_per_line prev l = (firsts, others) ->
    Permutation (map rc_reg firsts ++ others) (map rc_reg l) /\
    incl firsts l.
Proof.
  induction l as [|x l IH]; intros prev firsts others E;
    cbn [first_per_line] in E.
  - injection E as <- <-. split; [reflexivity | apply incl_refl].
  - destruct (first_per_line (sublime.begin (rc_line x)) l) as [fs os] eqn:R.
    destruct (IH _ _ _ R) as (P & I).
    destruct (negb _); injection E as <- <-; cbn [map app].
    + split; [apply perm_skip; assumption|].
      intros c [<- | C]; [left; reflexivity | right; apply I; assumption].
    + split.
      * rewrite <- Permutation_middle. apply perm_skip. assumption.
      * intros c C. right. apply I. assumption.
Qed.

Lemma py_max_some (l : list Z) (m : Z) :
  py_max l = Some m -> In m l /\ forall y, In y l -> y <= m.
Proof.
  intros E. destruct l as [|x xs]; [discriminate|].
  injection E as <-. destruct (fold_max_spec xs x) as (A & B & C). split.
  - destruct C as [-> | C]; [left; reflexivity | right; assumption].
  - intros y [<- | I]; [assumption | apply B; assumption].
Qed.

(** X16.  No cursor is lost.  When [get_active_cursors] returns its three
    values, it has left the editor alone and polled the timer once for each
    cursor, and the cursors it was given are, each exactly once, either among
    the active ones or among those set aside to wait. *)
Theorem get_active_cursors_splits (view : V) (search_cursors : list Region)
    (timer : Timer) (view' : V) (timer' : Timer) (active : list RichCursor)
    (waiting : list Region) (maxpos : Z) :
  get_active_cursors view search_cursors timer
    = (view', timer', Returns (Some (active, waiting, maxpos))) ->
  view' = view /\
  (timer' + List.length search_cursors = timer)%nat /\
  Permutation (map rc_reg active ++ waiting) search_cursors /\
  (forall c, In c active -> rc_loc c = sublime.begin (rc_reg c)).
Proof.
  unfold get_active_cursors. intros E.
  destruct (rich_cursors_of timer view (view_tab_size view) search_cursors [])
    as [[t rich]|] eqn:R; [|discriminate].
  destruct (rich_cursors_of_spec _ _ _ _ _ _ _ R (Forall_nil _))
    as (F & M & T). cbn [map app] in M.
  destruct (first_per_line (-1) _) as [firsts others] eqn:P.
  destruct (py_max _) as [m|]; [|discriminate].
  injection E as <- <- <- <- <-.
  destruct (first_per_line_perm _ _ _ _ P) as (Pm & I).
  split; [reflexivity|]. split; [assumption|]. split.
  - rewrite (Permutation_map rc_reg (sorted_perm _ firsts)), Pm, <- M.
    apply Permutation_map. apply sorted_perm.
  - intros c C. rewrite Forall_forall in F.
    apply (Permutation_in _ (sorted_perm _ firsts)) in C. apply I in C.
    apply (Permutation_in _ (sorted_perm _ rich)) in C.
    apply (F c C).
Qed.

(** X17.  The active cursors come back from the end of the buffer to its
    start, so that an insert at one does not move the ones still to come:
    each lies at or before every one listed before it.  [maxpos] is the
    position of one of them, and none of them has a greater one. *)
Theorem get_active_cursors_order (view : V) (search_cursors : list Region)
    (timer : Timer) (view' : V) (timer' : Timer) (active : list RichCursor)
    (waiting : list Region) (maxpos : Z) :
  get_active_cursors view search_cursors timer
    = (view', timer', Returns (Some (active, waiting, maxpos))) ->
  StronglySorted (fun x y => rc_loc y <= rc_loc x) active /\
  (exists c, In c active /\ rc_pos c = maxpos) /\
  (forall c, In c active -> rc_pos c <= maxpos).
Proof.
  unfold get_active_cursors. intros E.
  destruct (rich_cursors_of timer view (view_tab_size view) search_cursors [])
    as [[t rich]|]; [|discriminate].
  destruct (first_per_line (-1) _) as [firsts others].
  destruct (py_max _) as [m|] eqn:M; [|discriminate].
  injection E as <- <- <- <- <-.
  destruct (py_max_some _ _ M) as (I & Le). split; [|split].
  - apply Sorted_StronglySorted.
    + intros x y z A B. lia.
    + pose proof (sorted_sorted (fun x y => rc_loc y <=? rc_loc x) firsts) as S.
      assert (Tot : forall u v : RichCursor,
                 (rc_loc v <=? rc_loc u) = false ->
                 (rc_loc u <=? rc_loc v) = true).
      { intros u v B. apply Z.leb_gt in B. apply Z.leb_le. lia. }
      specialize (S Tot).
      eapply Sorted_ind with (P := Sorted (fun x y => rc_loc y <= rc_loc x));
        [constructor | | exact S].
      intros c l _ IH Hd. constructor; [assumption|].
      destruct Hd; constructor. apply Z.leb_le. assumption.
  - apply in_map_iff in I. destruct I as (c & Ec & I). exists c. tauto.
  - intros c C. apply Le. apply in_map_iff. exists c. tauto.
Qed.

(** X18.  When the timer ticks while [get_active_cursors] goes over the
    cursors, the command fails: with zero-width cursors only, at least one
    of them, and a timer that has a poll left but no more polls than there
    are cursors, [align_by_cursors] shows the timeout message of
    [get_active_cursors] and raises [ValueError], the two values returned
    not filling the three names they are unpacked into; it has edited
    nothing. *)
Theorem align_by_cursors_timeout_raises (view : V) (timer : Timer) :
  view_sel view <> [] ->
  (forall cursor, In cursor (view_sel view) -> sublime.size cursor = 0) ->
  (0 < timer <= List.length (view_sel view))%nat ->
  align_by_cursors view timer
  = (status_message view (py "Programmer error: timeout on line 141"),
     Raises ValueError).
Proof.
  intros N Z0 T. unfold align_by_cursors.
  assert (E : existsb (fun cursor => 0 <? sublime.size cursor) (view_sel view)
              = false).
  { destruct (existsb _ _) eqn:X; [|reflexivity].
    apply existsb_exists in X. destruct X as (c & I & S).
    rewrite (Z0 c I) in S. discriminate. }
  rewrite E. destruct timer as [|timer]; [lia|].
  destruct (view_sel view) as [|c cs] eqn:Sel; [congruence|].
  cbn [map cursor_passes]. unfold get_active_cursors.
  rewrite rich_cursors_of_timeout; [reflexivity|].
  cbn [List.length] in *. rewrite length_map. lia.
Qed.

Lemma pads_trans (u v w : V) : pads u v -> pads v w -> pads u w.
Proof.
  intros A B. induction B; [assumption | |]; constructor; assumption.
Qed.

Lemma tab_align_pads (maxpos : Z) (active : list RichCursor) :
  forall (view : V) (waiting : list Region),
    pads view (fst (tab_align view maxpos active waiting)).
Proof.
  induction active as [|c active IH]; intros view waiting;
    cbn [tab_align]; [constructor|].
  eapply pads_trans; [|apply IH].
  destruct (0 <? maxpos - rc_pos c); repeat constructor.
Qed.

Lemma get_active_cursors_pads (view : V) (search_cursors : list Region)
    (timer : Timer) :
  pads view (fst (fst (get_active_cursors view search_cursors timer))).
Proof.
  unfold get_active_cursors.
  destruct (rich_cursors_of _ _ _ _ _) as [[t rich]|];
    [|repeat constructor].
  destruct (first_per_line _ _). destruct (py_max _); constructor.
Qed.

Lemma cursor_passes_pads (turns : nat) :
  forall (timer : Timer) (view : V) (waiting : list Region),
    pads view (fst (cursor_passes turns timer view waiting)).
Proof.
  induction turns as [|turns IH]; intros timer view waiting.
  - destruct waiting; cbn [cursor_passes fst]; repeat constructor.
  - destruct waiting as [|reg waiting]; [constructor|].
    destruct timer as [|timer]; cbn [cursor_passes]; [repeat constructor|].
    pose proof (get_active_cursors_pads view (reg :: waiting) timer) as G.
    destruct (get_active_cursors view (reg :: waiting) timer)
      as [[view' timer'] r].
    cbn [fst] in G.
    destruct r as [[[[active others] maxpos]|] | e |]; try exact G.
    pose proof (tab_align_pads maxpos active view' others) as P.
    destruct (tab_align view' maxpos active others) as [view'' waiting'].
    cbn [fst] in P.
    apply (pads_trans _ _ _ G). apply (pads_trans _ _ _ P). apply IH.
Qed.

(** X19.  Cursor mode only pads.  Whatever the cursors and the timer, the
    editor after [align_by_cursors] is the editor before it with messages
    shown and blanks inserted, and nothing else done to it: no text is
    replaced and nothing but blanks is put in. *)
Theorem align_by_cursors_pads (view : V) (timer : Timer) :
  pads view (fst (align_by_cursors view timer)).
Proof.
  unfold align_by_cursors.
  destruct (existsb _ _); [repeat constructor | apply cursor_passes_pads].
Qed.

End Cursors.

Lemma get_active_cursors_splits_witness :
  let view := Editor.open table [] 4 in
  Permutation
    ([mkRegion 20 20; mkRegion 4 4] ++ [mkRegion 7 7])
    [mkRegion 7 7; mkRegion 20 20; mkRegion 4 4].
Proof.
  cbv zeta.
  destruct (@get_active_cursors_splits _ Editor.view
              (Editor.open table [] 4)
              [mkRegion 7 7; mkRegion 20 20; mkRegion 4 4] 9%nat
              (Editor.open table [] 4) 6%nat
              [mkRichCursor (mkRegion 20 20) 20 (mkRegion 17 36) 1 3 3;
               mkRichCursor (mkRegion 4 4) 4 (mkRegion 0 16) 0 4 4]
              [mkRegion 7 7] 4) as (_ & _ & P & _);
    [vm_compute; reflexivity | exact P].
Defined.

Lemma get_active_cursors_order_witness :
  StronglySorted (fun x y => rc_loc y <= rc_loc x)
    [mkRichCursor (mkRegion 20 20) 20 (mkRegion 17 36) 1 3 3;
     mkRichCursor (mkRegion 4 4) 4 (mkRegion 0 16) 0 4 4].
Proof.
  destruct (@get_active_cursors_order _ Editor.view
              (Editor.open table [] 4)
              [mkRegion 7 7; mkRegion 20 20; mkRegion 4 4] 9%nat
              (Editor.open table [] 4) 6%nat
              [mkRichCursor (mkRegion 20 20) 20 (mkRegion 17 36) 1 3 3;
               mkRichCursor (mkRegion 4 4) 4 (mkRegion 0 16) 0 4 4]
              [mkRegion 7 7] 4) as (S & _);
    [vm_compute; reflexivity | exact S].
Defined.

Lemma align_by_cursors_timeout_raises_witness :
  let view := Editor.open table [mkRegion 4 4; mkRegion 20 20] 4 in
  align_by_cursors view 2%nat
  = (Editor.say view (py "Programmer error: timeout on line 141"),
     Raises ValueError).
Proof.
  cbv zeta.
  rewrite (@align_by_cursors_timeout_raises _ Editor.view
             (Editor.open table [mkRegion 4 4; mkRegion 20 20] 4) 2%nat).
  - reflexivity.
  - discriminate.
  - intros c [<- | [<- | []]]; reflexivity.
  - cbn. lia.
Defined.

(** ** One active cursor a line *)

Lemma first_per_line_lines (l : list RichCursor) :
  forall prev firsts others,
    first_per_line prev l = (firsts, others) ->
    StronglySorted (fun x y => rc_line_begin x <= rc_line_begin y) l ->
    (forall c, In c l -> prev <= rc_line_begin c) ->
    StronglySorted (fun x y => rc_line_begin x < rc_line_begin y) firsts /\
    (forall c, In c firsts -> prev < rc_line_begin c) /\
    (forall c, In c l -> prev < rc_line_begin c ->
               exists f, In f firsts /\ rc_line_begin f = rc_line_begin c).
Proof.
  induction l as [|x l IH]; intros prev firsts others E S B;
    cbn [first_per_line] in E.
  - injection E as <- <-. split; [constructor|]. split; intros c [].
  - destruct (first_per_line (sublime.begin (rc_line x)) l) as [fs os] eqn:R.
    inversion S as [|x' l' S' Hx]; subst. rewrite Forall_forall in Hx.
    destruct (IH _ _ _ R S' Hx) as (Sf & Lf & Cf).
    fold (rc_line_begin x) in *.
    pose proof (B x (or_introl eq_refl)) as Bx.
    destruct (rc_line_begin x =? prev) eqn:Q; cbn [negb] in E;
      injection E as <- <-.
    + apply Z.eqb_eq in Q. split; [assumption|]. split.
      * intros c C. specialize (Lf c C). lia.
      * intros c [<- | C] P; [lia|]. apply Cf; [assumption | lia].
    + apply Z.eqb_neq in Q. split; [|split].
      * constructor; [assumption|]. apply Forall_forall. assumption.
      * intros c [<- | C]; [lia|]. specialize (Lf c C). lia.
      * intros c [<- | C] P.
        -- exists x. split; [left|]; reflexivity.
        -- destruct (Z.eq_dec (rc_line_begin c) (rc_line_begin x)) as [Eq|Ne].
           ++ exists x. split; [left; reflexivity | congruence].
           ++ specialize (Hx c C).
              destruct (Cf c C ltac:(lia)) as (f & If & Ef).
              exists f. split; [right; assumption | assumption].
Qed.

Lemma strictly_sorted_NoDup (l : list RichCursor) :
  StronglySorted (fun x y => rc_line_begin x < rc_line_begin y) l ->
  NoDup (map rc_line_begin l).
Proof.
  induction 1 as [|x l S IH Hx]; cbn [map]; constructor; [|assumption].
  intros I. apply in_map_iff in I. destruct I as (y & E & I).
  rewrite Forall_forall in Hx. specialize (Hx y I). lia.
Qed.

Section Lines.

Context {V : Type} `{View V}.

(** X20.  One active cursor a line.  In an editor whose lines begin at or
    after offset 0 and further on for a later offset, the active cursors
    [get_active_cursors] returns lie on different lines, and every line that
    holds one of the cursors given holds an active one. *)
Theorem get_active_cursors_one_per_line (view : V)
    (search_cursors : list Region) (timer : Timer) (view' : V)
    (timer' : Timer) (active : list RichCursor) (waiting : list Region)
    (maxpos : Z) :
  (forall p q, p <= q ->
     sublime.begin (view_line view p) <= sublime.begin (view_line view q)) ->
  (forall p, 0 <= sublime.begin (view_line view p)) ->
  get_active_cursors view search_cursors timer
    = (view', timer', Returns (Some (active, waiting, maxpos))) ->
  NoDup (map rc_line_begin active) /\
  forall reg, In reg search_cursors ->
    exists c, In c active /\
      rc_line_begin c = sublime.begin (view_line view (sublime.begin reg)).
Proof.
  intros Mono Pos. unfold get_active_cursors. intros E.
  destruct (rich_cursors_of timer view (view_tab_size view) search_cursors [])
    as [[t rich]|] eqn:R; [|discriminate].
  destruct (rich_cursors_of_spec _ _ _ _ _ _ _ R (Forall_nil _))
    as (F & M & _). cbn [map app] in M. rewrite Forall_forall in F.
  set (asc := sorted (fun x y => rc_loc x <=? rc_loc y) rich) in *.
  destruct (first_per_line (-1) asc) as [firsts others] eqn:P.
  destruct (py_max _) as [m|]; [|discriminate].
  injection E as <- <- <- <- <-.
  assert (Fa : forall c, In c asc ->
                 rc_line_begin c = sublime.begin (view_line view (rc_loc c)) /\
                 rc_loc c = sublime.begin (rc_reg c)).
  { intros c C. apply (Permutation_in _ (sorted_perm _ rich)) in C.
    destruct (F c C) as (A & B). unfold rc_line_begin. rewrite B. tauto. }
  assert (Sa : StronglySorted
                 (fun x y => rc_line_begin x <= rc_line_begin y) asc).
  { assert (S : StronglySorted (fun x y => (rc_loc x <=? rc_loc y) = true) asc).
    { apply Sorted_StronglySorted.
      - intros x y z A B. apply Z.leb_le in A, B. apply Z.leb_le. lia.
      - apply sorted_sorted. intros u v B. apply Z.leb_gt in B.
        apply Z.leb_le. lia. }
    clear - S Fa Mono. induction S as [|x l S IH Hx]; [constructor|].
    constructor.
    - apply IH. intros c C. apply Fa. right. assumption.
    - rewrite Forall_forall in *. intros y Y. specialize (Hx y Y).
      apply Z.leb_le in Hx.
      destruct (Fa x (or_introl eq_refl)) as (-> & _).
      destruct (Fa y (or_intror Y)) as (-> & _). apply Mono. assumption. }
  destruct (first_per_line_lines asc (-1) firsts others P Sa)
    as (Sf & _ & Cf).
  { intros c C. destruct (Fa c C) as (-> & _). specialize (Pos (rc_loc c)). lia. }
  split.
  - apply (Permutation_NoDup
             (Permutation_sym
                (Permutation_map rc_line_begin (sorted_perm (fun x y => rc_loc y <=? rc_loc x) firsts)))).
    apply strictly_sorted_NoDup. assumption.
  - intros reg I. rewrite <- M in I. apply in_map_iff in I.
    destruct I as (c & <- & C).
    apply (Permutation_in _ (Permutation_sym (sorted_perm (fun x y => rc_loc x <=? rc_loc y) rich))) in C.
    fold asc in C. destruct (Fa c C) as (Lc & Rc).
    destruct (Cf c C) as (f & If & Ef).
    { rewrite Lc. specialize (Pos (rc_loc c)). lia. }
    exists f. split.
    + apply (Permutation_in _ (Permutation_sym (sorted_perm (fun x y => rc_loc y <=? rc_loc x) firsts))).
      assumption.
    + rewrite Ef, Lc, Rc. reflexivity.
Qed.

End Lines.

Lemma get_active_cursors_one_per_line_witness :
  let c2 := mkRichCursor (mkRegion 2 2) 2 (mkRegion 2 3) 1 0 0 in
  let c0 := mkRichCursor (mkRegion 0 0) 0 (mkRegion 0 1) 0 0 0 in
  NoDup (map rc_line_begin [c2; c0]) /\
  forall reg, In reg [mkRegion 1 1; mkRegion 2 2; mkRegion 0 0] ->
    exists c, In c [c2; c0] /\
      rc_line_begin c
      = sublime.begin
          (Editor.line (Editor.open ("a" ++ String "010"%char "b")%string [] 4)
             (sublime.begin reg)).
Proof.
  cbv zeta.
  apply (@get_active_cursors_one_per_line _ Editor.view
           (Editor.open ("a" ++ String "010"%char "b")%string [] 4)
           [mkRegion 1 1; mkRegion 2 2; mkRegion 0 0] 9%nat
           (Editor.open ("a" ++ String "010"%char "b")%string [] 4) 6%nat
           [mkRichCursor (mkRegion 2 2) 2 (mkRegion 2 3) 1 0 0;
            mkRichCursor (mkRegion 0 0) 0 (mkRegion 0 1) 0 0 0]
           [mkRegion 1 1] 0).
  - intros p q L. change (@view_line _ Editor.view) with Editor.line.
    unfold Editor.line.
    assert (B : (Editor.clamp
                   (Editor.open ("a" ++ String "010"%char "b")%string [] 4) p
                 <= Editor.clamp
                      (Editor.open ("a" ++ String "010"%char "b")%string [] 4) q
                 <= 3)%nat).
    { unfold Editor.clamp.
      change (len (Editor.chars _)) with 3. lia. }
    destruct (Editor.clamp _ p) as [|[|[|[|n]]]];
      destruct (Editor.clamp _ q) as [|[|[|[|m]]]];
      try lia; vm_compute; discriminate.
  - intros p. change (@view_line _ Editor.view) with Editor.line.
    unfold Editor.line.
    assert (B : (Editor.clamp
                   (Editor.open ("a" ++ String "010"%char "b")%string [] 4) p
                 <= 3)%nat).
    { unfold Editor.clamp.
      change (len (Editor.chars _)) with 3. lia. }
    destruct (Editor.clamp _ p) as [|[|[|[|n]]]];
      try lia; vm_compute; discriminate.
  - vm_compute. reflexivity.
Defined.

(** ** The cursor loop ends *)

Section Passes.

Context {V : Type} `{View V}.

Hypothesis line_begin_known :
  forall (view : V) (p : Z), sublime.begin (view_line view p) <> -1.

Lemma rich_cursors_of_enough (view : V) (tabsize : Z)
    (search_cursors : list Region) :
  forall (timer : Timer) (acc : list RichCursor),
    (List.length search_cursors <= timer)%nat ->
    exists rich,
      rich_cursors_of timer view tabsize search_cursors acc
      = Some ((timer - List.length search_cursors)%nat, rich).
Proof.
  induction search_cursors as [|reg rest IH]; intros timer acc L;
    cbn [rich_cursors_of List.length] in *.
  - rewrite Nat.sub_0_r. eexists. reflexivity.
  - destruct (view_rowcol view (sublime.begin reg)) as [row col].
    destruct timer as [|timer]; [lia|].
    apply IH. lia.
Qed.

Lemma padded_trans (u v w : V) : padded u v -> padded v w -> padded u w.
Proof.
  intros A B. induction B; [assumption|]. constructor. assumption.
Qed.

Lemma tab_align_padded (maxpos : Z) (active : list RichCursor) :
  forall (view : V) (waiting : list Region),
    padded view (fst (tab_align view maxpos active waiting)) /\
    List.length (snd (tab_align view maxpos active waiting))
    = List.length waiting.
Proof.
  induction active as [|c active IH]; intros view waiting;
    cbn [tab_align]; [split; [constructor | reflexivity]|].
  match goal with
  | |- context [tab_align ?v maxpos active ?w] =>
      destruct (IH v w) as (P & L); split;
      [apply (padded_trans _ v); [|exact P] | rewrite L; apply length_map]
  end.
  destruct (0 <? maxpos - rc_pos c); repeat constructor.
Qed.

(** With polls enough for its cursors, [get_active_cursors] returns its
    three values, at least one cursor active, fewer waiting than given. *)
Lemma get_active_cursors_enough (view : V) (search_cursors : list Region)
    (timer : Timer) :
  search_cursors <> [] -> (List.length search_cursors <= timer)%nat ->
  exists active waiting maxpos,
    get_active_cursors view search_cursors timer
    = (view, (timer - List.length search_cursors)%nat,
       Returns (Some (active, waiting, maxpos))) /\
    (List.length waiting < List.length search_cursors)%nat.
Proof.
  intros N L. unfold get_active_cursors.
  destruct (rich_cursors_of_enough view (view_tab_size view) search_cursors
              timer [] L) as (rich & R).
  rewrite R.
  destruct (rich_cursors_of_spec _ _ _ _ _ _ _ R (Forall_nil _))
    as (F & M & _). cbn [map app] in M.
  set (asc := sorted (fun x y => rc_loc x <=? rc_loc y) rich).
  assert (Pa : Permutation asc rich) by apply sorted_perm.
  destruct (first_per_line (-1) asc) as [firsts others] eqn:P.
  destruct (first_per_line_perm _ _ _ _ P) as (Pm & _).
  assert (Nf : firsts <> []).
  { destruct asc as [|x asc'] eqn:A.
    - apply Permutation_nil in Pa. subst rich. cbn in M. congruence.
    - cbn [first_per_line] in P.
      destruct (first_per_line (sublime.begin (rc_line x)) asc').
      assert (X : In x rich).
      { apply (Permutation_in _ Pa). left. reflexivity. }
      rewrite Forall_forall in F. destruct (F x X) as (_ & Lx).
      assert (Q : (sublime.begin (rc_line x) =? -1) = false).
      { apply Z.eqb_neq. rewrite Lx. apply line_begin_known. }
      rewrite Q in P. cbn [negb] in P. injection P as <- _. discriminate. }
  set (active := sorted (fun x y => rc_loc y <=? rc_loc x) firsts).
  assert (Pf : Permutation active firsts) by apply sorted_perm.
  destruct (py_max (map rc_pos active)) as [m|] eqn:Mx.
  - exists active, others, m. split; [reflexivity|].
    apply Permutation_length in Pm.
    rewrite length_app, !length_map in Pm.
    apply Permutation_length in Pa.
    apply (f_equal (@List.length _)) in M. rewrite length_map in M.
    destruct firsts; [congruence|]. cbn [List.length] in Pm. lia.
  - destruct active as [|c cs] eqn:A; [|discriminate].
    apply Permutation_nil in Pf. congruence.
Qed.

Lemma cursor_passes_ends (n : nat) :
  forall (turns : nat) (timer : Timer) (view : V) (waiting : list Region),
    (List.length waiting <= n)%nat ->
    ((n + 1) * (n + 1) <= timer)%nat -> (timer < turns)%nat ->
    exists view',
      cursor_passes turns timer view waiting = (view', Returns RNone) /\
      padded view view'.
Proof.
  induction n as [|n IH]; intros turns timer view waiting Lw T Tu.
  - destruct waiting; [|cbn [List.length] in Lw; lia].
    exists view. destruct turns; split; try reflexivity; constructor.
  - destruct waiting as [|reg waiting];
      [exists view; destruct turns; split; try reflexivity; constructor|].
    destruct turns as [|turns]; [lia|].
    destruct timer as [|timer]; [lia|]. cbn [cursor_passes].
    destruct (get_active_cursors_enough view (reg :: waiting) timer)
      as (active & others & maxpos & G & Lo); [discriminate | |].
    { cbn [List.length] in *. nia. }
    rewrite G.
    destruct (tab_align_padded maxpos active view others) as (P & Lt).
    destruct (tab_align view maxpos active others) as [view'' waiting'].
    cbn [fst snd] in P, Lt.
    destruct (IH turns (timer - List.length (reg :: waiting))%nat view''
                waiting') as (view' & E & P').
    + cbn [List.length] in *. lia.
    + cbn [List.length] in *. nia.
    + lia.
    + exists view'. split; [assumption|].
      apply (padded_trans _ _ _ P P').
Qed.

(** X21.  Cursor mode ends.  In an editor whose lines never begin at offset
    -1, with zero-width cursors only, [n] of them, and a timer good for
    [(n+1)^2] polls, [align_by_cursors] comes to its end by itself: it
    returns, has shown no message, and has only inserted blanks. *)
Theorem align_by_cursors_ends (view : V) (timer : Timer) :
  (forall cursor, In cursor (view_sel view) -> sublime.size cursor = 0) ->
  ((List.length (view_sel view) + 1) * (List.length (view_sel view) + 1)
   <= timer)%nat ->
  exists view',
    align_by_cursors view timer = (view', Returns RNone) /\
    padded view view'.
Proof.
  intros Z0 T. unfold align_by_cursors.
  assert (E : existsb (fun cursor => 0 <? sublime.size cursor) (view_sel view)
              = false).
  { destruct (existsb _ _) eqn:X; [|reflexivity].
    apply existsb_exists in X. destruct X as (c & I & S).
    rewrite (Z0 c I) in S. discriminate. }
  rewrite E.
  apply (cursor_passes_ends (List.length (view_sel view))).
  - rewrite length_map. lia.
  - assumption.
  - lia.
Qed.

End Passes.

Lemma Editor_line_begin_known (e : Editor.t) (p : Z) :
  sublime.begin (Editor.line e p) <> -1.
Proof. unfold Editor.line, sublime.begin. cbn [sublime.a sublime.b]. lia. Qed.

Lemma align_by_cursors_ends_witness :
  exists view',
    align_by_cursors (Editor.open table [mkRegion 4 4; mkRegion 19 19] 4) 9%nat
    = (view', Returns RNone) /\
    padded (Editor.open table [mkRegion 4 4; mkRegion 19 19] 4) view'.
Proof.
  apply (@align_by_cursors_ends _ Editor.view Editor_line_begin_known
           (Editor.open table [mkRegion 4 4; mkRegion 19 19] 4) 9%nat).
  - intros c [<- | [<- | []]]; reflexivity.
  - cbn. lia.
Defined.

(** ** The column a search returns, under either policy *)

Lemma next_step_column (a : str) (af : bool) (l : LineObj) :
  next_step a af l
  = (if column_at af (text l) a (search_start l) =? -1 then exhausted l
     else moved_to l a (column_at af (text l) a (search_start l)),
     column_at af (text l) a (search_start l)).
Proof.
  unfold column_at, next_step, find_next. cbn [text search_start].
  destruct af.
  - rewrite !find_next_fuel_first. cbv zeta. cbn [text search_start].
    destruct (_ || _) eqn:C; cbn [snd]; [reflexivity|].
    apply orb_false_iff in C. destruct C as [C _]. rewrite C. reflexivity.
  - rewrite !find_next_fuel_last. cbv zeta. cbn [text search_start].
    destruct (_ || _) eqn:C; cbn [snd]; [reflexivity|].
    apply orb_false_iff in C. destruct C as [C1 C2].
    apply Z.eqb_neq in C1. apply Z.leb_gt in C2.
    destruct (last_in_row _ _ _ _) as [p|] eqn:R; cbn [snd]; [|reflexivity].
    pose proof (find_occurs _ _ _ _ eq_refl C1) as O.
    destruct (last_in_row_inside _ _ _ _ _ R O C2) as [O' _].
    apply occurs_at_bound in O'.
    replace (p =? -1) with false by (symmetry; apply Z.eqb_neq; lia).
    reflexivity.
Qed.

Lemma column_at_first (t a : str) (s : Z) :
  a <> [] -> column_at true t a s = find t a s.
Proof.
  intros Na. unfold column_at, next_step, find_next.
  rewrite find_next_fuel_first. cbv zeta. cbn [text search_start].
  destruct (Z.eq_dec (find t a s) (-1)) as [E|N].
  - rewrite E. reflexivity.
  - rewrite (found_in_text _ _ _ Na N). reflexivity.
Qed.

Lemma column_at_none (af : bool) (t a : str) (s : Z) :
  find t a s = -1 -> column_at af t a s = -1.
Proof.
  intros E. unfold column_at, next_step, find_next. destruct af.
  - rewrite find_next_fuel_first. cbv zeta. cbn [text search_start].
    rewrite E. reflexivity.
  - rewrite find_next_fuel_last. cbv zeta. cbn [text search_start].
    rewrite E. reflexivity.
Qed.

(** With [alignfirst] unset the column is the last delimiter of the row
    that starts at the first match. *)
Lemma column_at_last (t a : str) (s : Z) :
  a <> [] -> find t a s <> -1 ->
  exists k : nat,
    column_at false t a s = find t a s + Z.of_nat k * len a /\
    (forall j : nat, (j <= k)%nat ->
       occurs_at t a (find t a s + Z.of_nat j * len a) = true) /\
    occurs_at t a (find t a s + Z.of_nat (S k) * len a) = false.
Proof.
  intros Na N. pose proof (find_occurs _ _ _ _ eq_refl N) as O.
  pose proof (occurs_at_bound _ _ _ O) as [P0 _].
  destruct (last_in_row_spec (S (List.length t)) t a _ Na O)
    as (k & E & A & B); [unfold len; lia|].
  exists k. split; [|split; assumption].
  unfold column_at, next_step, find_next.
  rewrite find_next_fuel_last. cbv zeta. cbn [text search_start].
  rewrite (found_in_text _ _ _ Na N), E. reflexivity.
Qed.

(** The row fixes the column. *)
Lemma column_at_last_is (t a : str) (s q : Z) (k : nat) :
  a <> [] -> find t a s = q -> q <> -1 ->
  (forall j : nat, (j <= k)%nat ->
     occurs_at t a (q + Z.of_nat j * len a) = true) ->
  occurs_at t a (q + Z.of_nat (S k) * len a) = false ->
  column_at false t a s = q + Z.of_nat k * len a.
Proof.
  intros Na E N A B. subst q.
  destruct (column_at_last t a s Na N) as (k' & E' & A' & B').
  rewrite E'. destruct (Nat.lt_trichotomy k k') as [L | [-> | L]].
  - rewrite (A' (S k) ltac:(lia)) in B. discriminate.
  - reflexivity.
  - rewrite (A (S k') ltac:(lia)) in B'. discriminate.
Qed.

Lemma column_at_found (af : bool) (t a : str) (s p : Z) :
  a <> [] -> 0 <= s -> column_at af t a s = p -> p <> -1 ->
  s <= p /\ occurs_at t a p = true /\ find t a s <> -1 /\ find t a s <= p.
Proof.
  intros Na S0 E N.
  destruct (Z.eq_dec (find t a s) (-1)) as [F|F].
  { rewrite (column_at_none af t a s F) in E. congruence. }
  destruct (find_found t a s _ S0 eq_refl F) as (B & O & _).
  destruct af.
  - rewrite (column_at_first _ _ _ Na) in E. subst p.
    repeat split; [assumption .. | lia].
  - destruct (column_at_last t a s Na F) as (k & E' & A & _).
    rewrite E in E'. pose proof (len_nonneg a).
    assert (0 <= Z.of_nat k * len a) by (apply Z.mul_nonneg_nonneg; lia).
    repeat split; [lia | | assumption | lia].
    rewrite E'. apply A. lia.
Qed.

(** A search behind blanks put in returns what it returned, moved by the
    number of blanks. *)
Lemma column_at_splice_behind (af : bool) (t a sp : str) (p s : Z) :
  a <> [] -> 0 <= p <= len t -> p <= s ->
  column_at af (splice t p sp) a (s + len sp)
  = (if column_at af t a s =? -1 then -1 else column_at af t a s + len sp).
Proof.
  intros Na I S0. pose proof (len_nonneg sp) as Hs.
  pose proof (len_nonneg a) as Ha.
  pose proof (find_splice_behind t a sp p I s S0) as F.
  destruct (Z.eq_dec (find t a s) (-1)) as [E|N].
  - rewrite E in F. cbn [Z.eqb] in F.
    rewrite (column_at_none af _ _ _ F), (column_at_none af _ _ _ E).
    reflexivity.
  - replace (find t a s =? -1) with false in F
      by (symmetry; apply Z.eqb_neq; assumption).
    destruct (find_found t a s _ ltac:(lia) eq_refl N) as (B & O & _).
    destruct af.
    + rewrite !column_at_first, F by assumption.
      replace (find t a s =? -1) with false
        by (symmetry; apply Z.eqb_neq; assumption).
      reflexivity.
    + destruct (column_at_last t a s Na N) as (k & E & A & C).
      assert (0 <= Z.of_nat k * len a) by (apply Z.mul_nonneg_nonneg; lia).
      rewrite E.
      replace (find t a s + Z.of_nat k * len a =? -1) with false
        by (symmetry; apply Z.eqb_neq; lia).
      rewrite (column_at_last_is (splice t p sp) a (s + len sp)
                 (find t a s + len sp) k Na F ltac:(lia)); [lia | |].
      * intros j Hj.
        assert (0 <= Z.of_nat j * len a) by (apply Z.mul_nonneg_nonneg; lia).
        replace (find t a s + len sp + Z.of_nat j * len a)
          with (find t a s + Z.of_nat j * len a + len sp) by lia.
        rewrite occurs_at_splice_behind by lia. apply A. assumption.
      * assert (0 <= Z.of_nat (S k) * len a)
          by (apply Z.mul_nonneg_nonneg; lia).
        replace (find t a s + len sp + Z.of_nat (S k) * len a)
          with (find t a s + Z.of_nat (S k) * len a + len sp) by lia.
        rewrite occurs_at_splice_behind by lia. assumption.
Qed.

(** ** Two runs under a policy that the padding does not disturb *)

Section Stable.

Variables (a : str) (af : bool) (good : str -> Prop).
Hypothesis a_not_empty : a <> [].

(** The search that returned [p] returns it behind blanks put in front of
    it, and the text stays good. *)
Hypothesis here :
  forall (t : str) (s p : Z) (sp : str),
    good t -> 0 <= s -> (forall c, In c sp -> c = " "%char) ->
    column_at af t a s = p -> p <> -1 ->
    column_at af (splice t p sp) a s = p + len sp /\ good (splice t p sp).

(** A search that returned [q] returns it again when blanks are put in front
    of what a later search returned. *)
Hypothesis before :
  forall (t : str) (s q s' p' : Z) (sp : str),
    good t -> 0 <= s -> (forall c, In c sp -> c = " "%char) ->
    column_at af t a s = q -> q <> -1 -> q + len a <= s' ->
    column_at af t a s' = p' -> p' <> -1 ->
    column_at af (splice t p' sp) a s = q.

Lemma meets_by_bounds (t : str) (from : Z) (ps : list Z) (to : Z) :
  meets_by af t a from ps to -> 0 <= from -> from <= to.
Proof.
  pose proof (len_nonneg a) as Ha.
  induction 1 as [from | from p ps to E N M IH]; intros F; [lia|].
  destruct (column_at_found af t a from p a_not_empty F E N) as (B & _).
  specialize (IH ltac:(lia)). lia.
Qed.

Lemma meets_by_snoc (t : str) (from : Z) (ps : list Z) (mid p : Z) :
  meets_by af t a from ps mid -> column_at af t a mid = p -> p <> -1 ->
  meets_by af t a from (ps ++ [p]) (p + len a).
Proof.
  induction 1 as [from | from q ps to E N M IH]; intros E' N'; cbn [app].
  - apply (meets_by_cons af t a from p [] _ E' N'). constructor.
  - apply (meets_by_cons af t a from q _ _ E N). apply IH; assumption.
Qed.

Lemma meets_by_scans (t : str) (from : Z) (ps : list Z) (to : Z)
    (qs : list Z) :
  meets_by af t a from ps to -> scans_by af t a to qs ->
  scans_by af t a from (ps ++ qs).
Proof.
  induction 1 as [from | from q ps to E N M IH]; intros S; cbn [app];
    [assumption|].
  apply (scans_by_cons af t a from q _ E N). apply IH. assumption.
Qed.

(** [columns_by] lists what the searches return. *)
Lemma columns_from_scans (fuel : nat) (t : str) (from : Z) :
  0 <= from -> len t - from < Z.of_nat fuel ->
  scans_by af t a from (columns_from fuel af t a from).
Proof.
  pose proof (len_pos a a_not_empty) as La.
  revert from. induction fuel as [|fuel IH]; intros from F L.
  - cbn [columns_from]. constructor. apply column_at_none.
    apply find_beyond. lia.
  - cbn [columns_from].
    destruct (Z.eq_dec (column_at af t a from) (-1)) as [E|N].
    + rewrite E. cbn [Z.eqb]. constructor. assumption.
    + replace (column_at af t a from =? -1) with false
        by (symmetry; apply Z.eqb_neq; assumption).
      destruct (column_at_found af t a from _ a_not_empty F eq_refl N)
        as (B & _).
      apply (scans_by_cons af t a from _ _ eq_refl N). apply IH; lia.
Qed.

Lemma columns_by_scans (t : str) : scans_by af t a 0 (columns_by af t a).
Proof.
  apply columns_from_scans; [lia|]. unfold len. lia.
Qed.

Lemma meets_by_splice (t sp : str) (from : Z) (ps : list Z) (to p : Z) :
  good t -> (forall c, In c sp -> c = " "%char) ->
  meets_by af t a from ps to -> 0 <= from ->
  column_at af t a to = p -> p <> -1 ->
  meets_by af (splice t p sp) a from ps to.
Proof.
  intros G Sp M. pose proof (len_nonneg a) as Ha.
  induction M as [from | from q ps to E N M IH]; intros F Ep Np;
    [constructor|].
  destruct (column_at_found af t a from q a_not_empty F E N) as (B & _).
  pose proof (meets_by_bounds _ _ _ _ M ltac:(lia)) as B'.
  apply (meets_by_cons af _ a from q).
  - apply (before t from q to p sp G F Sp E N B' Ep Np).
  - assumption.
  - apply IH; [lia | assumption ..].
Qed.

Lemma scans_by_splice (t sp : str) (p from : Z) (ps : list Z) :
  0 <= p <= len t ->
  scans_by af t a from ps -> p <= from ->
  scans_by af (splice t p sp) a (from + len sp)
    (map (fun q => q + len sp) ps).
Proof.
  intros I. pose proof (len_nonneg a) as Ha. pose proof (len_nonneg sp).
  induction 1 as [from E | from q ps E N S IH]; intros F; cbn [map].
  - constructor.
    rewrite (column_at_splice_behind af t a sp p from a_not_empty I F), E.
    reflexivity.
  - destruct (column_at_found af t a from q a_not_empty ltac:(lia) E N)
      as (B & _).
    apply (scans_by_cons af _ a (from + len sp) (q + len sp)).
    + rewrite (column_at_splice_behind af t a sp p from a_not_empty I F), E.
      replace (q =? -1) with false by (symmetry; apply Z.eqb_neq; assumption).
      reflexivity.
    + lia.
    + replace (q + len sp + len a) with (q + len a + len sp) by lia.
      apply IH. lia.
Qed.

(** A good line with columns to come: its search returns one, and padding it
    to [m] leaves a good line whose next column has been met at [m]. *)
Lemma underway_by_step (done : list Z) (s : Z) (k : nat) (l : LineObj)
    (m : Z) :
  0 <= s -> good (text l) -> underway_by af a done s (S k) l ->
  exists p,
    next_step a af l = (moved_to l a p, p) /\ s <= p /\
    (p <= m ->
     good (text (align_line m (moved_to l a p))) /\
     underway_by af a (done ++ [m]) (m + len a) k
       (align_line m (moved_to l a p))).
Proof.
  intros S0 G (Es & M & rest & Sc & L). pose proof (len_pos a a_not_empty) as La.
  inversion Sc as [from E | from p ps E N Sc' Ef]; subst; [discriminate|].
  injection L as L.
  destruct (column_at_found af (text l) a _ _ a_not_empty S0 eq_refl N)
    as (B & O & _).
  pose proof (occurs_at_bound _ _ _ O) as [P0 P1].
  set (p := column_at af (text l) a (search_start l)) in *.
  exists p. split; [|split; [assumption|]].
  - rewrite next_step_column. fold p.
    replace (p =? -1) with false by (symmetry; apply Z.eqb_neq; assumption).
    reflexivity.
  - intros Pm.
    destruct (align_line_moved l a p m ltac:(lia) ltac:(lia)) as (T & S & _).
    assert (I : 0 <= p <= len (text l)) by lia.
    destruct (here (text l) (search_start l) p (spaces (m - p)) G S0
                (spaces_blank (m - p)) eq_refl N) as (H1 & H2).
    rewrite len_spaces in H1 by lia.
    unfold underway_by. rewrite T, S. split; [assumption|].
    split; [reflexivity|]. split.
    + apply (meets_by_snoc _ _ _ (search_start l)).
      * apply meets_by_splice;
          [assumption | apply spaces_blank | exact M | lia | reflexivity
          | assumption].
      * fold p. rewrite H1. lia.
      * lia.
    + exists (map (fun q => q + len (spaces (m - p))) ps). split.
      * replace (m + len a) with (p + len a + len (spaces (m - p)))
          by (rewrite len_spaces; lia).
        apply scans_by_splice; [exact I | exact Sc' | lia].
      * rewrite length_map. assumption.
Qed.

(** A run over good lines that all have [k] columns to come ends, within
    [k+1] polls of the timer, with lines whose searches all return the same
    offsets. *)
Lemma run_lines_up (k : nat) :
  forall (timer : Timer) (lines : list LineObj) (done : list Z) (s : Z),
    lines <> [] -> 0 <= s ->
    (forall l, In l lines -> good (text l) /\ underway_by af a done s k l) ->
    (k < timer)%nat ->
    exists out ms,
      align_columns timer lines a af = Returns (Aligned out) /\
      out <> [] /\ List.length ms = (List.length done + k)%nat /\
      forall l, In l out -> scans_by af (text l) a 0 ms.
Proof.
  induction k as [|k IH]; intros timer lines done s N S0 U T;
    (destruct timer as [|timer]; [lia|]); cbn [align_columns].
  - assert (F : forall l, In l lines -> next_step a af l = (exhausted l, -1)).
    { intros l I. destruct (U l I) as (_ & Es & _ & rest & Sc & L).
      destruct rest; [|discriminate]. inversion Sc as [from E |]; subst.
      rewrite next_step_column, E. reflexivity. }
    rewrite (align_pass_steps lines a af (-1) a_not_empty).
    + cbn [Z.ltb Z.compare bind].
      exists (map (fun l => fst (next_step a af l)) lines), done.
      split; [reflexivity|]. split.
      * destruct lines; [congruence | discriminate].
      * split; [lia|]. intros l' I. apply in_map_iff in I.
        destruct I as (l & <- & I). rewrite (F l I). cbn [fst exhausted].
        destruct (U l I) as (_ & Es & M & rest & Sc & L).
        destruct rest; [|discriminate].
        rewrite <- (app_nil_r done). cbn [set_search_start text].
        apply (meets_by_scans _ _ _ _ _ M Sc).
    + apply py_max_all.
      * destruct lines; [congruence | discriminate].
      * intros y I. apply in_map_iff in I. destruct I as (l & <- & I).
        rewrite (F l I). reflexivity.
  - destruct (py_max_spec (map (fun l => snd (next_step a af l)) lines))
      as (m & E & Im & Le).
    { destruct lines; [congruence | discriminate]. }
    assert (M0 : 0 <= m).
    { apply in_map_iff in Im. destruct Im as (l & <- & I).
      destruct (U l I) as (G & W).
      destruct (underway_by_step done s k l 0 S0 G W) as (p & F & B & _).
      rewrite F. cbn [snd]. lia. }
    rewrite (align_pass_steps lines a af m a_not_empty E).
    replace (m <? 0) with false by (symmetry; apply Z.ltb_ge; assumption).
    cbn [bind].
    destruct (IH timer
                (map (fun l => align_line m (fst (next_step a af l))) lines)
                (done ++ [m]) (m + len a)) as (out & ms & R & No & Lm & Sc).
    + destruct lines; [congruence | discriminate].
    + pose proof (len_nonneg a). lia.
    + intros l' I. apply in_map_iff in I. destruct I as (l & <- & I).
      destruct (U l I) as (G & W).
      destruct (underway_by_step done s k l m S0 G W) as (p & F & B & W').
      rewrite F. cbn [fst]. apply W'.
      apply Le. apply in_map_iff. exists l. rewrite F.
      split; [reflexivity | assumption].
    + lia.
    + exists out, ms. split; [assumption|]. split; [assumption|].
      split; [|assumption]. rewrite Lm, length_app. cbn [List.length]. lia.
Qed.

End Stable.

(** A run over lines whose searches all return the same offsets pads
    nothing, whatever the policy. *)
Lemma lined_up_run (a : str) (af : bool) (ms : list Z) :
  a <> [] ->
  forall (timer : Timer) (lines : list LineObj),
    lines <> [] ->
    (forall l, In l lines -> 0 <= search_start l /\
                             scans_by af (text l) a (search_start l) ms) ->
    (List.length ms < timer)%nat ->
    exists out,
      align_columns timer lines a af = Returns (Aligned out) /\
      map text out = map text lines.
Proof.
  intros Na.
  induction ms as [|p ms IH]; intros timer lines N Sc T;
    (destruct timer as [|timer]; [cbn [List.length] in T; lia|]);
    cbn [align_columns].
  - assert (F : forall l, In l lines -> next_step a af l = (exhausted l, -1)).
    { intros l I. destruct (Sc l I) as [_ Sl].
      inversion Sl as [from E |]; subst.
      rewrite next_step_column, E. reflexivity. }
    rewrite (align_pass_steps lines a af (-1) Na).
    + cbn [Z.ltb Z.compare bind]. eexists. split; [reflexivity|].
      rewrite map_map. apply map_ext_in. intros l I. rewrite (F l I).
      reflexivity.
    + apply py_max_all.
      * destruct lines; [congruence | discriminate].
      * intros y I. apply in_map_iff in I. destruct I as (l & <- & I).
        rewrite (F l I). reflexivity.
  - assert (F : forall l, In l lines ->
                  next_step a af l = (moved_to l a p, p) /\ 0 <= p /\
                  scans_by af (text l) a (p + len a) ms).
    { intros l I. destruct (Sc l I) as [S0 Sl].
      inversion Sl as [| from q qs E Nq Sc']; subst.
      destruct (column_at_found af (text l) a _ _ Na S0 eq_refl Nq)
        as (B & _).
      rewrite next_step_column.
      replace (column_at af (text l) a (search_start l) =? -1) with false
        by (symmetry; apply Z.eqb_neq; assumption).
      split; [reflexivity|]. split; [lia | assumption]. }
    assert (P0 : 0 <= p).
    { destruct lines as [|l lines]; [congruence|].
      destruct (F l (or_introl eq_refl)) as (_ & P0 & _). assumption. }
    rewrite (align_pass_steps lines a af p Na).
    + replace (p <? 0) with false by (symmetry; apply Z.ltb_ge; assumption).
      cbn [bind].
      destruct (IH timer
                  (map (fun l => align_line p (fst (next_step a af l))) lines))
        as (out & R & Tx).
      * destruct lines; [congruence | discriminate].
      * intros l' I. apply in_map_iff in I. destruct I as (l & <- & I).
        destruct (F l I) as (Fl & _ & Sl). rewrite Fl. cbn [fst].
        unfold align_line. cbn [moved_to last_find].
        replace (p <? 0) with false by (symmetry; apply Z.ltb_ge; assumption).
        rewrite Z.ltb_irrefl. cbn [moved_to text search_start].
        pose proof (len_nonneg a). split; [lia | assumption].
      * cbn [List.length] in T. lia.
      * exists out. split; [assumption|]. rewrite Tx, map_map.
        apply map_ext_in. intros l I. destruct (F l I) as (Fl & _).
        rewrite Fl. cbn [fst]. unfold align_line. cbn [moved_to last_find].
        replace (p <? 0) with false by (symmetry; apply Z.ltb_ge; assumption).
        rewrite Z.ltb_irrefl. reflexivity.
    + apply py_max_all.
      * destruct lines; [congruence | discriminate].
      * intros y I. apply in_map_iff in I. destruct I as (l & <- & I).
        destruct (F l I) as (Fl & _). rewrite Fl. reflexivity.
Qed.

(** ** The policies and delimiters that padding does not disturb *)

Lemma splice_nothing (t : str) (p : Z) : splice t p [] = t.
Proof. unfold splice. cbn [app]. apply firstn_skipn. Qed.

(** With [alignfirst] set, and a delimiter that holds no blank. *)
Lemma first_policy_here (a t : str) (s p : Z) (sp : str) :
  a <> [] -> ~ In " "%char a ->
  0 <= s -> (forall c, In c sp -> c = " "%char) ->
  column_at true t a s = p -> p <> -1 ->
  column_at true (splice t p sp) a s = p + len sp.
Proof.
  intros Na Nb S0 Sp E N.
  destruct (column_at_found true t a s p Na S0 E N) as (B & O & _).
  apply occurs_at_bound in O. pose proof (len_nonneg a).
  rewrite column_at_first in * by assumption.
  apply find_splice_here; [lia | assumption ..].
Qed.

Lemma first_policy_before (a t : str) (s q s' p' : Z) (sp : str) :
  a <> [] -> 0 <= s ->
  column_at true t a s = q -> q <> -1 -> q + len a <= s' ->
  column_at true t a s' = p' -> p' <> -1 ->
  column_at true (splice t p' sp) a s = q.
Proof.
  intros Na S0 E N B E' N'.
  destruct (column_at_found true t a s q Na S0 E N) as (B1 & _).
  pose proof (len_nonneg a).
  destruct (column_at_found true t a s' p' Na ltac:(lia) E' N') as (B2 & O & _).
  apply occurs_at_bound in O.
  rewrite column_at_first in * by assumption.
  apply find_splice_before; [lia | assumption .. | lia].
Qed.

(** Rows in which no delimiter has another one right behind it. *)
Lemma adjacent_free_iff (t a : str) :
  adjacent_free t a = true <->
  forall r, occurs_at t a r = true -> occurs_at t a (r + len a) = false.
Proof.
  unfold adjacent_free. rewrite forallb_forall. split.
  - intros A r O. pose proof (occurs_at_bound _ _ _ O) as [R0 R1].
    pose proof (len_nonneg a).
    specialize (A (Z.to_nat r)). rewrite Z2Nat.id in A by assumption.
    rewrite O in A. cbn [andb] in A. apply negb_true_iff. apply A.
    apply in_seq. unfold len in *. lia.
  - intros A n _. destruct (occurs_at t a (Z.of_nat n)) eqn:O; [|reflexivity].
    rewrite (A _ O). reflexivity.
Qed.

Lemma adjacent_free_column (a t : str) (s : Z) :
  a <> [] -> adjacent_free t a = true ->
  column_at false t a s = column_at true t a s.
Proof.
  intros Na G. rewrite (column_at_first _ _ _ Na).
  destruct (Z.eq_dec (find t a s) (-1)) as [E|N].
  - rewrite E. apply column_at_none. assumption.
  - pose proof (find_occurs _ _ _ _ eq_refl N) as O.
    rewrite (column_at_last_is t a s (find t a s) 0 Na eq_refl N); [lia | |].
    + intros j Hj. replace j with 0%nat by lia.
      replace (find t a s + Z.of_nat 0 * len a) with (find t a s) by lia.
      assumption.
    + replace (find t a s + Z.of_nat 1 * len a) with (find t a s + len a)
        by lia.
      apply (proj1 (adjacent_free_iff t a) G). assumption.
Qed.

(** Blanks put in make no delimiter stand right behind another. *)
Lemma adjacent_free_splice (a t sp : str) (p : Z) :
  a <> [] -> ~ In " "%char a -> (forall c, In c sp -> c = " "%char) ->
  0 <= p <= len t -> adjacent_free t a = true ->
  adjacent_free (splice t p sp) a = true.
Proof.
  intros Na Nb Sp I G. pose proof (len_pos a Na) as La.
  destruct (Z.eq_dec (len sp) 0) as [D|D].
  { apply len_nil_iff in D. rewrite D, splice_nothing. assumption. }
  pose proof (len_nonneg sp) as Hs.
  apply adjacent_free_iff. intros r O.
  pose proof (proj1 (adjacent_free_iff t a) G) as A.
  pose proof (occurs_at_bound _ _ _ O) as [R0 _].
  destruct (Z_le_dec (r + len a) p) as [B|B].
  - rewrite occurs_at_splice_before in O by lia.
    destruct (Z_le_dec (r + len a + len a) p) as [B'|B'].
    + rewrite occurs_at_splice_before by lia. apply A. assumption.
    + apply occurs_at_splice_across; [assumption .. | lia | lia | lia].
  - destruct (Z_lt_dec r (p + len sp)) as [C|C].
    + rewrite occurs_at_splice_across in O;
        [discriminate | assumption .. | lia | lia | lia].
    + replace r with (r - len sp + len sp) in O by lia.
      rewrite occurs_at_splice_behind in O by lia.
      replace (r + len a) with (r - len sp + len a + len sp) by lia.
      rewrite occurs_at_splice_behind by lia. apply A. assumption.
Qed.

Lemma free_policy_here (a t : str) (s p : Z) (sp : str) :
  a <> [] -> ~ In " "%char a -> adjacent_free t a = true ->
  0 <= s -> (forall c, In c sp -> c = " "%char) ->
  column_at false t a s = p -> p <> -1 ->
  column_at false (splice t p sp) a s = p + len sp /\
  adjacent_free (splice t p sp) a = true.
Proof.
  intros Na Nb G S0 Sp E N.
  destruct (column_at_found false t a s p Na S0 E N) as (B & O & _).
  apply occurs_at_bound in O. pose proof (len_nonneg a).
  assert (G' : adjacent_free (splice t p sp) a = true)
    by (apply adjacent_free_splice; [assumption .. | lia | assumption]).
  split; [|assumption].
  rewrite (adjacent_free_column _ _ _ Na G) in E.
  rewrite (adjacent_free_column _ _ _ Na G').
  apply first_policy_here; assumption.
Qed.

Lemma free_policy_before (a t : str) (s q s' p' : Z) (sp : str) :
  a <> [] -> ~ In " "%char a -> adjacent_free t a = true ->
  0 <= s -> (forall c, In c sp -> c = " "%char) ->
  column_at false t a s = q -> q <> -1 -> q + len a <= s' ->
  column_at false t a s' = p' -> p' <> -1 ->
  column_at false (splice t p' sp) a s = q.
Proof.
  intros Na Nb G S0 Sp E N B E' N'.
  destruct (column_at_found false t a s q Na S0 E N) as (B1 & _).
  pose proof (len_nonneg a).
  destruct (column_at_found false t a s' p' Na ltac:(lia) E' N')
    as (B2 & O & _).
  apply occurs_at_bound in O.
  assert (G' : adjacent_free (splice t p' sp) a = true)
    by (apply adjacent_free_splice; [assumption .. | lia | assumption]).
  rewrite (adjacent_free_column _ _ _ Na G) in E.
  rewrite (adjacent_free_column _ _ _ Na G) in E'.
  rewrite (adjacent_free_column _ _ _ Na G').
  apply (first_policy_before a t s q s' p' sp); assumption.
Qed.

(** With [alignfirst] unset and one blank for a delimiter: the blanks put in
    front of the last blank of a row make the row longer, no more. *)
Lemma occurs_at_blank_inside (t sp : str) (p r : Z) :
  (forall c, In c sp -> c = " "%char) -> 0 <= p <= len t ->
  p <= r < p + len sp ->
  occurs_at (splice t p sp) [" "%char] r = true.
Proof.
  intros Sp I R. apply occurs_at_iff. rewrite len_splice by assumption.
  split; [lia|]. unfold splice.
  assert (F : List.length (firstn (Z.to_nat p) t) = Z.to_nat p).
  { rewrite length_firstn. unfold len in I. lia. }
  rewrite skipn_app, F, skipn_all2 by lia. cbn [app].
  rewrite skipn_app.
  destruct (skipn (Z.to_nat r - Z.to_nat p) sp) as [|c u] eqn:E.
  - apply (f_equal (@List.length ascii)) in E. rewrite length_skipn in E.
    cbn [List.length] in E. unfold len in R. lia.
  - assert (C : In c sp).
    { rewrite <- (firstn_skipn (Z.to_nat r - Z.to_nat p) sp), E.
      apply in_or_app. right. left. reflexivity. }
    rewrite (Sp c C). reflexivity.
Qed.

Lemma blank_policy_here (t : str) (s p : Z) (sp : str) :
  0 <= s -> (forall c, In c sp -> c = " "%char) ->
  column_at false t [" "%char] s = p -> p <> -1 ->
  column_at false (splice t p sp) [" "%char] s = p + len sp.
Proof.
  intros S0 Sp E N. set (a := [" "%char]) in *.
  assert (Na : a <> []) by discriminate.
  assert (La : len a = 1) by reflexivity.
  pose proof (len_nonneg sp) as Hs.
  destruct (column_at_found false t a s p Na S0 E N) as (B & O & F & Fp).
  pose proof (occurs_at_bound _ _ _ O) as [P0 P1].
  destruct (find_found t a s _ S0 eq_refl F) as (Bq & Oq & Cq).
  destruct (column_at_last t a s Na F) as (k & E' & A & C).
  rewrite E in E'. set (q := find t a s) in *.
  assert (I : 0 <= p <= len t) by lia.
  assert (Fq : find (splice t p sp) a s = q).
  { apply find_first.
    - lia.
    - destruct (Z_le_dec (q + len a) p) as [L|L].
      + rewrite occurs_at_splice_before by lia. assumption.
      + destruct (Z.eq_dec (len sp) 0) as [D|D].
        * apply len_nil_iff in D. rewrite D, splice_nothing. assumption.
        * apply occurs_at_blank_inside; [assumption | lia | lia].
    - intros r Hr. rewrite occurs_at_splice_before by lia. apply Cq.
      assumption. }
  rewrite (column_at_last_is (splice t p sp) a s q
             (k + List.length sp) Na Fq ltac:(lia)).
  - unfold len in *. lia.
  - intros j Hj. rewrite La, Z.mul_1_r.
    destruct (Z_lt_dec (q + Z.of_nat j) p) as [L|L].
    + rewrite occurs_at_splice_before by lia.
      specialize (A j ltac:(lia)). rewrite La, Z.mul_1_r in A. assumption.
    + destruct (Z_lt_dec (q + Z.of_nat j) (p + len sp)) as [L'|L'].
      * apply occurs_at_blank_inside; [assumption | lia | lia].
      * replace (q + Z.of_nat j) with (p + len sp) by (unfold len in *; lia).
        rewrite occurs_at_splice_behind by lia. assumption.
  - rewrite La, Z.mul_1_r in *.
    replace (q + Z.of_nat (S (k + List.length sp)))
      with (q + Z.of_nat (S k) + len sp) by (unfold len; lia).
    rewrite occurs_at_splice_behind by lia. assumption.
Qed.

Lemma blank_policy_before (t : str) (s q s' p' : Z) (sp : str) :
  0 <= s ->
  column_at false t [" "%char] s = q -> q <> -1 -> q + 1 <= s' ->
  column_at false t [" "%char] s' = p' -> p' <> -1 ->
  column_at false (splice t p' sp) [" "%char] s = q.
Proof.
  intros S0 E N B E' N'. set (a := [" "%char]) in *.
  assert (Na : a <> []) by discriminate.
  assert (La : len a = 1) by reflexivity.
  destruct (column_at_found false t a s q Na S0 E N) as (B1 & O & F & Fq).
  destruct (column_at_found false t a s' p' Na ltac:(lia) E' N')
    as (B2 & O' & _).
  pose proof (occurs_at_bound _ _ _ O') as [P0 P1].
  destruct (find_found t a s _ S0 eq_refl F) as (Bq & Oq & Cq).
  destruct (column_at_last t a s Na F) as (k & Ek & A & C).
  rewrite E in Ek. rewrite La, Z.mul_1_r in *.
  assert (I : 0 <= p' <= len t) by lia.
  assert (P : q + 2 <= p').
  { destruct (Z.eq_dec p' (q + 1)) as [X|X]; [|lia].
    replace (find t a s + Z.of_nat (S k)) with p' in C by lia. congruence. }
  rewrite (column_at_last_is (splice t p' sp) a s (find t a s) k Na).
  - lia.
  - apply (find_splice_before t a sp p' I s (find t a s) S0 eq_refl F). lia.
  - assumption.
  - intros j Hj. rewrite La, Z.mul_1_r.
    specialize (A j Hj). rewrite Z.mul_1_r in A.
    rewrite occurs_at_splice_before by lia. assumption.
  - rewrite La, Z.mul_1_r. rewrite occurs_at_splice_before by lia.
    assumption.
Qed.

(** Under the first policy the columns are the delimiters that successive
    searches find. *)
Lemma columns_from_first (fuel : nat) (t a : str) (from : Z) :
  a <> [] -> columns_from fuel true t a from = occurrences_from fuel t a from.
Proof.
  intros Na. revert from. induction fuel as [|fuel IH]; intros from;
    [reflexivity|].
  cbn [columns_from occurrences_from]. rewrite (column_at_first _ _ _ Na).
  destruct (Z.eq_dec (find t a from) (-1)) as [E|N].
  - rewrite E. reflexivity.
  - rewrite (found_in_text _ _ _ Na N).
    replace (find t a from =? -1) with false
      by (symmetry; apply Z.eqb_neq; assumption).
    rewrite IH. reflexivity.
Qed.

Lemma column_count_first (t a : str) :
  a <> [] -> column_count true t a = columns t a.
Proof.
  intros Na. unfold column_count, columns_by, columns, occurrences.
  rewrite columns_from_first by assumption. reflexivity.
Qed.

(** Two runs, under a policy and over rows that the padding does not
    disturb. *)
Lemma two_runs (a : str) (af : bool) (good : str -> Prop)
    (rows : list LineObj) (n : nat) (timer : Timer) :
  a <> [] ->
  (forall (t : str) (s p : Z) (sp : str),
     good t -> 0 <= s -> (forall c, In c sp -> c = " "%char) ->
     column_at af t a s = p -> p <> -1 ->
     column_at af (splice t p sp) a s = p + len sp /\ good (splice t p sp)) ->
  (forall (t : str) (s q s' p' : Z) (sp : str),
     good t -> 0 <= s -> (forall c, In c sp -> c = " "%char) ->
     column_at af t a s = q -> q <> -1 -> q + len a <= s' ->
     column_at af t a s' = p' -> p' <> -1 ->
     column_at af (splice t p' sp) a s = q) ->
  rows <> [] ->
  (forall l, In l rows -> good (text l)) ->
  (forall l, In l rows -> column_count af (text l) a = n) ->
  (n < timer)%nat ->
  exists out out',
    align_columns timer (map reread rows) a af = Returns (Aligned out) /\
    align_columns timer (map reread out) a af = Returns (Aligned out') /\
    map text out' = map text out.
Proof.
  intros Na Here Before Nr G C T.
  destruct (run_lines_up a af good Na Here Before n timer (map reread rows)
              [] 0) as (out & ms & R & No & Lm & Sc).
  - destruct rows; [congruence | discriminate].
  - lia.
  - intros l' I. apply in_map_iff in I. destruct I as (l & <- & I).
    unfold underway_by, reread. cbn [LineObj_init search_start text].
    split; [apply G; assumption|]. split; [reflexivity|].
    split; [constructor|].
    exists (columns_by af (text l) a). split.
    + apply columns_by_scans. assumption.
    + apply C. assumption.
  - assumption.
  - destruct (lined_up_run a af ms Na timer (map reread out))
      as (out' & R' & Tx).
    + destruct out; [congruence | discriminate].
    + intros l' I. apply in_map_iff in I. destruct I as (l & <- & I).
      unfold reread. cbn [LineObj_init search_start text].
      split; [lia | apply Sc; assumption].
    + cbn [List.length] in Lm. lia.
    + exists out, out'. split; [assumption|]. split; [assumption|].
      rewrite Tx, map_map. reflexivity.
Qed.

(** C8, as the code has it.  Take rows that all offer the same number [n] of
    columns under the policy in force, and a policy and delimiter that the
    padding does not disturb: either the delimiter is not empty and holds no
    blank, and [alignfirst] is set or no row has two delimiters right behind
    one another; or the delimiter is one blank and [alignfirst] is unset.
    Then a run that may poll its timer more than [n] times ends, and a second
    run on the rows it produced ends with the same texts: it puts no further
    blanks in. *)
Theorem realign_same_columns (a : str) (alignfirst : bool)
    (rows : list LineObj) (n : nat) (timer : Timer) :
  rows <> [] ->
  (a <> [] /\ ~ In " "%char a /\
   (alignfirst = true \/
    forall l, In l rows -> adjacent_free (text l) a = true)) \/
  (a = [" "%char] /\ alignfirst = false) ->
  (forall l, In l rows -> column_count alignfirst (text l) a = n) ->
  (n < timer)%nat ->
  exists out out',
    align_columns timer (map reread rows) a alignfirst
      = Returns (Aligned out) /\
    align_columns timer (map reread out) a alignfirst
      = Returns (Aligned out') /\
    map text out' = map text out.
Proof.
  intros Nr [(Na & Nb & [-> | Free]) | [-> ->]] C T.
  - apply (two_runs a true (fun _ => True) rows n timer Na);
      try assumption; [| |intros; exact Logic.I].
    + intros t s p sp _ S0 Sp E N. split; [|exact Logic.I].
      apply first_policy_here; assumption.
    + intros t s q s' p' sp _ S0 Sp E N B E' N'.
      apply (first_policy_before a t s q s' p' sp); assumption.
  - destruct alignfirst.
    + apply (two_runs a true (fun _ => True) rows n timer Na);
        try assumption; [| |intros; exact Logic.I].
      * intros t s p sp _ S0 Sp E N. split; [|exact Logic.I].
        apply first_policy_here; assumption.
      * intros t s q s' p' sp _ S0 Sp E N B E' N'.
        apply (first_policy_before a t s q s' p' sp); assumption.
    + apply (two_runs a false (fun t => adjacent_free t a = true) rows n timer
               Na); try assumption.
      * intros t s p sp G S0 Sp E N. apply free_policy_here; assumption.
      * intros t s q s' p' sp G S0 Sp E N B E' N'.
        apply (free_policy_before a t s q s' p' sp); assumption.
  - apply (two_runs [" "%char] false (fun _ => True) rows n timer);
      try assumption; [discriminate | | |intros; exact Logic.I].
    + intros t s p sp _ S0 Sp E N. split; [|exact Logic.I].
      apply blank_policy_here; assumption.
    + intros t s q s' p' sp _ S0 Sp E N B E' N'.
      apply (blank_policy_before t s q s' p' sp); assumption.
Qed.

Lemma realign_same_columns_witness :
  (exists out out',
     align_columns 5%nat (map reread (lines_of table_rows)) (py "|") true
       = Returns (Aligned out) /\
     align_columns 5%nat (map reread out) (py "|") true
       = Returns (Aligned out') /\
     map text out' = map text out) /\
  (exists out out',
     align_columns 3%nat
       (map reread (lines_of ["list1a, list1b, list1c";
                              "list2a,  list2b,  list2c";
                              "list20a, list20b, list20c"]%string))
       (py " ") false = Returns (Aligned out) /\
     align_columns 3%nat (map reread out) (py " ") false
       = Returns (Aligned out') /\
     map text out' = map text out) /\
  (exists out out',
     align_columns 4%nat
       (map reread (lines_of ["this|is|a|table"; "it|has|some|values"]%string))
       (py "|") false = Returns (Aligned out) /\
     align_columns 4%nat (map reread out) (py "|") false
       = Returns (Aligned out') /\
     map text out' = map text out) /\
  (exists out out',
     align_columns 7%nat
       (map reread (lines_of ["this | is    | a | table";
                              "it | has | some    | values"]%string))
       (py " ") false = Returns (Aligned out) /\
     align_columns 7%nat (map reread out) (py " ") false
       = Returns (Aligned out') /\
     map text out' = map text out).
Proof.
  split; [|split; [|split]].
  - apply (realign_same_columns (py "|") true (lines_of table_rows) 4%nat
             5%nat).
    + discriminate.
    + left. split; [discriminate|]. split; [|left; reflexivity].
      vm_compute. intros [E | []]. discriminate E.
    + intros l [<- | [<- | []]]; vm_compute; reflexivity.
    + lia.
  - apply (realign_same_columns (py " ") false
             (lines_of ["list1a, list1b, list1c"; "list2a,  list2b,  list2c";
                        "list20a, list20b, list20c"]%string) 2%nat 3%nat).
    + discriminate.
    + right. split; reflexivity.
    + intros l [<- | [<- | [<- | []]]]; vm_compute; reflexivity.
    + lia.
  - apply (realign_same_columns (py "|") false
             (lines_of ["this|is|a|table"; "it|has|some|values"]%string)
             3%nat 4%nat).
    + discriminate.
    + left. split; [discriminate|]. split.
      * vm_compute. intros [E | []]. discriminate E.
      * right. intros l [<- | [<- | []]]; vm_compute; reflexivity.
    + intros l [<- | [<- | []]]; vm_compute; reflexivity.
    + lia.
  - apply (realign_same_columns (py " ") false
             (lines_of ["this | is    | a | table";
                        "it | has | some    | values"]%string) 6%nat 7%nat).
    + discriminate.
    + right. split; reflexivity.
    + intros l [<- | [<- | []]]; vm_compute; reflexivity.
    + lia.
Defined.
